(** * IB data fetcher: retry policy, ledger, planner, validator, fetcher, scheduler

    A shallow embedding of the orchestration core of the repository
    (src/utils/smart_retry_manager.py, src/utils/bar_status_manager.py,
    src/utils/market_calendar.py, src/utils/bar_validator.py,
    src/utils/validation.py, src/core/fetcher.py, src/utils/date_processor.py,
    src/core/fetcher_job.py) and the properties of it that the specification
    states.

    Conventions of the embedding.
    - Python [int] is [Z].  A [datetime] is the number of milliseconds since
      the epoch (UTC); a [date] is the number of days since the epoch.
      [time.time()] is read off the same millisecond clock.
    - Python [dict]s are stdpp [gmap]s; lists are lists.
    - Messages are ASCII strings.
    - Wall-clock stamps that are only written and never read by a decision
      ([last_update], [last_attempt]) and the loggers are left out. *)

From Stdlib Require Import ZArith QArith Bool List Ascii String Lia Permutation Sorted.
From stdpp Require Import base option list gmap strings pretty.
Import ListNotations.

Local Open Scope string_scope.
Local Open Scope list_scope.
Local Open Scope Z_scope.

(* ===================================================================== *)
(** * Part I: the program *)
(* ===================================================================== *)

(** ** Dates and times *)

Definition ms_per_day : Z := 86400000.
Definition ms_per_minute : Z := 60000.

(** [datetime.date()] *)
Definition date_of (dt : Z) : Z := dt / ms_per_day.

(** [datetime.combine(d, datetime.min.time()).replace(tzinfo=timezone.utc)] *)
Definition midnight (d : Z) : Z := d * ms_per_day.

(** ** Strings: [str.lower()] and the [in] operator on strings *)

Definition lower_ascii (c : ascii) : ascii :=
  let n := nat_of_ascii c in
  if ((65 <=? n) && (n <=? 90))%nat then ascii_of_nat (n + 32) else c.

Fixpoint lower (s : string) : string :=
  match s with
  | EmptyString => EmptyString
  | String c s' => String (lower_ascii c) (lower s')
  end.

Fixpoint contains (phrase s : string) : bool :=
  String.prefix phrase s
  || match s with
     | EmptyString => false
     | String _ s' => contains phrase s'
     end.

(** [any(phrase in s for phrase in phrases)] *)
Definition any_phrase_in (phrases : list string) (s : string) : bool :=
  existsb (fun phrase => contains phrase s) phrases.

(* --------------------------------------------------------------------- *)
(** ** utils/smart_retry_manager.py *)
(* --------------------------------------------------------------------- *)

Module SmartRetry.

Inductive FailureType :=
| NO_DATA
| NETWORK_ERROR
| API_ERROR
| VALIDATION_ERROR
| UNKNOWN.

Record DateRetryInfo := mkDateRetryInfo {
  dri_date : Z;
  dri_symbol : string;
  retry_count : Z;
  failure_type : option FailureType;
  error_message : string
}.

(** [DateRetryInfo.can_retry] *)
Definition can_retry (info : DateRetryInfo) (max_retries : Z) : bool :=
  retry_count info <? max_retries.

Record SymbolRetryState := mkSymbolRetryState {
  srs_symbol : string;
  consecutive_no_data_days : Z;
  date_retries : gmap Z DateRetryInfo;
  should_skip : bool
}.

Record SmartRetryManager := mkSmartRetryManager {
  max_consecutive_no_data_days : Z;
  max_retries_per_date : Z;
  symbol_states : gmap string SymbolRetryState
}.

(** [SmartRetryManager.__init__] *)
Definition init (max_no_data_days max_retries : Z) : SmartRetryManager :=
  mkSmartRetryManager max_no_data_days max_retries ∅.

(** [DateRetryInfo(date=target_date, symbol=symbol)] *)
Definition new_info (target_date : Z) (symbol : string) : DateRetryInfo :=
  mkDateRetryInfo target_date symbol 0 None "".

(** [SymbolRetryState(symbol=symbol)] *)
Definition new_state (symbol : string) : SymbolRetryState :=
  mkSymbolRetryState symbol 0 ∅ false.

Definition no_data_phrases : list string :=
  ["no data"; "empty"; "zero bars"; "no bars returned";
   "no historical data"; "data not available"].

Definition network_phrases : list string :=
  ["timeout"; "connection"; "network"; "socket"; "disconnected";
   "cannot connect"; "connection lost"; "timed out"].

Definition api_phrases : list string :=
  ["api error"; "request limit"; "rate limit"; "invalid contract";
   "market data"; "permission"; "subscription"].

Definition validation_phrases : list string :=
  ["validation"; "invalid data"; "corrupt"; "malformed";
   "unexpected format"; "data quality"].

(** [SmartRetryManager.classify_failure] *)
Definition classify_failure (error_message : string) (data_received : bool)
  : FailureType :=
  let error_lower := lower error_message in
  if negb data_received || any_phrase_in no_data_phrases error_lower then NO_DATA
  else if any_phrase_in network_phrases error_lower then NETWORK_ERROR
  else if any_phrase_in api_phrases error_lower then API_ERROR
  else if any_phrase_in validation_phrases error_lower then VALIDATION_ERROR
  else UNKNOWN.

Definition is_no_data (ft : FailureType) : bool :=
  match ft with NO_DATA => true | _ => false end.

(** The state of [symbol] after the "get or create" at the head of
    [record_failure] and [record_success]. *)
Definition state_or_new (rm : SmartRetryManager) (symbol : string)
  : SymbolRetryState :=
  match symbol_states rm !! symbol with
  | Some st => st
  | None => new_state symbol
  end.

Definition set_state (rm : SmartRetryManager) (symbol : string)
    (st : SymbolRetryState) : SmartRetryManager :=
  mkSmartRetryManager (max_consecutive_no_data_days rm) (max_retries_per_date rm)
    (<[symbol := st]> (symbol_states rm)).

(** [SmartRetryManager.record_failure]: the updated manager and the
    classified failure type. *)
Definition record_failure (rm : SmartRetryManager) (symbol : string)
    (target_date : Z) (msg : string) (data_received : bool)
  : SmartRetryManager * FailureType :=
  let ft := classify_failure msg data_received in
  let state := state_or_new rm symbol in
  let retry_info :=
    match date_retries state !! target_date with
    | Some info => info
    | None => new_info target_date symbol
    end in
  let retry_info' :=
    mkDateRetryInfo (dri_date retry_info) (dri_symbol retry_info)
      (retry_count retry_info + 1) (Some ft) msg in
  let retries' := <[target_date := retry_info']> (date_retries state) in
  let state' :=
    if is_no_data ft then
      if retry_count retry_info' >=? max_retries_per_date rm then
        let days := consecutive_no_data_days state + 1 in
        mkSymbolRetryState (srs_symbol state) days retries'
          (if days >=? max_consecutive_no_data_days rm then true
           else should_skip state)
      else
        mkSymbolRetryState (srs_symbol state) (consecutive_no_data_days state)
          retries' (should_skip state)
    else
      mkSymbolRetryState (srs_symbol state) (consecutive_no_data_days state)
        retries' (should_skip state) in
  (set_state rm symbol state', ft).

(** [SmartRetryManager.record_success] *)
Definition record_success (rm : SmartRetryManager) (symbol : string)
    (target_date : Z) : SmartRetryManager :=
  let state := state_or_new rm symbol in
  let days :=
    if consecutive_no_data_days state >? 0 then 0
    else consecutive_no_data_days state in
  set_state rm symbol
    (mkSymbolRetryState (srs_symbol state) days
       (delete target_date (date_retries state)) (should_skip state)).

(** [SmartRetryManager.should_skip_symbol] *)
Definition should_skip_symbol (rm : SmartRetryManager) (symbol : string) : bool :=
  match symbol_states rm !! symbol with
  | None => false
  | Some st => should_skip st
  end.

(** [SmartRetryManager.can_retry_date] *)
Definition can_retry_date (rm : SmartRetryManager) (symbol : string)
    (target_date : Z) : bool :=
  match symbol_states rm !! symbol with
  | None => true
  | Some st =>
      match date_retries st !! target_date with
      | None => true
      | Some info => can_retry info (max_retries_per_date rm)
      end
  end.

(** [SmartRetryManager.get_retry_info] *)
Definition get_retry_info (rm : SmartRetryManager) (symbol : string)
    (target_date : Z) : option DateRetryInfo :=
  match symbol_states rm !! symbol with
  | None => None
  | Some st => date_retries st !! target_date
  end.

(** The ['consecutive_no_data_days'] entry of
    [SmartRetryManager.get_symbol_summary]. *)
Definition no_data_streak (rm : SmartRetryManager) (symbol : string) : Z :=
  match symbol_states rm !! symbol with
  | None => 0
  | Some st => consecutive_no_data_days st
  end.

(** [SmartRetryManager.get_symbol_summary], without the time stamp. *)
Record RetrySummary := mkRetrySummary {
  sum_consecutive_no_data_days : Z;
  sum_should_skip : bool;
  total_failed_dates : Z;
  retryable_dates : Z;
  exhausted_dates : Z
}.

Definition get_symbol_summary (rm : SmartRetryManager) (symbol : string)
  : RetrySummary :=
  match symbol_states rm !! symbol with
  | None => mkRetrySummary 0 false 0 0 0
  | Some state =>
      let infos := map snd (map_to_list (date_retries state)) in
      let retryable :=
        Z.of_nat
          (length (List.filter (fun info => can_retry info (max_retries_per_date rm))
                     infos)) in
      mkRetrySummary (consecutive_no_data_days state) (should_skip state)
        (Z.of_nat (length infos)) retryable (Z.of_nat (length infos) - retryable)
  end.

(** The calls a client can make on the manager, and their effect. *)
Inductive Op :=
| RecordFailure (symbol : string) (target_date : Z) (msg : string)
    (data_received : bool)
| RecordSuccess (symbol : string) (target_date : Z).

Definition op_symbol (o : Op) : string :=
  match o with
  | RecordFailure s _ _ _ => s
  | RecordSuccess s _ => s
  end.

Definition apply_op (rm : SmartRetryManager) (o : Op) : SmartRetryManager :=
  match o with
  | RecordFailure s d msg dr => fst (record_failure rm s d msg dr)
  | RecordSuccess s d => record_success rm s d
  end.

Definition run_ops (rm : SmartRetryManager) (ops : list Op) : SmartRetryManager :=
  fold_left apply_op ops rm.

(** The discipline of the scheduler loop: before every date it asks
    [should_skip_symbol] and makes no further call for a latched symbol. *)
Definition apply_gated (rm : SmartRetryManager) (o : Op) : SmartRetryManager :=
  if should_skip_symbol rm (op_symbol o) then rm else apply_op rm o.

Definition run_gated (rm : SmartRetryManager) (ops : list Op) : SmartRetryManager :=
  fold_left apply_gated ops rm.

End SmartRetry.

(** ** [list.sort(key=...)]: a stable sort, by insertion *)

Fixpoint insert_by {A : Type} (le : A -> A -> bool) (x : A) (l : list A) : list A :=
  match l with
  | [] => [x]
  | y :: l' => if le x y then x :: y :: l' else y :: insert_by le x l'
  end.

Fixpoint sort_by {A : Type} (le : A -> A -> bool) (l : list A) : list A :=
  match l with
  | [] => []
  | x :: l' => insert_by le x (sort_by le l')
  end.

(* --------------------------------------------------------------------- *)
(** ** utils/bar_status_manager.py *)
(* --------------------------------------------------------------------- *)

Module BarStatus.

Inductive BarStatus :=
| COMPLETE
| EARLY_CLOSE
| HOLIDAY
| ERROR
| PENDING.

Definition status_eqb (a b : BarStatus) : bool :=
  match a, b with
  | COMPLETE, COMPLETE | EARLY_CLOSE, EARLY_CLOSE | HOLIDAY, HOLIDAY
  | ERROR, ERROR | PENDING, PENDING => true
  | _, _ => false
  end.

(** [BarStatus.value] *)
Definition value (s : BarStatus) : string :=
  match s with
  | COMPLETE => "COMPLETE"
  | EARLY_CLOSE => "EARLY_CLOSE"
  | HOLIDAY => "HOLIDAY"
  | ERROR => "ERROR"
  | PENDING => "PENDING"
  end.

(** [BarStatus(v)]; [None] stands for the [ValueError]. *)
Definition of_value (v : string) : option BarStatus :=
  if String.eqb v "COMPLETE" then Some COMPLETE
  else if String.eqb v "EARLY_CLOSE" then Some EARLY_CLOSE
  else if String.eqb v "HOLIDAY" then Some HOLIDAY
  else if String.eqb v "ERROR" then Some ERROR
  else if String.eqb v "PENDING" then Some PENDING
  else None.

Record BarStatusRecord := mkRecord {
  date : Z;                      (* a datetime *)
  status : BarStatus;
  expected_bars : Z;
  actual_bars : Z;
  last_timestamp : option Z;
  error_message : option string;
  retry_count : Z
}.

(** A row of bar_status.csv as [csv.DictWriter] writes it and
    [csv.DictReader] hands it back: the date column holds a day
    ([%Y-%m-%d]), the status column any text. *)
Record CsvRow := mkCsvRow {
  csv_date : Z;
  csv_status : string;
  csv_expected_bars : Z;
  csv_actual_bars : Z;
  csv_last_timestamp : option Z;  (* [None] is the empty cell *)
  csv_error_message : string;
  csv_retry_count : Z
}.

(** [BarStatusRecord.to_dict] *)
Definition to_dict (r : BarStatusRecord) : CsvRow :=
  mkCsvRow (date_of (date r)) (value (status r)) (expected_bars r)
    (actual_bars r) (last_timestamp r)
    (match error_message r with Some m => m | None => "" end)
    (retry_count r).

(** [BarStatusRecord.from_dict]; [None] stands for the [ValueError] of an
    unknown status. *)
Definition from_dict (row : CsvRow) : option BarStatusRecord :=
  match of_value (csv_status row) with
  | None => None
  | Some st =>
      Some (mkRecord (midnight (csv_date row)) st (csv_expected_bars row)
              (csv_actual_bars row) (csv_last_timestamp row)
              (if String.eqb (csv_error_message row) "" then None
               else Some (csv_error_message row))
              (csv_retry_count row))
  end.

(** The data directory: [data/<symbol>/bar_status.csv] for each symbol that
    has one. *)
Abbreviation Files := (gmap string (list CsvRow)).

(** [BarStatusManager.load_bar_status]: rows that do not parse are skipped. *)
Definition load_bar_status (files : Files) (symbol : string)
  : list BarStatusRecord :=
  match files !! symbol with
  | None => []
  | Some rows => omap from_dict rows
  end.

(** The loop of [update_bar_status] that overwrites the first record of the
    same day; the flag is [record_updated]. *)
Fixpoint replace_first (record : BarStatusRecord) (l : list BarStatusRecord)
  : list BarStatusRecord * bool :=
  match l with
  | [] => ([], false)
  | r :: l' =>
      if date_of (date r) =? date_of (date record) then (record :: l', true)
      else let '(l'', updated) := replace_first record l' in (r :: l'', updated)
  end.

Definition date_le (a b : BarStatusRecord) : bool := date a <=? date b.

(** [BarStatusManager.update_bar_status] *)
Definition update_bar_status (files : Files) (symbol : string)
    (record : BarStatusRecord) : Files :=
  let existing_records := load_bar_status files symbol in
  let '(replaced, record_updated) := replace_first record existing_records in
  let existing_records :=
    if record_updated then replaced else replaced ++ [record] in
  let existing_records := sort_by date_le existing_records in
  <[symbol := map to_dict existing_records]> files.

(** A record as it comes back from the file: [from_dict] of its [to_dict].
    The time of day is gone and an empty error message reads as none. *)
Definition reloaded (r : BarStatusRecord) : BarStatusRecord :=
  mkRecord (midnight (date_of (date r))) (status r) (expected_bars r)
    (actual_bars r) (last_timestamp r)
    (match error_message r with
     | Some m => if String.eqb m "" then None else Some m
     | None => None
     end)
    (retry_count r).

(** [existing_record.date.date() == d] *)
Definition on_day (d : Z) (r : BarStatusRecord) : bool := date_of (date r) =? d.

(** A sequence of upserts for one symbol, from no file at all. *)
Definition upsert_all (symbol : string) (records : list BarStatusRecord) : Files :=
  fold_left (fun files r => update_bar_status files symbol r) records ∅.

(** The record upserted last for a day, if any. *)
Definition last_upserted (records : list BarStatusRecord) (d : Z)
  : option BarStatusRecord :=
  List.find (on_day d) (rev records).

Definition is_completed (s : BarStatus) : bool :=
  match s with COMPLETE | EARLY_CLOSE => true | _ => false end.

(** [BarStatusManager.get_completed_dates] *)
Definition get_completed_dates (files : Files) (symbol : string) : gset Z :=
  list_to_set
    (map (fun r => date_of (date r))
       (filter (fun r => is_completed (status r) = true)
          (load_bar_status files symbol))).

(** [BarStatusManager.get_error_dates] *)
Definition get_error_dates (files : Files) (symbol : string) : gset Z :=
  list_to_set
    (map (fun r => date_of (date r))
       (filter (fun r => status_eqb (status r) ERROR = true)
          (load_bar_status files symbol))).

Definition date_ge (a b : BarStatusRecord) : bool := date a >=? date b.

(** The loop of [get_consecutive_failures]: the ERROR records at the head. *)
Fixpoint leading_errors (l : list BarStatusRecord) : Z :=
  match l with
  | [] => 0
  | r :: l' => if status_eqb (status r) ERROR then 1 + leading_errors l' else 0
  end.

(** [BarStatusManager.get_consecutive_failures] *)
Definition get_consecutive_failures (files : Files) (symbol : string) : Z :=
  leading_errors (sort_by date_ge (load_bar_status files symbol)).

(** [BarStatusManager.get_symbol_summary], without the success rate (a
    float); [last_update] is a day. *)
Record Summary := mkSummary {
  total_dates : Z;
  completed : Z;
  errors : Z;
  last_update : option Z
}.

Definition get_symbol_summary (files : Files) (symbol : string) : Summary :=
  let records := load_bar_status files symbol in
  match records with
  | [] => mkSummary 0 0 0 None
  | _ :: _ =>
      let successful_records :=
        List.filter (fun r => is_completed (status r)) records in
      let last :=
        match successful_records with
        | _ :: _ => head (sort_by date_le successful_records)
        | [] => head (sort_by date_ge records)
        end in
      mkSummary (Z.of_nat (length records))
        (Z.of_nat (length successful_records))
        (Z.of_nat (length (List.filter (fun r => status_eqb (status r) ERROR)
                             records)))
        (option_map (fun r => date_of (date r)) last)
  end.

(** The statuses the ledger holds for a day of a symbol. *)
Definition statuses_on (files : Files) (symbol : string) (day : Z)
  : list BarStatus :=
  map status
    (filter (fun r => date_of (date r) = day) (load_bar_status files symbol)).

End BarStatus.

(* --------------------------------------------------------------------- *)
(** ** utils/market_calendar.py *)
(* --------------------------------------------------------------------- *)

Module MarketCalendar.

Inductive MarketDayType :=
| REGULAR_DAY
| EARLY_CLOSE_SHORT
| EARLY_CLOSE_REGULAR
| HOLIDAY.

(** [config["validation"]["expected_bars"]] *)
Record ExpectedBars := mkExpectedBars {
  regular_day : Z;
  early_close : list Z;
  holiday : Z
}.

Definition default_expected_bars : ExpectedBars :=
  mkExpectedBars 390 [360; 210] 0.

Record MarketSchedule := mkMarketSchedule {
  ms_date : Z;
  is_trading_day_of : bool;
  day_type : MarketDayType;
  expected_bars : Z;
  market_open : option Z;
  market_close : option Z;
  trading_minutes : option Z
}.

(** The [MarketCalendar] object.  The exchange calendar of
    pandas_market_calendars is its table of sessions: for a day, the opening
    and closing time, or [None] when the exchange is closed.
    [market_calendar = None] is the calendar that failed to initialise. *)
Record MarketCalendar := mkMarketCalendar {
  expected_bars_config : ExpectedBars;
  market_calendar : option (Z -> option (Z * Z))
}.

(** [MarketCalendar.get_market_schedule] *)
Definition get_market_schedule (cal : MarketCalendar) (day : Z) : MarketSchedule :=
  match market_calendar cal with
  | None =>
      mkMarketSchedule day true REGULAR_DAY (regular_day (expected_bars_config cal))
        None None None
  | Some schedule =>
      match schedule day with
      | None =>
          mkMarketSchedule day false HOLIDAY (holiday (expected_bars_config cal))
            None None None
      | Some (open, close) =>
          let minutes := Z.quot (close - open) ms_per_minute in
          let '(dt, eb) :=
            if minutes <=? 210 then (EARLY_CLOSE_SHORT, 210)
            else if minutes <=? 360 then (EARLY_CLOSE_REGULAR, 360)
            else (REGULAR_DAY, regular_day (expected_bars_config cal)) in
          mkMarketSchedule day true dt eb (Some open) (Some close) (Some minutes)
      end
  end.

(** [MarketCalendar.is_trading_day] *)
Definition is_trading_day (cal : MarketCalendar) (day : Z) : bool :=
  is_trading_day_of (get_market_schedule cal day).

(** [MarketCalendar.get_expected_bar_count] *)
Definition get_expected_bar_count (cal : MarketCalendar) (day : Z) : Z :=
  expected_bars (get_market_schedule cal day).

(** [MarketCalendar.get_day_type] *)
Definition get_day_type (cal : MarketCalendar) (day : Z) : MarketDayType :=
  day_type (get_market_schedule cal day).

(** [MarketCalendar.validate_bar_count] *)
Definition validate_bar_count (cal : MarketCalendar) (day actual_bars : Z) : bool :=
  if actual_bars =? get_expected_bar_count cal day then true
  else if existsb (Z.eqb actual_bars) (early_close (expected_bars_config cal))
       then true
  else false.

(** The days [start_date .. end_date], both included. *)
Definition day_range (start_date end_date : Z) : list Z :=
  map (fun i => start_date + Z.of_nat i)
    (seq 0 (Z.to_nat (end_date - start_date + 1))).

(** [freq='B']: Monday to Friday.  Day 0 of the epoch was a Thursday. *)
Definition is_business_day (day : Z) : bool := (day + 3) mod 7 <? 5.

Definition has_session (schedule : Z -> option (Z * Z)) (day : Z) : bool :=
  match schedule day with Some _ => true | None => false end.

(** [MarketCalendar.get_trading_dates] *)
Definition get_trading_dates (cal : MarketCalendar) (start_date end_date : Z)
  : list Z :=
  match market_calendar cal with
  | None => filter (fun d => is_business_day d = true) (day_range start_date end_date)
  | Some schedule =>
      filter (fun d => has_session schedule d = true) (day_range start_date end_date)
  end.

End MarketCalendar.

(* --------------------------------------------------------------------- *)
(** ** utils/bar_validator.py and utils/validation.py *)
(* --------------------------------------------------------------------- *)

(** A call either returns or raises an exception with a message. *)
Inductive Outcome (A : Type) :=
| Returned (a : A)
| Raised (msg : string).
Arguments Returned {A} a.
Arguments Raised {A} msg.

Module Validation.

(** A bar of [ib_async].  The float fields are rationals, [None] is NaN. *)
Record BarData := mkBar {
  bar_date : Z;
  bar_open : option Q;
  bar_high : option Q;
  bar_low : option Q;
  bar_close : option Q;
  bar_volume : option Q;
  bar_average : option Q;
  bar_barCount : Z
}.

(** A [pandas.DataFrame] of bars: the column labels and the rows.  The
    numeric columns are numeric by their type here, so the dtype test of
    [validate_data_structure] cannot fail. *)
Record DataFrame := mkDataFrame {
  columns : list string;
  rows : list BarData
}.

(** [pd.DataFrame()] *)
Definition empty_frame : DataFrame := mkDataFrame [] [].

Definition bar_columns : list string :=
  ["date"; "open"; "high"; "low"; "close"; "volume"; "average"; "barCount"].

(** [util.df(bars)] *)
Definition df_of_bars (bars : list BarData) : DataFrame :=
  mkDataFrame bar_columns bars.

(** [DataFrame.empty]: some axis has length 0. *)
Definition empty (df : DataFrame) : bool :=
  match columns df, rows df with
  | [], _ => true
  | _, [] => true
  | _, _ => false
  end.

(** [len(df)] *)
Definition len (df : DataFrame) : Z := Z.of_nat (length (rows df)).

Definition has_column (df : DataFrame) (c : string) : bool :=
  existsb (String.eqb c) (columns df).

(** [ValidationResult]; the [error_details] dictionary, which only feeds
    log and error texts, is left out. *)
Record ValidationResult := mkResult {
  is_valid : bool;
  message : string;
  validated_bars : option Z;
  expected_bars : option Z
}.

Definition required_columns : list string :=
  ["date"; "open"; "high"; "low"; "close"; "volume"; "barCount"].

Definition join (sep : string) (l : list string) : string :=
  match l with
  | [] => ""
  | s :: l' => fold_left (fun acc t => acc +:+ sep +:+ t) l' s
  end.

(** [BarValidator.validate_data_structure] *)
Definition validate_data_structure (df : DataFrame) : ValidationResult :=
  if empty df then mkResult true "Empty dataset (possible holiday)" (Some 0) None
  else
    let missing_columns :=
      List.filter (fun c => negb (has_column df c)) required_columns in
    match missing_columns with
    | _ :: _ =>
        mkResult false ("Missing required columns: " +:+ join ", " missing_columns)
          None None
    | [] => mkResult true "Data structure validation passed" (Some (len df)) None
    end.

(** Comparisons of float cells; a comparison with NaN is false. *)
Definition cell_lt (a b : option Q) : bool :=
  match a, b with
  | Some x, Some y => negb (Qle_bool y x)
  | _, _ => false
  end.

Definition cell_neg (a : option Q) : bool := cell_lt a (Some 0%Q).

(** [(series).sum()] of a boolean series *)
Definition count (p : BarData -> bool) (df : DataFrame) : Z :=
  Z.of_nat (length (List.filter p (rows df))).

Definition report (what : string) (n : Z) : list string :=
  if n >? 0 then [what +:+ " in " +:+ pretty n +:+ " bars"] else [].

Definition has_columns (df : DataFrame) (cs : list string) : bool :=
  forallb (has_column df) cs.

(** [BarValidator.validate_individual_bars]; looking up a column the frame
    does not have raises [KeyError]. *)
Definition validate_individual_bars (df : DataFrame) : Outcome ValidationResult :=
  if empty df then Returned (mkResult true "No bars to validate" (Some 0) None)
  else if negb (has_columns df ["high"; "low"; "open"; "close"; "volume"; "barCount"])
  then Raised "KeyError"
  else
    let errors :=
      report "High < Low" (count (fun b => cell_lt (bar_high b) (bar_low b)) df)
      ++ report "High < Open" (count (fun b => cell_lt (bar_high b) (bar_open b)) df)
      ++ report "High < Close" (count (fun b => cell_lt (bar_high b) (bar_close b)) df)
      ++ report "Low > Open" (count (fun b => cell_lt (bar_open b) (bar_low b)) df)
      ++ report "Low > Close" (count (fun b => cell_lt (bar_close b) (bar_low b)) df)
      ++ report "Negative prices"
           (count (fun b => cell_neg (bar_open b) || cell_neg (bar_high b)
                            || cell_neg (bar_low b) || cell_neg (bar_close b)) df)
      ++ report "Negative volume" (count (fun b => cell_neg (bar_volume b)) df)
      ++ report "Negative barCount" (count (fun b => bar_barCount b <? 0) df) in
    match errors with
    | _ :: _ =>
        Returned (mkResult false ("Bar validation errors: " +:+ join "; " errors)
                    None None)
    | [] =>
        Returned (mkResult true "Individual bar validation passed"
                    (Some (len df)) None)
    end.

Definition is_nan (a : option Q) : bool :=
  match a with None => true | Some _ => false end.

(** [bar_data.isnull().sum()], column by column *)
Definition missing_values (df : DataFrame) : list (string * Z) :=
  let cols :=
    [("open", bar_open); ("high", bar_high); ("low", bar_low);
     ("close", bar_close); ("volume", bar_volume); ("average", bar_average)] in
  map (fun '(c, get) => (c, count (fun b => is_nan (get b)) df))
    (List.filter (fun '(c, _) => has_column df c) cols).

(** [BarValidator.validate_data_quality].  Extreme moves, high volume and
    repeated bars only add warnings to the log; the issues that fail the
    validation are the missing values. *)
Definition validate_data_quality (df : DataFrame) : Outcome ValidationResult :=
  if empty df then Returned (mkResult true "No data to validate quality" (Some 0) None)
  else if (len df >? 1) && negb (has_columns df ["close"; "open"; "high"; "low"])
  then Raised "KeyError"
  else
    let critical_issues :=
      map (fun '(c, n) => pretty n +:+ " missing values in " +:+ c)
        (List.filter (fun '(_, n) => n >? 0) (missing_values df)) in
    match critical_issues with
    | _ :: _ =>
        Returned (mkResult false
                    ("Critical data quality issues: " +:+ join "; " critical_issues)
                    None None)
    | [] =>
        Returned (mkResult true "Data quality validation passed" (Some (len df)) None)
    end.

(** [DataValidator]: the [expected_bars] of the configuration and the
    validator's own market calendar. *)
Record DataValidator := mkDataValidator {
  dv_expected_bars : MarketCalendar.ExpectedBars;
  dv_market_calendar : MarketCalendar.MarketCalendar
}.

(** [dates.duplicated().sum()] *)
Definition duplicated_sum (dates : list Z) : Z :=
  Z.of_nat (length dates) - Z.of_nat (length (remove_dups dates)).

(** [dates.is_monotonic_increasing] *)
Fixpoint is_monotonic_increasing (dates : list Z) : bool :=
  match dates with
  | x :: (y :: _) as dates' => (x <=? y) && is_monotonic_increasing dates'
  | _ => true
  end.

(** [DataValidator._validate_time_sequence]; its own [except] turns the
    [KeyError] of a frame without a date column into a failed result. *)
Definition _validate_time_sequence (df : DataFrame) : ValidationResult :=
  if negb (has_column df "date") then
    mkResult false "Time sequence validation error: 'date'" None None
  else
    let dates := map bar_date (rows df) in
    let duplicates := duplicated_sum dates in
    if duplicates >? 0 then
      mkResult false ("Found " +:+ pretty duplicates +:+ " duplicate timestamps")
        None None
    else if negb (is_monotonic_increasing dates) then
      mkResult false "Timestamps are not in ascending order" None None
    else mkResult true "Time sequence validation passed" None None.

(** [DataValidator._validate_market_calendar] *)
Definition _validate_market_calendar (v : DataValidator) (df : DataFrame)
    (day : Z) : ValidationResult :=
  let schedule := MarketCalendar.get_market_schedule (dv_market_calendar v) day in
  let actual_bars := len df in
  let expected := MarketCalendar.expected_bars schedule in
  if actual_bars =? expected then
    mkResult true ("Bar count validation passed: " +:+ pretty actual_bars +:+ " bars")
      None (Some expected)
  else if existsb (Z.eqb actual_bars) (MarketCalendar.early_close (dv_expected_bars v))
  then
    mkResult true
      ("Bar count validation passed: " +:+ pretty actual_bars +:+ " bars (early_close)")
      None (Some actual_bars)
  else
    mkResult false
      ("Bar count mismatch: expected " +:+ pretty expected +:+ ", got "
       +:+ pretty actual_bars)
      None (Some expected).

Definition failed (step : string) (r : ValidationResult) (df : DataFrame)
    (expected : option Z) : ValidationResult :=
  mkResult false (step +:+ message r) (Some (len df)) expected.

Definition validation_error (msg : string) (df : DataFrame) : ValidationResult :=
  mkResult false ("Validation error: " +:+ msg) (Some (len df)) None.

(** [DataValidator.validate_bar_data]: the five checks in order; an
    exception of a check is caught by the outer [except]. *)
Definition validate_bar_data (v : DataValidator) (df : DataFrame) (day : Z)
  : ValidationResult :=
  let structure_result := validate_data_structure df in
  if negb (is_valid structure_result) then structure_result
  else
    match validate_individual_bars df with
    | Raised msg => validation_error msg df
    | Returned bar_result =>
        if negb (is_valid bar_result) then
          failed "Bar validation failed: " bar_result df None
        else
          let time_result := _validate_time_sequence df in
          if negb (is_valid time_result) then
            failed "Time sequence validation failed: " time_result df None
          else
            let calendar_result := _validate_market_calendar v df day in
            if negb (is_valid calendar_result) then
              failed "Market calendar validation failed: " calendar_result df
                (expected_bars calendar_result)
            else
              match validate_data_quality df with
              | Raised msg => validation_error msg df
              | Returned quality_result =>
                  if negb (is_valid quality_result) then
                    failed "Data quality validation failed: " quality_result df None
                  else
                    mkResult true "All validations passed" (Some (len df))
                      (expected_bars calendar_result)
              end
    end.

End Validation.

(* --------------------------------------------------------------------- *)
(** ** core/fetcher.py *)
(* --------------------------------------------------------------------- *)

Module Fetcher.

Import Validation.

(** What a request to the gateway comes back with. *)
Inductive Reply :=
| ReplyRaise (msg : string)            (* the call raises an exception *)
| ReplyNone
| ReplyStr (s : string)                (* an error string *)
| ReplyBars (bars : list BarData)
| ReplyOther                           (* an object that is not iterable *)
| ReplyHead (ts : Z).                  (* a head timestamp *)

(** The gateway and the clock, as the fetcher meets them: the reply to the
    event numbered [n], and the time that event takes (the duration of a
    request; for a sleep, the time slept beyond what was asked). *)
Record Gateway := mkGateway {
  reply : nat -> Reply;
  delay : nat -> Z
}.

(** The immutable part of [IBDataFetcher]. *)
Record Fetcher := mkFetcher {
  retry_max_attempts : Z;                    (* config['retry']['max_attempts'] *)
  retry_wait_seconds : Z;                    (* config['retry']['wait_seconds'] *)
  expected_bars : MarketCalendar.ExpectedBars;
  market_calendar : MarketCalendar.MarketCalendar;
  data_validator : DataValidator;
  has_contract : string -> bool;             (* contract_manager.get_contract *)
  gateway : Gateway
}.

(** The mutable part, with the clock and the log of the requests made
    (start and end of each, latest first). *)
Record State := mkState {
  clock : Z;
  last_request_time : Z;
  tick : nat;
  is_connected : bool;
  requests : list (Z * Z)
}.

Definition initial (now : Z) : State := mkState now 0 O true [].

(** [self.rate_limit_wait = 10], in milliseconds *)
Definition rate_limit_wait : Z := 10 * 1000.

(** A computation on the fetcher state. *)
Definition M (A : Type) : Type := State -> A * State.

Definition ret {A : Type} (a : A) : M A := fun s => (a, s).

Definition bind {A B : Type} (m : M A) (k : A -> M B) : M B :=
  fun s => let '(a, s') := m s in k a s'.

Declare Scope fetch_scope.
Delimit Scope fetch_scope with fetch.
Notation "'do' x <- m 'in' k" := (bind m (fun x => k))
  (at level 10, x name, m at level 100, k at level 200) : fetch_scope.
Notation "'run' m 'in' k" := (bind m (fun _ => k))
  (at level 10, m at level 100, k at level 200) : fetch_scope.
Local Open Scope fetch_scope.

(** [await asyncio.sleep(t)] *)
Definition sleep (f : Fetcher) (t : Z) : M unit := fun s =>
  (tt, mkState (clock s + t + delay (gateway f) (tick s)) (last_request_time s)
         (S (tick s)) (is_connected s) (requests s)).

(** A call of [reqHistoricalDataAsync] or [reqHeadTimeStampAsync]. *)
Definition request (f : Fetcher) : M Reply := fun s =>
  let finish := clock s + delay (gateway f) (tick s) in
  (reply (gateway f) (tick s),
   mkState finish (last_request_time s) (S (tick s)) (is_connected s)
     ((clock s, finish) :: requests s)).

Definition stamp_request_time : M unit := fun s =>
  (tt, mkState (clock s) (clock s) (tick s) (is_connected s) (requests s)).

(** [IBDataFetcher._enforce_rate_limit] *)
Definition _enforce_rate_limit (f : Fetcher) : M unit := fun s =>
  let current_time := clock s in
  let time_since_last := current_time - last_request_time s in
  (run (if time_since_last <? rate_limit_wait
        then sleep f (rate_limit_wait - time_since_last)
        else ret tt) in
   stamp_request_time) s.

(** [IBDataFetcher._request_with_retry]: the attempts left and the number of
    the current attempt. *)
Fixpoint _request_with_retry_from (f : Fetcher) (left : nat) (attempt : Z)
  : M (option (list BarData)) :=
  match left with
  | O => ret None
  | S left' =>
      do bars <- request f in
      match bars with
      | ReplyRaise _ =>
          run (if attempt <? retry_max_attempts f
               then sleep f (retry_wait_seconds f * 1000)
               else ret tt) in
          _request_with_retry_from f left' (attempt + 1)
      | ReplyNone => ret None
      | ReplyStr _ => ret None
      | ReplyBars result => ret (Some result)
      | ReplyOther => ret None
      | ReplyHead _ => ret None
      end
  end.

Definition _request_with_retry (f : Fetcher) : M (option (list BarData)) :=
  _request_with_retry_from f (Z.to_nat (retry_max_attempts f)) 1.

(** [IBDataFetcher.fetch_historical_data] *)
Definition fetch_historical_data (f : Fetcher) (end_date : Z)
  : M (option (list BarData)) := fun s =>
  if negb (is_connected s) then (None, s)
  else
    (run _enforce_rate_limit f in
     do bars <- _request_with_retry f in
     match bars with
     | Some (b :: bs) => ret (Some (b :: bs))
     | _ => ret None
     end) s.

(** [IBDataFetcher._determine_status] *)
Definition _determine_status (f : Fetcher) (bar_count : Z) (date : Z) : string :=
  if bar_count =? 0 then "HOLIDAY"
  else if bar_count =? MarketCalendar.regular_day (expected_bars f) then "COMPLETE"
  else if existsb (Z.eqb bar_count) (MarketCalendar.early_close (expected_bars f))
  then
    match MarketCalendar.get_day_type (market_calendar f) (date_of date) with
    | MarketCalendar.EARLY_CLOSE_SHORT | MarketCalendar.EARLY_CLOSE_REGULAR =>
        "EARLY_CLOSE"
    | _ => "ERROR"
    end
  else "ERROR".

(** [IBDataFetcher.fetch_and_validate_day]: success, frame, status message *)
Definition fetch_and_validate_day (f : Fetcher) (symbol : string) (date : Z)
  : M (bool * option DataFrame * string) :=
  if negb (has_contract f symbol) then
    ret (false, None, "Failed to create contract for " +:+ symbol)
  else if negb (MarketCalendar.is_trading_day (market_calendar f) (date_of date))
  then ret (true, Some empty_frame, "HOLIDAY")
  else
    do bars <- fetch_historical_data f date in
    match bars with
    | None => ret (false, None, "Failed to fetch data")
    | Some [] => ret (true, Some empty_frame, "HOLIDAY")
    | Some (b :: bs) =>
        let df := df_of_bars (b :: bs) in
        if negb (date_of (bar_date b) =? date_of date) then
          ret (false, None, "ERROR: Date mismatch")
        else
          let validation_result :=
            validate_bar_data (data_validator f) df (date_of date) in
          if is_valid validation_result then
            ret (true, Some df, _determine_status f (len df) date)
          else ret (false, None, "ERROR: " +:+ message validation_result)
    end.

(** [IBDataFetcher.get_earliest_data_date] *)
Definition get_earliest_data_date (f : Fetcher) (symbol : string)
  : M (option Z) :=
  if negb (has_contract f symbol) then ret None
  else
    run _enforce_rate_limit f in
    do head_timestamp <- request f in
    match head_timestamp with
    | ReplyHead ts => ret (Some (midnight (date_of ts)))
    | _ => ret None
    end.

End Fetcher.

(* --------------------------------------------------------------------- *)
(** ** utils/date_processor.py *)
(* --------------------------------------------------------------------- *)

Module DateProcessor.

Import Validation.

(** A write of [update_bar_status], kept in a log for the statements about
    the history of the ledger: the symbol, the record, and the ledger before
    and after. *)
Record LedgerWrite := mkWrite {
  lw_symbol : string;
  lw_record : BarStatus.BarStatusRecord;
  lw_before : BarStatus.Files;
  lw_after : BarStatus.Files
}.

(** What the date processor works on: the fetcher's state, the ledger files,
    the daily bar files [data/<symbol>/raw/<day>.csv], and the log of ledger
    writes (latest first). *)
Record World := mkWorld {
  fetcher_state : Fetcher.State;
  files : BarStatus.Files;
  raw_files : gmap (string * Z) DataFrame;
  writes : list LedgerWrite
}.

Record DateProcessor := mkDateProcessor {
  fetcher : Fetcher.Fetcher;
  market_calendar : MarketCalendar.MarketCalendar;
  (** the exception, if any, that writing a daily bar file raises *)
  save_error : string -> Z -> option string
}.

Definition date_ge (a b : Z) : bool := a >=? b.

(** The body of [DateProcessor.get_dates_to_process] once the earliest data
    date and the current time are known. *)
Definition remaining_dates (cal : MarketCalendar.MarketCalendar)
    (ledger : BarStatus.Files) (symbol : string) (earliest_date now : Z)
  : list Z :=
  let yesterday := date_of now - 1 in
  let trading_dates :=
    MarketCalendar.get_trading_dates cal (date_of earliest_date) yesterday in
  let completed_dates := BarStatus.get_completed_dates ledger symbol in
  let dates_to_process :=
    map midnight (filter (fun d => d ∉ completed_dates) trading_dates) in
  sort_by date_ge dates_to_process.

(** [DateProcessor.get_dates_to_process] *)
Definition get_dates_to_process (dp : DateProcessor) (symbol : string)
    (w : World) : list Z * World :=
  let '(earliest_date, fs) :=
    Fetcher.get_earliest_data_date (fetcher dp) symbol (fetcher_state w) in
  let w' := mkWorld fs (files w) (raw_files w) (writes w) in
  match earliest_date with
  | None => ([], w')
  | Some earliest =>
      (remaining_dates (market_calendar dp) (files w) symbol earliest
         (Fetcher.clock fs), w')
  end.

(** [self.bar_status_manager.update_bar_status(symbol, status_record)] *)
Definition write_status (symbol : string) (record : BarStatus.BarStatusRecord)
    (w : World) : World :=
  let after := BarStatus.update_bar_status (files w) symbol record in
  mkWorld (fetcher_state w) after (raw_files w)
    (mkWrite symbol record (files w) after :: writes w).

Definition error_record (dp : DateProcessor) (date : Z) (msg : string)
  : BarStatus.BarStatusRecord :=
  BarStatus.mkRecord date BarStatus.ERROR
    (MarketCalendar.get_expected_bar_count (market_calendar dp) (date_of date))
    0 None (Some msg) 0.

(** The status [process_date] gives a day that was fetched. *)
Definition final_status (bar_count expected_bars : Z) : BarStatus.BarStatus :=
  if bar_count =? expected_bars then BarStatus.COMPLETE
  else if bar_count >? 0 then BarStatus.EARLY_CLOSE
  else BarStatus.HOLIDAY.

(** [data_df.iloc[-1]['date'] if not data_df.empty else None] *)
Definition last_bar_date (df : DataFrame) : option Z :=
  if empty df then None else option_map bar_date (last (rows df)).

(** [DateProcessor.process_date] *)
Definition process_date (dp : DateProcessor) (symbol : string) (date : Z)
    (shutdown_requested : bool) (w : World) : bool * World :=
  if shutdown_requested then (false, w)
  else
    let '(success, data_df, status, fs) :=
      Fetcher.fetch_and_validate_day (fetcher dp) symbol date (fetcher_state w) in
    let w := mkWorld fs (files w) (raw_files w) (writes w) in
    match success, data_df with
    | true, Some df =>
        match save_error dp symbol (date_of date) with
        | Some e => (false, write_status symbol (error_record dp date e) w)
        | None =>
            let w :=
              mkWorld (fetcher_state w) (files w)
                (<[(symbol, date_of date) := df]> (raw_files w)) (writes w) in
            let bar_count := len df in
            let expected_bars :=
              MarketCalendar.get_expected_bar_count (market_calendar dp)
                (date_of date) in
            let status_record :=
              BarStatus.mkRecord date (final_status bar_count expected_bars)
                expected_bars bar_count (last_bar_date df) None 0 in
            (true, write_status symbol status_record w)
        end
    | _, _ =>
        (false,
         write_status symbol (error_record dp date ("Fetch failed: " +:+ status)) w)
    end.

End DateProcessor.

(* --------------------------------------------------------------------- *)
(** ** core/fetcher_job.py *)
(* --------------------------------------------------------------------- *)

Module FetcherJob.

Import DateProcessor.

Inductive JobStatus :=
| PENDING
| RUNNING
| COMPLETE
| ERROR
| PAUSED.

Record JobProgress := mkProgress {
  symbol : string;
  total_dates : Z;
  completed_dates : Z;
  error_dates : Z;
  current_date : option Z;
  status : JobStatus
}.

(** How the awaited [process_date] of one date ends. *)
Inductive Attempt :=
| Finishes                      (* it returns *)
| TimesOut                      (* [asyncio.TimeoutError] after 60 seconds *)
| IsCancelled                   (* [asyncio.CancelledError] *)
| Raises (msg : string).        (* any other exception reaches the loop *)

(** What happens around one turn of a loop: whether a stop signal arrives
    before the turn, between its checks and the call, or during the call,
    and how the call ends. *)
Record Event := mkEvent {
  signal_before : bool;
  signal_at_call : bool;
  attempt : Attempt;
  signal_during : bool
}.

(** The immutable part of [DataFetcherJob]. *)
Record DataFetcherJob := mkJob {
  date_processor : DateProcessor;
  events : nat -> Event
}.

(** The mutable part. *)
Record State := mkState {
  world : World;
  retry_manager : SmartRetry.SmartRetryManager;
  shutdown_requested : bool;
  turn : nat
}.

Definition signal (b : bool) (st : State) : State :=
  mkState (world st) (retry_manager st) (shutdown_requested st || b) (turn st).

Definition next_turn (st : State) : State :=
  mkState (world st) (retry_manager st) (shutdown_requested st) (S (turn st)).

Definition set_world (w : World) (st : State) : State :=
  mkState w (retry_manager st) (shutdown_requested st) (turn st).

Definition set_retry_manager (rm : SmartRetry.SmartRetryManager) (st : State)
  : State :=
  mkState (world st) rm (shutdown_requested st) (turn st).

Definition add_completed (p : JobProgress) : JobProgress :=
  mkProgress (symbol p) (total_dates p) (completed_dates p + 1) (error_dates p)
    (current_date p) (status p).

Definition add_error (p : JobProgress) : JobProgress :=
  mkProgress (symbol p) (total_dates p) (completed_dates p) (error_dates p + 1)
    (current_date p) (status p).

Definition set_current_date (d : option Z) (p : JobProgress) : JobProgress :=
  mkProgress (symbol p) (total_dates p) (completed_dates p) (error_dates p)
    d (status p).

Definition set_status (s : JobStatus) (p : JobProgress) : JobProgress :=
  mkProgress (symbol p) (total_dates p) (completed_dates p) (error_dates p)
    (current_date p) s.

(** The failure branch of the date loop:
    [record_failure(symbol, date.date(), error_message or "Processing failed",
    data_received=False)]. *)
Definition record_date_failure (rm : SmartRetry.SmartRetryManager)
    (symbol : string) (date : Z) (error_message : string)
  : SmartRetry.SmartRetryManager * SmartRetry.FailureType :=
  SmartRetry.record_failure rm symbol (date_of date)
    (if String.eqb error_message "" then "Processing failed" else error_message)
    false.

(** The awaited call of the date loop with its [except] clauses: [None] is
    the [break] of a cancellation, otherwise [success] and [error_message]. *)
Definition await_process_date (job : DataFetcherJob) (sym : string) (date : Z)
    (ev : Event) (st : State) : option (bool * string) * State :=
  match attempt ev with
  | Finishes =>
      let '(success, w) :=
        process_date (date_processor job) sym date (shutdown_requested st)
          (world st) in
      (Some (success, ""), set_world w st)
  | TimesOut => (Some (false, "Timeout after 60 seconds"), st)
  | IsCancelled => (None, st)
  | Raises msg => (Some (false, msg), st)
  end.

(** The [for date in dates_to_process] loop of [_process_symbol]. *)
Fixpoint process_dates (job : DataFetcherJob) (sym : string) (dates : list Z)
    (p : JobProgress) (st : State) : JobProgress * State :=
  match dates with
  | [] => (p, st)
  | date :: rest =>
      let ev := events job (turn st) in
      let st := signal (signal_before ev) (next_turn st) in
      if shutdown_requested st then (p, st)
      else if SmartRetry.should_skip_symbol (retry_manager st) sym then (p, st)
      else
        let p := set_current_date (Some date) p in
        if negb (SmartRetry.can_retry_date (retry_manager st) sym (date_of date))
        then process_dates job sym rest (add_error p) st
        else
          let st := signal (signal_at_call ev) st in
          match await_process_date job sym date ev st with
          | (None, st) => (p, st)
          | (Some (success, error_message), st) =>
              let st := signal (signal_during ev) st in
              let '(p, st) :=
                if success then
                  (add_completed p,
                   set_retry_manager
                     (SmartRetry.record_success (retry_manager st) sym
                        (date_of date)) st)
                else
                  (add_error p,
                   set_retry_manager
                     (fst (record_date_failure (retry_manager st) sym date
                             error_message)) st) in
              if shutdown_requested st then (p, st)
              else process_dates job sym rest p st
          end
  end.

(** [DataFetcherJob._process_symbol]: whether there was work, the job's
    final progress if it ran, and the new state. *)
Definition _process_symbol (job : DataFetcherJob) (sym : string) (st : State)
  : bool * option JobProgress * State :=
  if SmartRetry.should_skip_symbol (retry_manager st) sym then (false, None, st)
  else
    let '(dates_to_process, w) :=
      get_dates_to_process (date_processor job) sym (world st) in
    let st := set_world w st in
    match dates_to_process with
    | [] => (false, None, st)
    | _ :: _ =>
        let p0 :=
          mkProgress sym (Z.of_nat (length dates_to_process)) 0 0 None RUNNING in
        let '(p, st) := process_dates job sym dates_to_process p0 st in
        let final :=
          if shutdown_requested st then PAUSED
          else if SmartRetry.should_skip_symbol (retry_manager st) sym then ERROR
          else COMPLETE in
        (true, Some (set_current_date None (set_status final p)), st)
    end.

(** The [for symbol in symbols] loop of [start_jobs]. *)
Fixpoint process_symbols (job : DataFetcherJob) (symbols : list string)
    (st : State) : State :=
  match symbols with
  | [] => st
  | sym :: rest =>
      let ev := events job (turn st) in
      let st := signal (signal_before ev) (next_turn st) in
      if shutdown_requested st then st
      else if SmartRetry.should_skip_symbol (retry_manager st) sym
      then process_symbols job rest st
      else
        let '(_, _, st) := _process_symbol job sym st in
        let st := signal (signal_during ev) st in
        if shutdown_requested st then st
        else process_symbols job rest st
  end.

(** [DataFetcherJob.start_jobs] on a connected gateway: the shutdown state is
    reset, then the symbols are processed in order. *)
Definition start_jobs (job : DataFetcherJob) (symbols : list string)
    (st : State) : State :=
  process_symbols job symbols
    (mkState (world st) (retry_manager st) false (turn st)).

(** The state of a fresh [DataFetcherJob] over the files on disk. *)
Definition fresh (ledger : BarStatus.Files) (now : Z)
    (max_no_data_days max_retries : Z) : State :=
  mkState (mkWorld (Fetcher.initial now) ledger ∅ [])
    (SmartRetry.init max_no_data_days max_retries) false O.

End FetcherJob.

(* --------------------------------------------------------------------- *)
(** ** Concrete runs *)
(* --------------------------------------------------------------------- *)

Module Scenario.

Import Validation.

(** Days of 2024, counted from the epoch. *)
Definition d2024_01_01 : Z := 19723.
Definition d2024_01_02 : Z := 19724.
Definition d2024_01_05 : Z := 19727.
Definition d2024_11_29 : Z := 20056.
Definition d2024_12_25 : Z := 20082.

Definition hour : Z := 3600000.

(** 9:30 to 16:00 New York time, in UTC (winter): 390 minutes. *)
Definition regular_session (day : Z) : Z * Z :=
  (midnight day + 14 * hour + 30 * ms_per_minute, midnight day + 21 * hour).

(** 9:30 to 13:00 New York time: 210 minutes. *)
Definition short_session (day : Z) : Z * Z :=
  (midnight day + 14 * hour + 30 * ms_per_minute, midnight day + 18 * hour).

(** The sessions of the exchange in 2024, as far as the runs below go. *)
Definition nyse (day : Z) : option (Z * Z) :=
  if negb (MarketCalendar.is_business_day day) then None
  else if (day =? d2024_01_01) || (day =? d2024_12_25) then None
  else if day =? d2024_11_29 then Some (short_session day)
  else Some (regular_session day).

Definition calendar : MarketCalendar.MarketCalendar :=
  MarketCalendar.mkMarketCalendar MarketCalendar.default_expected_bars (Some nyse).

Definition validator : DataValidator :=
  mkDataValidator MarketCalendar.default_expected_bars calendar.

(** [n] one-minute bars from the opening of [day]. *)
Definition bars_of (day : Z) (n : nat) : list BarData :=
  map (fun i =>
         mkBar (midnight day + 14 * hour + 30 * ms_per_minute
                + Z.of_nat i * ms_per_minute)
           (Some 100%Q) (Some 101%Q) (Some 99%Q) (Some 100%Q)
           (Some 1000%Q) (Some 100%Q) 10)
    (seq 0 n).

(** A fetcher with the default retry settings (3 attempts, 5 seconds) over a
    gateway that answers request [n] with [replies n] after [delays n]. *)
Definition fetcher_over (replies : nat -> Fetcher.Reply) (delays : nat -> Z)
  : Fetcher.Fetcher :=
  Fetcher.mkFetcher 3 5 MarketCalendar.default_expected_bars calendar validator
    (fun _ => true) (Fetcher.mkGateway replies delays).

Definition processor_over (replies : nat -> Fetcher.Reply) (delays : nat -> Z)
  : DateProcessor.DateProcessor :=
  DateProcessor.mkDateProcessor (fetcher_over replies delays) calendar
    (fun _ _ => None).

Definition quiet : FetcherJob.Event :=
  FetcherJob.mkEvent false false FetcherJob.Finishes false.

Definition job_over (replies : nat -> Fetcher.Reply) (delays : nat -> Z)
  : FetcherJob.DataFetcherJob :=
  FetcherJob.mkJob (processor_over replies delays) (fun _ => quiet).

(** The retry manager calls of a walk into dates without data: [attempts]
    failures on each of [days] days, newest first. *)
Definition no_data_walk (symbol : string) (newest : Z) (days attempts : nat)
  : list SmartRetry.Op :=
  flat_map
    (fun i =>
       repeat (SmartRetry.RecordFailure symbol (newest - Z.of_nat i)
                 "no historical data" false) attempts)
    (seq 0 days).

(** Ten days without data latch the symbol; then a success is recorded. *)
Definition latch_then_success : list SmartRetry.Op :=
  no_data_walk "Y" d2024_01_05 10 3 ++ [SmartRetry.RecordSuccess "Y" d2024_01_05].

(** Noon of the day after [day]: a run then plans up to [day]. *)
Definition noon_after (day : Z) : Z := midnight (day + 1) + 12 * hour.

(** The gateway delivers the 210 bars of the early close of 2024-11-29. *)
Definition early_close_replies (n : nat) : Fetcher.Reply :=
  match n with
  | O => Fetcher.ReplyBars (bars_of d2024_11_29 210)
  | _ => Fetcher.ReplyNone
  end.

Definition second (_ : nat) : Z := 1000.

Definition early_close_world : DateProcessor.World :=
  DateProcessor.mkWorld (Fetcher.initial (noon_after d2024_11_29)) ∅ ∅ [].

(** The gateway knows data from 2024-01-02 on and then delivers nothing. *)
Definition no_data_replies (n : nat) : Fetcher.Reply :=
  match n with
  | O => Fetcher.ReplyHead (midnight d2024_01_02)
  | _ => Fetcher.ReplyNone
  end.

(** A ledger whose row for the trading day 2024-01-02 says HOLIDAY. *)
Definition holiday_ledger : BarStatus.Files :=
  {[ "X" := [BarStatus.mkCsvRow d2024_01_02 "HOLIDAY" 0 0 None "" 0] ]}.

(** A ledger with 2024-01-03 COMPLETE and 2024-01-04 ERROR. *)
Definition partial_ledger : BarStatus.Files :=
  {[ "X" := [BarStatus.mkCsvRow (d2024_01_02 + 1) "COMPLETE" 390 390 None "" 0;
             BarStatus.mkCsvRow (d2024_01_02 + 2) "ERROR" 390 0 None
               "Fetch failed: Failed to fetch data" 0] ]}.

Definition partial_world : DateProcessor.World :=
  DateProcessor.mkWorld (Fetcher.initial (noon_after d2024_01_05))
    partial_ledger ∅ [].

(** A ledger with every trading day from 2024-01-02 to 2024-01-05 done. *)
Definition full_ledger : BarStatus.Files :=
  {[ "X" := map (fun i => BarStatus.mkCsvRow (d2024_01_02 + Z.of_nat i)
                            "COMPLETE" 390 390 None "" 0) (seq 0 4) ]}.

(** Two records that do not come back from the file as they went in: one
    stamped at 9:30, one with an empty error message. *)
Definition stamped_record : BarStatus.BarStatusRecord :=
  BarStatus.mkRecord (midnight d2024_01_02 + 9 * hour + 30 * ms_per_minute)
    BarStatus.COMPLETE 390 390 None None 0.

Definition blank_error_record : BarStatus.BarStatusRecord :=
  BarStatus.mkRecord (midnight d2024_01_02) BarStatus.ERROR 390 0 None (Some "") 0.

(** A gateway that answers every request with one bar after four seconds;
    the sleep in between (event 1) ends exactly on time. *)
Definition slow_fetcher : Fetcher.Fetcher :=
  fetcher_over (fun _ => Fetcher.ReplyBars (bars_of d2024_01_02 1))
    (fun n => match n with 1%nat => 0 | _ => 4000 end).

(** A gateway whose first answer is an exception, at once. *)
Definition flaky_fetcher : Fetcher.Fetcher :=
  fetcher_over
    (fun n => match n with
              | O => Fetcher.ReplyRaise "connection reset"
              | _ => Fetcher.ReplyBars (bars_of d2024_01_02 1)
              end)
    (fun _ => 0).

End Scenario.

(* ===================================================================== *)
(** * Part II: properties *)
(* ===================================================================== *)

(** ** General facts *)

(** Case analysis on the condition of an [if] at the head of an equation. *)
Ltac case_goal_if :=
  match goal with
  | |- (if ?c then _ else _) = _ => destruct c eqn:?
  | |- _ = (if ?c then _ else _) => destruct c eqn:?
  end.

Lemma fold_left_invariant {A B : Type} (f : A -> B -> A) (P : A -> Prop) :
  (forall a b, P a -> P (f a b)) ->
  forall l a, P a -> P (fold_left f l a).
Proof.
  intros Hstep l. induction l as [|b l IH]; intros a Ha; simpl; auto.
Qed.

Lemma date_of_midnight (d : Z) : date_of (midnight d) = d.
Proof. unfold date_of, midnight, ms_per_day. apply Z.div_mul. lia. Qed.

Lemma midnight_lt (a b : Z) : a < b <-> midnight a < midnight b.
Proof. unfold midnight, ms_per_day. lia. Qed.

Lemma midnight_inj (a b : Z) : midnight a = midnight b -> a = b.
Proof. unfold midnight, ms_per_day. lia. Qed.

(** ** The retry policy *)

Section RetryPolicy.

Import SmartRetry.

(** The classifier with [data_received = False]. *)
Lemma classify_not_received (msg : string) : classify_failure msg false = NO_DATA.
Proof. reflexivity. Qed.

Lemma record_failure_limits rm s d msg dr :
  max_consecutive_no_data_days (fst (record_failure rm s d msg dr))
    = max_consecutive_no_data_days rm
  /\ max_retries_per_date (fst (record_failure rm s d msg dr))
    = max_retries_per_date rm.
Proof. split; reflexivity. Qed.

Lemma record_failure_other rm s d msg dr s' :
  s <> s' ->
  symbol_states (fst (record_failure rm s d msg dr)) !! s' = symbol_states rm !! s'.
Proof. intros Hne. unfold record_failure. simpl. by rewrite lookup_insert_ne. Qed.

Lemma record_success_other rm s d s' :
  s <> s' ->
  symbol_states (record_success rm s d) !! s' = symbol_states rm !! s'.
Proof. intros Hne. unfold record_success. simpl. by rewrite lookup_insert_ne. Qed.

(** What [record_failure] leaves for its own symbol. *)
Lemma record_failure_same rm s d msg dr :
  exists st',
    symbol_states (fst (record_failure rm s d msg dr)) !! s = Some st'
    /\ let st := state_or_new rm s in
       let count :=
         match date_retries st !! d with
         | Some info => retry_count info
         | None => 0
         end in
       let abandoned_no_data :=
         is_no_data (classify_failure msg dr)
         && (count + 1 >=? max_retries_per_date rm) in
       consecutive_no_data_days st'
         = (if abandoned_no_data then consecutive_no_data_days st + 1
            else consecutive_no_data_days st)
       /\ should_skip st'
         = (if abandoned_no_data
               && (consecutive_no_data_days st + 1
                   >=? max_consecutive_no_data_days rm)
            then true else should_skip st)
       /\ (exists info',
             date_retries st' = <[d := info']> (date_retries st)
             /\ retry_count info' = count + 1
             /\ failure_type info' = Some (classify_failure msg dr)).
Proof.
  unfold record_failure. simpl. rewrite lookup_insert_eq.
  eexists. split; [reflexivity|]. cbv zeta.
  destruct (date_retries (state_or_new rm s) !! d) as [info|]; simpl;
    destruct (is_no_data (classify_failure msg dr)); simpl;
    repeat match goal with
           | |- context [?a >=? ?b] => destruct (a >=? b); simpl
           end;
    repeat split; eauto.
Qed.

(** What [record_success] leaves for its own symbol. *)
Lemma record_success_same rm s d :
  exists st',
    symbol_states (record_success rm s d) !! s = Some st'
    /\ let st := state_or_new rm s in
       consecutive_no_data_days st'
         = (if consecutive_no_data_days st >? 0 then 0
            else consecutive_no_data_days st)
       /\ should_skip st' = should_skip st
       /\ date_retries st' = delete d (date_retries st).
Proof.
  unfold record_success. simpl. rewrite lookup_insert_eq.
  eexists. split; [reflexivity|]. simpl. auto.
Qed.

Lemma state_or_new_lookup rm s st :
  symbol_states rm !! s = Some st -> state_or_new rm s = st.
Proof. unfold state_or_new. by intros ->. Qed.

Lemma state_or_new_fresh rm s :
  symbol_states rm !! s = None -> state_or_new rm s = new_state s.
Proof. unfold state_or_new. by intros ->. Qed.

(** The streak of a symbol is never negative. *)
Definition streak_nonneg (rm : SmartRetryManager) : Prop :=
  forall s st, symbol_states rm !! s = Some st -> 0 <= consecutive_no_data_days st.

Lemma state_or_new_nonneg rm s :
  streak_nonneg rm -> 0 <= consecutive_no_data_days (state_or_new rm s).
Proof.
  intros H. unfold state_or_new.
  destruct (symbol_states rm !! s) eqn:E; [eauto | simpl; lia].
Qed.

Lemma streak_nonneg_init a b : streak_nonneg (init a b).
Proof. intros s st. unfold init. simpl. by rewrite lookup_empty. Qed.

Lemma streak_nonneg_op rm o : streak_nonneg rm -> streak_nonneg (apply_op rm o).
Proof.
  intros H s' st' Hl. pose proof (state_or_new_nonneg rm) as Hn.
  destruct o as [s d msg dr | s d]; cbn [apply_op] in Hl.
  - destruct (decide (s = s')) as [<-|Hne].
    + destruct (record_failure_same rm s d msg dr) as (st & Hst & Hc & _).
      rewrite Hst in Hl. inversion Hl; subst st'. rewrite Hc.
      specialize (Hn s H). destruct (_ && _); lia.
    + rewrite record_failure_other in Hl by done. eauto.
  - destruct (decide (s = s')) as [<-|Hne].
    + destruct (record_success_same rm s d) as (st & Hst & Hc & _).
      rewrite Hst in Hl. inversion Hl; subst st'. rewrite Hc.
      specialize (Hn s H). destruct (_ >? _); lia.
    + rewrite record_success_other in Hl by done. eauto.
Qed.

Lemma streak_nonneg_run a b ops : streak_nonneg (run_ops (init a b) ops).
Proof.
  unfold run_ops.
  apply fold_left_invariant; [apply streak_nonneg_op | apply streak_nonneg_init].
Qed.

Lemma record_success_zeroes rm s d :
  streak_nonneg rm -> no_data_streak (record_success rm s d) s = 0.
Proof.
  intros H. unfold no_data_streak.
  destruct (record_success_same rm s d) as (st & -> & Hc & _).
  rewrite Hc. pose proof (state_or_new_nonneg rm s H).
  destruct (_ >? _) eqn:E; [done|]. lia.
Qed.

(** No call ever clears the latch. *)
Lemma should_skip_latched rm o s :
  should_skip_symbol rm s = true -> should_skip_symbol (apply_op rm o) s = true.
Proof.
  unfold should_skip_symbol. intros H.
  destruct (symbol_states rm !! s) as [st|] eqn:E; [|done].
  destruct o as [s0 d msg dr | s0 d]; cbn [apply_op].
  - destruct (decide (s0 = s)) as [->|Hne].
    + destruct (record_failure_same rm s d msg dr) as (st' & -> & _ & Hk & _).
      rewrite Hk, (state_or_new_lookup _ _ _ E), H. by case_goal_if.
    + rewrite record_failure_other by done. by rewrite E.
  - destruct (decide (s0 = s)) as [->|Hne].
    + destruct (record_success_same rm s d) as (st' & -> & _ & Hk & _).
      by rewrite Hk, (state_or_new_lookup _ _ _ E).
    + rewrite record_success_other by done. by rewrite E.
Qed.

(** A latched symbol has a streak at the limit. *)
Definition latch_justified (rm : SmartRetryManager) : Prop :=
  forall s, should_skip_symbol rm s = true ->
            no_data_streak rm s >= max_consecutive_no_data_days rm.

Lemma apply_op_limits rm o :
  max_consecutive_no_data_days (apply_op rm o) = max_consecutive_no_data_days rm
  /\ max_retries_per_date (apply_op rm o) = max_retries_per_date rm.
Proof. destruct o; split; reflexivity. Qed.

Lemma latch_justified_gated rm o :
  latch_justified rm -> latch_justified (apply_gated rm o).
Proof.
  intros H. unfold apply_gated.
  destruct (should_skip_symbol rm (op_symbol o)) eqn:Hgate; [done|].
  intros s. destruct (apply_op_limits rm o) as [-> _].
  specialize (H s). revert H Hgate. unfold should_skip_symbol, no_data_streak.
  destruct o as [s0 d msg dr | s0 d]; cbn [apply_op op_symbol]; intros H Hgate.
  - destruct (decide (s0 = s)) as [->|Hne].
    + destruct (record_failure_same rm s d msg dr) as (st' & -> & Hc & Hk & _).
      rewrite Hc, Hk. cbv zeta. unfold state_or_new.
      destruct (symbol_states rm !! s) as [st|]; simpl in *;
        match goal with
        | |- context [is_no_data ?x && ?y] => destruct (is_no_data x && y)
        end; simpl; rewrite ?Hgate; try done;
        match goal with
        | |- context [?a >=? ?b] => destruct (Z.geb_spec a b); simpl
        end; rewrite ?Hgate; try done; lia.
    + rewrite record_failure_other by done. done.
  - destruct (decide (s0 = s)) as [->|Hne].
    + destruct (record_success_same rm s d) as (st' & -> & Hc & Hk & _).
      rewrite Hk. unfold state_or_new.
      destruct (symbol_states rm !! s) as [st|]; simpl in *;
        try rewrite Hgate; done.
    + rewrite record_success_other by done. done.
Qed.

Lemma latch_justified_init a b : latch_justified (init a b).
Proof. intros s. unfold should_skip_symbol, init. simpl. by rewrite lookup_empty. Qed.

Lemma latch_justified_run a b ops : latch_justified (run_gated (init a b) ops).
Proof.
  unfold run_gated.
  apply fold_left_invariant; [apply latch_justified_gated | apply latch_justified_init].
Qed.

Lemma run_gated_limit a b ops :
  max_consecutive_no_data_days (run_gated (init a b) ops) = a.
Proof.
  unfold run_gated.
  apply (fold_left_invariant apply_gated
           (fun rm => max_consecutive_no_data_days rm = a)); [|done].
  intros rm o <-. unfold apply_gated. destruct (should_skip_symbol _ _); [done|].
  apply apply_op_limits.
Qed.

End RetryPolicy.

(** ** Sorting *)

Section Sorting.

Context {A : Type} (le : A -> A -> bool).

Lemma insert_by_perm (x : A) (l : list A) : Permutation (insert_by le x l) (x :: l).
Proof.
  induction l as [|y l IH]; simpl; [done|].
  destruct (le x y); [done|]. rewrite IH. apply perm_swap.
Qed.

Lemma sort_by_perm (l : list A) : Permutation (sort_by le l) l.
Proof.
  induction l as [|x l IH]; simpl; [done|].
  rewrite insert_by_perm. by constructor.
Qed.

Hypothesis le_total : forall a b, le a b = true \/ le b a = true.

Lemma insert_by_sorted (x : A) (l : list A) :
  Sorted (fun a b => le a b = true) l ->
  Sorted (fun a b => le a b = true) (insert_by le x l).
Proof.
  induction 1 as [|y l Hs IH Hhd]; simpl; [repeat constructor|].
  destruct (le x y) eqn:E.
  - repeat constructor; auto.
  - constructor; [done|].
    destruct l as [|z l]; simpl in *.
    + constructor. destruct (le_total x y); congruence.
    + destruct (le x z); constructor.
      * destruct (le_total x y); congruence.
      * by inversion Hhd.
Qed.

Lemma sort_by_sorted (l : list A) : Sorted (fun a b => le a b = true) (sort_by le l).
Proof.
  induction l as [|x l IH]; simpl; [constructor|]. by apply insert_by_sorted.
Qed.

End Sorting.

(** An ascending list without repeats, sorted newest first, is reversed. *)
Lemma insert_below (x : Z) (l : list Z) :
  Forall (fun y => x < y) l -> insert_by DateProcessor.date_ge x l = l ++ [x].
Proof.
  induction 1 as [|y l Hy _ IH]; simpl; [done|].
  unfold DateProcessor.date_ge at 1.
  destruct (Z.geb_spec x y); [lia|]. by rewrite IH.
Qed.

Lemma sort_descending_rev (l : list Z) :
  StronglySorted Z.lt l -> sort_by DateProcessor.date_ge l = rev l.
Proof.
  induction 1 as [|x l Hs IH Hx]; simpl; [done|].
  rewrite IH. apply insert_below.
  rewrite Forall_forall in *. intros y Hy. apply Hx.
  apply list_elem_of_In, in_rev, list_elem_of_In, Hy.
Qed.

Lemma StronglySorted_snoc {A : Type} (R : A -> A -> Prop) (l : list A) (x : A) :
  StronglySorted R l -> Forall (fun y => R y x) l -> StronglySorted R (l ++ [x]).
Proof.
  induction 1 as [|y l Hs IH Hy]; intros Hall; simpl.
  - repeat constructor.
  - inversion Hall; subst. constructor; [auto|].
    apply Forall_app. split; [done|]. by constructor.
Qed.

Lemma StronglySorted_rev {A : Type} (R : A -> A -> Prop) (l : list A) :
  StronglySorted R l -> StronglySorted (fun a b => R b a) (rev l).
Proof.
  induction 1 as [|x l Hs IH Hx]; simpl; [constructor|].
  apply StronglySorted_snoc; [done|].
  rewrite Forall_forall in *. intros y Hy. apply Hx.
  apply list_elem_of_In, in_rev, list_elem_of_In, Hy.
Qed.

Lemma StronglySorted_filter_Z (P : Z -> Prop) `{!forall x, Decision (P x)}
    (R : Z -> Z -> Prop) (l : list Z) :
  StronglySorted R l -> StronglySorted R (filter P l).
Proof.
  induction 1 as [|x l Hs IH Hx]; [constructor|].
  rewrite filter_cons. case_decide; [|done].
  constructor; [done|]. rewrite Forall_forall in *. intros y Hy.
  apply list_elem_of_filter in Hy as [_ Hy]. auto.
Qed.

Lemma StronglySorted_map_midnight (R : Z -> Z -> Prop) (R' : Z -> Z -> Prop)
    (l : list Z) :
  (forall a b, R a b -> R' (midnight a) (midnight b)) ->
  StronglySorted R l -> StronglySorted R' (map midnight l).
Proof.
  intros HR. induction 1 as [|x l Hs IH Hx]; simpl; constructor; [done|].
  rewrite Forall_forall in *. intros y Hy.
  apply list_elem_of_In, in_map_iff in Hy as (z & <- & Hz).
  apply HR, Hx, list_elem_of_In, Hz.
Qed.

(** ** The market calendar and the planner *)

Section Planner.

Import MarketCalendar BarStatus.

Local Abbreviation remaining_dates := DateProcessor.remaining_dates.

Lemma seq_map_sorted (f : nat -> Z) (n s : nat) :
  (forall i j, (i < j)%nat -> f i < f j) ->
  StronglySorted Z.lt (map f (seq s n)).
Proof.
  intros Hf. revert s. induction n as [|n IH]; intros s; simpl; constructor; [auto|].
  rewrite Forall_forall. intros y Hy.
  apply list_elem_of_In, in_map_iff in Hy as (j & <- & Hj).
  apply in_seq in Hj. apply Hf. lia.
Qed.

Lemma day_range_sorted (a b : Z) : StronglySorted Z.lt (day_range a b).
Proof. unfold day_range. apply seq_map_sorted. intros. lia. Qed.

Lemma day_range_elem (a b d : Z) : d ∈ day_range a b <-> a <= d <= b.
Proof.
  unfold day_range. rewrite list_elem_of_In, in_map_iff. split.
  - intros (i & <- & Hi). apply in_seq in Hi. lia.
  - intros Hd. exists (Z.to_nat (d - a)). split; [lia|]. apply in_seq. lia.
Qed.

Lemma trading_dates_sorted cal a b : StronglySorted Z.lt (get_trading_dates cal a b).
Proof.
  unfold get_trading_dates.
  destruct (market_calendar cal); apply StronglySorted_filter_Z, day_range_sorted.
Qed.

(** The trading dates are the days of the range on which the calendar has a
    session (Monday to Friday, for the calendar that failed to load). *)
Lemma trading_dates_elem cal a b d :
  d ∈ get_trading_dates cal a b
  <-> a <= d <= b
      /\ match market_calendar cal with
         | Some schedule => has_session schedule d = true
         | None => is_business_day d = true
         end.
Proof.
  unfold get_trading_dates.
  destruct (market_calendar cal); rewrite list_elem_of_filter, day_range_elem; tauto.
Qed.

(** [get_completed_dates] holds the days of the COMPLETE and EARLY_CLOSE rows. *)
Lemma completed_dates_elem ledger symbol d :
  d ∈ get_completed_dates ledger symbol
  <-> exists r, r ∈ load_bar_status ledger symbol
                /\ date_of (date r) = d
                /\ (status r = COMPLETE \/ status r = EARLY_CLOSE).
Proof.
  unfold get_completed_dates.
  rewrite elem_of_list_to_set, list_elem_of_In, in_map_iff. split.
  - intros (r & <- & Hr). apply list_elem_of_In, list_elem_of_filter in Hr as [Hc Hr].
    exists r. repeat split; [done|]. destruct (status r); simpl in Hc; auto; done.
  - intros (r & Hr & <- & Hs). exists r. split; [done|].
    apply list_elem_of_In, list_elem_of_filter. split; [|done].
    by destruct Hs as [-> | ->].
Qed.

Lemma remaining_dates_rev cal ledger symbol earliest now :
  remaining_dates cal ledger symbol earliest now
  = rev (map midnight
           (filter (fun d => d ∉ get_completed_dates ledger symbol)
              (get_trading_dates cal (date_of earliest) (date_of now - 1)))).
Proof.
  unfold remaining_dates. apply sort_descending_rev.
  apply (StronglySorted_map_midnight Z.lt); [intros a b; apply midnight_lt|].
  apply StronglySorted_filter_Z, trading_dates_sorted.
Qed.

Lemma remaining_dates_sorted cal ledger symbol earliest now :
  StronglySorted (fun a b => b < a) (remaining_dates cal ledger symbol earliest now).
Proof.
  rewrite remaining_dates_rev.
  apply (StronglySorted_rev Z.lt (map midnight _)).
  - apply (StronglySorted_map_midnight Z.lt); [intros a b; apply midnight_lt|].
    apply StronglySorted_filter_Z, trading_dates_sorted.
Qed.

Lemma remaining_dates_elem cal ledger symbol earliest now dt :
  dt ∈ remaining_dates cal ledger symbol earliest now
  <-> exists d, dt = midnight d
                /\ d ∈ get_trading_dates cal (date_of earliest) (date_of now - 1)
                /\ d ∉ get_completed_dates ledger symbol.
Proof.
  rewrite remaining_dates_rev, list_elem_of_In, <- in_rev, in_map_iff.
  split.
  - intros (d & <- & Hd). apply list_elem_of_In, list_elem_of_filter in Hd as [? ?].
    by exists d.
  - intros (d & -> & ? & ?). exists d. split; [done|].
    by apply list_elem_of_In, list_elem_of_filter.
Qed.

Lemma remaining_dates_none cal ledger symbol earliest now :
  (forall d, d ∈ get_trading_dates cal (date_of earliest) (date_of now - 1) ->
             d ∈ get_completed_dates ledger symbol) ->
  remaining_dates cal ledger symbol earliest now = [].
Proof.
  intros Hall.
  destruct (remaining_dates cal ledger symbol earliest now) as [|dt l] eqn:E; [done|].
  assert (dt ∈ remaining_dates cal ledger symbol earliest now) as Hin
    by (rewrite E; left).
  apply remaining_dates_elem in Hin as (d & _ & Hd & Hn). destruct Hn. auto.
Qed.

End Planner.

(** ** The ledger *)

Section Ledger.

Import BarStatus.

Local Abbreviation day r := (date_of (date r)).

Lemma of_value_value (s : BarStatus) : of_value (value s) = Some s.
Proof. by destruct s. Qed.

Lemma from_dict_to_dict (r : BarStatusRecord) : from_dict (to_dict r) = Some (reloaded r).
Proof.
  unfold from_dict, to_dict, reloaded. simpl. rewrite of_value_value.
  by destruct (error_message r).
Qed.

Lemma load_written (l : list BarStatusRecord) :
  omap from_dict (map to_dict l) = map reloaded l.
Proof.
  induction l as [|r l IH]; simpl; [done|].
  rewrite from_dict_to_dict. f_equal. exact IH.
Qed.

Lemma day_reloaded (r : BarStatusRecord) : day (reloaded r) = day r.
Proof. unfold reloaded. simpl. apply date_of_midnight. Qed.

Lemma reloaded_idem (r : BarStatusRecord) : reloaded (reloaded r) = reloaded r.
Proof.
  unfold reloaded. simpl. rewrite date_of_midnight. f_equal.
  destruct (error_message r) as [m|]; [|done].
  destruct (String.eqb m "") eqn:E; [done|]. by rewrite E.
Qed.

Lemma reloaded_canonical (r : BarStatusRecord) :
  date r = midnight (day r) -> error_message r <> Some "" -> reloaded r = r.
Proof.
  intros Hd He. destruct r as [dt st eb ab lt em rc]. unfold reloaded. simpl in *.
  rewrite <- Hd. f_equal. destruct em as [m|]; [|done].
  destruct (String.eqb_spec m ""); [congruence | done].
Qed.

(** The list [update_bar_status] sorts: the record replaces the first record
    of its day, or goes to the end. *)
Definition upserted (record : BarStatusRecord) (l : list BarStatusRecord)
  : list BarStatusRecord :=
  if snd (replace_first record l) then fst (replace_first record l)
  else fst (replace_first record l) ++ [record].

Lemma load_update files symbol record :
  load_bar_status (update_bar_status files symbol record) symbol
  = map reloaded (sort_by date_le (upserted record (load_bar_status files symbol))).
Proof.
  unfold update_bar_status, upserted.
  destruct (replace_first record (load_bar_status files symbol)) as [l u].
  unfold load_bar_status at 1. rewrite lookup_insert_eq. cbn [fst snd].
  apply load_written.
Qed.

Lemma load_update_other files symbol record symbol' :
  symbol <> symbol' ->
  load_bar_status (update_bar_status files symbol record) symbol'
  = load_bar_status files symbol'.
Proof.
  intros Hne. unfold update_bar_status.
  destruct (replace_first record (load_bar_status files symbol)) as [l u].
  unfold load_bar_status. by rewrite lookup_insert_ne.
Qed.

(** [replace_first] on a list that has no record of the day, and on one
    that has. *)
Lemma replace_first_absent record l :
  Forall (fun r => day r <> day record) l -> replace_first record l = (l, false).
Proof.
  induction 1 as [|r l Hr _ IH]; simpl; [done|].
  destruct (Z.eqb_spec (day r) (day record)); [done|]. by rewrite IH.
Qed.

Lemma upserted_find record l d :
  List.find (on_day d) (upserted record l)
  = if day record =? d then Some record else List.find (on_day d) l.
Proof.
  unfold upserted. induction l as [|r l IH]; simpl.
  - unfold on_day. by destruct (day record =? d).
  - destruct (Z.eqb_spec (day r) (day record)) as [E|E]; simpl.
    + unfold on_day at 1 3. rewrite E. by destruct (day record =? d).
    + destruct (replace_first record l) as [l' u]. simpl in *.
      unfold on_day at 1 3.
      destruct u; simpl; unfold on_day at 1;
        destruct (Z.eqb_spec (day r) d) as [E'|E']; try done;
        destruct (Z.eqb_spec (day record) d); try done; congruence.
Qed.

Lemma upserted_days record l d :
  In d (map (fun r => day r) (upserted record l))
  <-> d = day record \/ In d (map (fun r => day r) l).
Proof.
  unfold upserted. induction l as [|r l IH]; simpl.
  - intuition.
  - destruct (Z.eqb_spec (day r) (day record)) as [E|E]; simpl.
    + rewrite E. intuition.
    + destruct (replace_first record l) as [l' u]. simpl in *.
      destruct u; simpl in *; rewrite IH; intuition.
Qed.

Lemma upserted_nodup record l :
  NoDup (map (fun r => day r) l) ->
  NoDup (map (fun r => day r) (upserted record l)).
Proof.
  unfold upserted. induction l as [|r l IH]; simpl; intros Hnd.
  - repeat constructor. intros H. inversion H.
  - apply NoDup_cons in Hnd as [Hr Hnd].
    destruct (Z.eqb_spec (day r) (day record)) as [E|E]; simpl.
    + apply NoDup_cons. split; [|done]. by rewrite <- E.
    + specialize (IH Hnd).
      pose proof (upserted_days record l (day r)) as Hd. unfold upserted in Hd.
      destruct (replace_first record l) as [l' u]. simpl in *.
      destruct u; simpl in *; (apply NoDup_cons; split; [|done]);
        intros Hin; apply Hr, list_elem_of_In; apply list_elem_of_In in Hin;
        apply Hd in Hin as [?|?]; congruence || done.
Qed.

Lemma find_absent (d : Z) (l : list BarStatusRecord) :
  (forall r, In r l -> on_day d r = false) -> List.find (on_day d) l = None.
Proof.
  induction l as [|r l IH]; simpl; intros H; [done|].
  rewrite (H r) by auto. auto.
Qed.

Lemma find_unique (l : list BarStatusRecord) (r : BarStatusRecord) :
  NoDup (map (fun r => day r) l) -> In r l -> List.find (on_day (day r)) l = Some r.
Proof.
  induction l as [|x l IH]; simpl; intros Hnd Hin; [done|].
  apply NoDup_cons in Hnd as [Hx Hnd]. unfold on_day at 1.
  destruct Hin as [->|Hin].
  - by rewrite Z.eqb_refl.
  - destruct (Z.eqb_spec (day x) (day r)) as [E|E]; [|auto].
    destruct Hx. rewrite E. apply list_elem_of_In, in_map_iff. eauto.
Qed.

Lemma find_permutation (l l' : list BarStatusRecord) (d : Z) :
  NoDup (map (fun r => day r) l) -> Permutation l l' ->
  List.find (on_day d) l' = List.find (on_day d) l.
Proof.
  intros Hnd Hp.
  assert (NoDup (map (fun r => day r) l')) as Hnd'.
  { by rewrite <- (Permutation_map (fun r => day r) Hp). }
  destruct (List.find (on_day d) l) as [r|] eqn:E.
  - apply find_some in E as [Hin Hd]. unfold on_day in Hd. apply Z.eqb_eq in Hd.
    subst d. apply find_unique; [done|]. by eapply Permutation_in.
  - apply find_absent. intros r Hr.
    eapply find_none in E; [done|]. eapply Permutation_in; [|done]. by symmetry.
Qed.

Lemma find_reloaded (l : list BarStatusRecord) (d : Z) :
  List.find (on_day d) (map reloaded l) = option_map reloaded (List.find (on_day d) l).
Proof.
  induction l as [|r l IH]; simpl; [done|].
  unfold on_day at 1 3. rewrite day_reloaded. by destruct (day r =? d).
Qed.

Lemma date_of_mono (a b : Z) : a <= b -> date_of a <= date_of b.
Proof. unfold date_of, ms_per_day. intros. apply Z.div_le_mono; lia. Qed.

Lemma date_le_total (a b : BarStatusRecord) : date_le a b = true \/ date_le b a = true.
Proof. unfold date_le. lia. Qed.

(** Records in the order of their timestamps and of different days are in
    the order of their days. *)
Lemma sorted_days (l : list BarStatusRecord) :
  Sorted (fun a b => date_le a b = true) l ->
  NoDup (map (fun r => day r) l) ->
  StronglySorted (fun a b => day a < day b) l.
Proof.
  intros Hs Hnd. apply Sorted_StronglySorted in Hs.
  - induction Hs as [|r l Hs IH Hr]; simpl in *; constructor.
    + apply IH. by apply NoDup_cons in Hnd as [_ ?].
    + apply NoDup_cons in Hnd as [Hnr _].
      rewrite Forall_forall in *. intros x Hx.
      specialize (Hr x Hx). unfold date_le in Hr.
      assert (day r <= day x) by (apply date_of_mono; lia).
      assert (day r <> day x); [|lia].
      intros E. apply Hnr. rewrite E.
      apply list_elem_of_In, (in_map (fun r => day r)). by apply list_elem_of_In.
  - intros a b c. unfold date_le. lia.
Qed.

Lemma sorted_reloaded (l : list BarStatusRecord) :
  StronglySorted (fun a b => day a < day b) l ->
  StronglySorted (fun a b => date a < date b) (map reloaded l).
Proof.
  induction 1 as [|r l Hs IH Hr]; simpl; constructor; [done|].
  rewrite Forall_forall in *. intros x Hx.
  apply list_elem_of_In, in_map_iff in Hx as (y & <- & Hy).
  simpl. apply (proj1 (midnight_lt (day r) (day y))), Hr, list_elem_of_In, Hy.
Qed.

Lemma map_day_reloaded (l : list BarStatusRecord) :
  map (fun r => day r) (map reloaded l) = map (fun r => day r) l.
Proof.
  rewrite map_map. apply map_ext. intros r. apply day_reloaded.
Qed.

(** One upsert, seen through [load_bar_status]. *)
Lemma upsert_step files symbol record :
  NoDup (map (fun r => day r) (load_bar_status files symbol)) ->
  let after := load_bar_status (update_bar_status files symbol record) symbol in
  StronglySorted (fun a b => date a < date b) after
  /\ NoDup (map (fun r => day r) after)
  /\ forall d,
       List.find (on_day d) after
       = if day record =? d then Some (reloaded record)
         else option_map reloaded
                (List.find (on_day d) (load_bar_status files symbol)).
Proof.
  intros Hnd after. subst after. rewrite load_update.
  set (U := upserted record (load_bar_status files symbol)).
  assert (NoDup (map (fun r => day r) U)) as HU by by apply upserted_nodup.
  pose proof (sort_by_perm date_le U) as Hp.
  assert (NoDup (map (fun r => day r) (sort_by date_le U))) as HS.
  { by rewrite (Permutation_map (fun r => day r) Hp). }
  split; [|split].
  - apply sorted_reloaded, sorted_days; [|done].
    apply sort_by_sorted, date_le_total.
  - by rewrite map_day_reloaded.
  - intros d. rewrite find_reloaded.
    rewrite (find_permutation U) by (done || by symmetry).
    unfold U. rewrite upserted_find. by destruct (day record =? d).
Qed.

(** The ledger after a sequence of upserts. *)
Lemma upsert_all_invariant symbol records :
  let loaded := load_bar_status (upsert_all symbol records) symbol in
  StronglySorted (fun a b => date a < date b) loaded
  /\ NoDup (map (fun r => day r) loaded)
  /\ forall d,
       List.find (on_day d) loaded
       = option_map reloaded (last_upserted records d).
Proof.
  cbv zeta. induction records as [|r records IH] using rev_ind.
  - unfold upsert_all, load_bar_status. simpl. rewrite lookup_empty.
    repeat split; constructor.
  - destruct IH as (_ & Hnd & Hfind).
    unfold upsert_all in *. rewrite fold_left_app. simpl.
    destruct (upsert_step (fold_left
                             (fun files r => update_bar_status files symbol r)
                             records ∅) symbol r Hnd) as (Hs & Hn & Hf).
    refine (conj Hs (conj Hn _)).
    intros d. rewrite Hf, Hfind. unfold last_upserted.
    rewrite rev_app_distr. simpl. unfold on_day at 2.
    destruct (day r =? d); [done|].
    destruct (List.find (on_day d) (rev records)); simpl; [|done].
    by rewrite reloaded_idem.
Qed.

End Ledger.

(** ** The scheduler and the retry policy *)

Section SchedulerRetry.

Import SmartRetry FetcherJob.

Local Arguments DateProcessor.process_date : simpl never.
Local Arguments DateProcessor.get_dates_to_process : simpl never.
Local Arguments record_failure : simpl never.
Local Arguments record_success : simpl never.

Lemma await_retry_manager job sym date ev st :
  retry_manager (snd (await_process_date job sym date ev st)) = retry_manager st.
Proof.
  unfold await_process_date. destruct (attempt ev); try done.
  by destruct (DateProcessor.process_date _ _ _ _ _).
Qed.

(** A property of the retry manager that every call the date loop can make
    preserves: the loop records a success or a failure only for a symbol
    that is not latched and a date that can still be retried, and a failure
    always with [data_received = False]. *)
Variable I : SmartRetryManager -> Prop.

Hypothesis I_success : forall rm sym d,
  should_skip_symbol rm sym = false -> can_retry_date rm sym d = true ->
  I rm -> I (record_success rm sym d).

Hypothesis I_failure : forall rm sym d msg,
  should_skip_symbol rm sym = false -> can_retry_date rm sym d = true ->
  I rm -> I (fst (record_failure rm sym d msg false)).

Lemma process_dates_retry job sym dates :
  forall p st, I (retry_manager st) ->
               I (retry_manager (snd (process_dates job sym dates p st))).
Proof.
  induction dates as [|date rest IH]; intros p st HI; [done|].
  cbn [process_dates].
  set (ev := events job (turn st)).
  set (st1 := signal (signal_before ev) (next_turn st)).
  assert (I (retry_manager st1)) as H1 by done.
  clearbody st1 ev. clear HI.
  destruct (shutdown_requested st1); [done|].
  destruct (should_skip_symbol (retry_manager st1) sym) eqn:Hskip; [done|].
  destruct (can_retry_date (retry_manager st1) sym (date_of date)) eqn:Hcan;
    cbn [negb]; [|by apply IH].
  pose proof (await_retry_manager job sym date ev (signal (signal_at_call ev) st1))
    as E2.
  destruct (await_process_date job sym date ev (signal (signal_at_call ev) st1))
    as [[[success msg]|] st2]; cbn [snd] in E2;
    change (retry_manager (signal (signal_at_call ev) st1)) with (retry_manager st1)
      in E2; [|cbn [snd]; by rewrite E2].
  unfold record_date_failure.
  change (retry_manager (signal (signal_during ev) st2)) with (retry_manager st2).
  rewrite E2.
  destruct success;
    match goal with |- context [shutdown_requested ?s] =>
      destruct (shutdown_requested s)
    end; cbn [snd retry_manager set_retry_manager]; try apply IH;
    cbn [snd retry_manager set_retry_manager];
    by (apply I_success || apply I_failure).
Qed.

Lemma _process_symbol_retry job sym st :
  I (retry_manager st) -> I (retry_manager (snd (_process_symbol job sym st))).
Proof.
  intros HI. unfold _process_symbol.
  destruct (should_skip_symbol (retry_manager st) sym); [done|].
  destruct (DateProcessor.get_dates_to_process _ _ _) as [dates w].
  destruct dates as [|date rest]; [done|].
  pose proof (process_dates_retry job sym (date :: rest)
                (mkProgress sym (Z.of_nat (length (date :: rest))) 0 0 None RUNNING)
                (set_world w st) HI) as H.
  by destruct (process_dates _ _ _ _ _).
Qed.

Lemma process_symbols_retry job symbols :
  forall st, I (retry_manager st) ->
             I (retry_manager (process_symbols job symbols st)).
Proof.
  induction symbols as [|sym rest IH]; intros st HI; [done|].
  cbn [process_symbols].
  set (ev := events job (turn st)).
  set (st1 := signal (signal_before ev) (next_turn st)).
  assert (I (retry_manager st1)) as H1 by done.
  destruct (shutdown_requested st1); [done|].
  destruct (should_skip_symbol (retry_manager st1) sym); [by apply IH|].
  pose proof (_process_symbol_retry job sym st1 H1) as H2.
  destruct (_process_symbol job sym st1) as [[? ?] st2]. cbn [snd] in H2.
  match goal with |- context [if ?c then _ else _] => destruct c end; [done|].
  by apply IH.
Qed.

Lemma start_jobs_retry job symbols st :
  I (retry_manager st) -> I (retry_manager (start_jobs job symbols st)).
Proof. intros HI. unfold start_jobs. by apply process_symbols_retry. Qed.

End SchedulerRetry.

(** ** Invariants of the retry policy under the scheduler *)

Section RetryInvariants.

Import SmartRetry.

(** No stored retry count exceeds [bound]. *)
Definition retry_counts_within (bound : Z) (rm : SmartRetryManager) : Prop :=
  forall s d info, get_retry_info rm s d = Some info -> retry_count info <= bound.

(** Every stored failure is classified NO_DATA. *)
Definition failures_all_no_data (rm : SmartRetryManager) : Prop :=
  forall s d info, get_retry_info rm s d = Some info ->
                   failure_type info = Some NO_DATA.

Definition retry_bounded (rm : SmartRetryManager) : Prop :=
  retry_counts_within (Z.max 1 (max_retries_per_date rm)) rm.

Lemma get_retry_info_failure rm s d msg dr s' d' :
  get_retry_info (fst (record_failure rm s d msg dr)) s' d'
  = if decide (s = s' /\ d = d')
    then Some (mkDateRetryInfo
                 (match get_retry_info rm s d with
                  | Some i => dri_date i | None => d end)
                 (match get_retry_info rm s d with
                  | Some i => dri_symbol i | None => s end)
                 (match get_retry_info rm s d with
                  | Some i => retry_count i | None => 0 end + 1)
                 (Some (classify_failure msg dr)) msg)
    else get_retry_info rm s' d'.
Proof.
  unfold get_retry_info, record_failure. cbn [fst set_state symbol_states].
  destruct (decide (s = s')) as [<-|Hs].
  - rewrite lookup_insert_eq. unfold state_or_new.
    destruct (symbol_states rm !! s) as [st|] eqn:E; cbn [date_retries new_state].
    + destruct (decide (d = d')) as [<-|Hd].
      * rewrite decide_True by done.
        destruct (date_retries st !! d) as [i|] eqn:Ei;
          repeat case_match; simpl; by rewrite lookup_insert_eq.
      * rewrite decide_False by tauto.
        repeat case_match; simpl; by rewrite lookup_insert_ne.
    + rewrite lookup_empty.
      destruct (decide (d = d')) as [<-|Hd].
      * rewrite decide_True by done.
        repeat case_match; simpl; by rewrite lookup_insert_eq.
      * rewrite decide_False by tauto.
        repeat case_match; simpl; by rewrite lookup_insert_ne, lookup_empty.
  - rewrite lookup_insert_ne by done. rewrite decide_False by tauto. done.
Qed.

Lemma get_retry_info_success rm s d s' d' info :
  get_retry_info (record_success rm s d) s' d' = Some info ->
  get_retry_info rm s' d' = Some info.
Proof.
  unfold get_retry_info, record_success. cbn [set_state symbol_states].
  destruct (decide (s = s')) as [<-|Hs].
  - rewrite lookup_insert_eq. cbn [date_retries]. unfold state_or_new.
    destruct (symbol_states rm !! s) as [st|]; cbn [date_retries new_state].
    + intros H. by apply lookup_delete_Some in H as [_ H].
    + intros H. apply lookup_delete_Some in H as [_ H]. by rewrite lookup_empty in H.
  - by rewrite lookup_insert_ne.
Qed.

Lemma can_retry_date_info rm s d :
  can_retry_date rm s d
  = match get_retry_info rm s d with
    | Some info => retry_count info <? max_retries_per_date rm
    | None => true
    end.
Proof.
  unfold can_retry_date, get_retry_info, can_retry.
  by destruct (symbol_states rm !! s).
Qed.

Lemma retry_bounded_success rm sym d :
  retry_bounded rm -> retry_bounded (record_success rm sym d).
Proof.
  intros H s' d' info Hi. apply get_retry_info_success in Hi.
  exact (H s' d' info Hi).
Qed.

Lemma retry_bounded_failure rm sym d msg dr :
  can_retry_date rm sym d = true ->
  retry_bounded rm -> retry_bounded (fst (record_failure rm sym d msg dr)).
Proof.
  intros Hcan H s' d' info. unfold retry_bounded. cbn [max_retries_per_date fst].
  destruct (record_failure_limits rm sym d msg dr) as [_ ->].
  rewrite get_retry_info_failure. case_decide as Hsd.
  - destruct Hsd as [<- <-]. intros [= <-]. cbn [retry_count].
    rewrite can_retry_date_info in Hcan.
    destruct (get_retry_info rm sym d); [|lia]. apply Z.ltb_lt in Hcan. lia.
  - apply H.
Qed.

Lemma all_no_data_success rm sym d :
  failures_all_no_data rm -> failures_all_no_data (record_success rm sym d).
Proof.
  intros H s' d' info Hi. apply get_retry_info_success in Hi.
  exact (H s' d' info Hi).
Qed.

Lemma all_no_data_failure rm sym d msg :
  failures_all_no_data rm ->
  failures_all_no_data (fst (record_failure rm sym d msg false)).
Proof.
  intros H s' d' info. rewrite get_retry_info_failure. case_decide as Hsd.
  - by intros [= <-].
  - apply H.
Qed.

Lemma latch_justified_success rm sym d :
  should_skip_symbol rm sym = false ->
  latch_justified rm -> latch_justified (record_success rm sym d).
Proof.
  intros Hgate H.
  pose proof (latch_justified_gated rm (RecordSuccess sym d) H) as Hg.
  unfold apply_gated in Hg. cbn [op_symbol apply_op] in Hg. by rewrite Hgate in Hg.
Qed.

Lemma latch_justified_failure rm sym d msg dr :
  should_skip_symbol rm sym = false ->
  latch_justified rm -> latch_justified (fst (record_failure rm sym d msg dr)).
Proof.
  intros Hgate H.
  pose proof (latch_justified_gated rm (RecordFailure sym d msg dr) H) as Hg.
  unfold apply_gated in Hg. cbn [op_symbol apply_op] in Hg. by rewrite Hgate in Hg.
Qed.

Lemma init_no_info a b s d : get_retry_info (init a b) s d = None.
Proof. unfold get_retry_info, init. simpl. by rewrite lookup_empty. Qed.

(** The three invariants hold of every state the scheduler reaches. *)
Lemma scheduler_retry_bounded job symbols st :
  retry_bounded (FetcherJob.retry_manager st) ->
  retry_bounded (FetcherJob.retry_manager (FetcherJob.start_jobs job symbols st)).
Proof.
  apply start_jobs_retry.
  - intros. by apply retry_bounded_success.
  - intros. by apply retry_bounded_failure.
Qed.

Lemma scheduler_all_no_data job symbols st :
  failures_all_no_data (FetcherJob.retry_manager st) ->
  failures_all_no_data
    (FetcherJob.retry_manager (FetcherJob.start_jobs job symbols st)).
Proof.
  apply start_jobs_retry.
  - intros. by apply all_no_data_success.
  - intros. by apply all_no_data_failure.
Qed.

Lemma scheduler_latch_justified job symbols st :
  latch_justified (FetcherJob.retry_manager st) ->
  latch_justified (FetcherJob.retry_manager (FetcherJob.start_jobs job symbols st)).
Proof.
  apply start_jobs_retry.
  - intros. by apply latch_justified_success.
  - intros. by apply latch_justified_failure.
Qed.

Lemma scheduler_limits job symbols st :
  max_consecutive_no_data_days
    (FetcherJob.retry_manager (FetcherJob.start_jobs job symbols st))
    = max_consecutive_no_data_days (FetcherJob.retry_manager st)
  /\ max_retries_per_date
       (FetcherJob.retry_manager (FetcherJob.start_jobs job symbols st))
     = max_retries_per_date (FetcherJob.retry_manager st).
Proof.
  apply (start_jobs_retry
           (fun rm =>
              max_consecutive_no_data_days rm
                = max_consecutive_no_data_days (FetcherJob.retry_manager st)
              /\ max_retries_per_date rm
                 = max_retries_per_date (FetcherJob.retry_manager st)));
    [intros; done | intros; done | done].
Qed.

End RetryInvariants.

(** ** The scheduler and the ledger *)

Section StableSort.

Context {A : Type} (le : A -> A -> bool) (P : A -> Prop) `{!forall x, Decision (P x)}.

(** The sort is stable: it keeps the order of the elements that satisfy [P]
    when these are pairwise in order already. *)
Lemma insert_by_filter (x : A) (l : list A) :
  (forall y, y ∈ l -> P x -> P y -> le x y = true) ->
  filter P (insert_by le x l) = filter P (x :: l).
Proof.
  induction l as [|y l IH]; intros Hle; simpl; [done|].
  destruct (le x y) eqn:E; [done|].
  rewrite filter_cons, IH by (intros; apply Hle; [by right|done..]).
  rewrite !filter_cons.
  destruct (decide (P x)) as [Hx|Hx]; destruct (decide (P y)) as [Hy|Hy]; try done.
  rewrite Hle in E; [done|by left|done..].
Qed.

Lemma sort_by_filter (l : list A) :
  (forall x y, x ∈ l -> y ∈ l -> P x -> P y -> le x y = true) ->
  filter P (sort_by le l) = filter P l.
Proof.
  induction l as [|x l IH]; intros Hle; simpl; [done|].
  rewrite insert_by_filter.
  - rewrite !filter_cons, IH; [done|].
    intros a b Ha Hb. apply Hle; by right.
  - intros y Hy. apply Hle; [by left|].
    right. by rewrite <- (sort_by_perm le l).
Qed.

End StableSort.

Section SchedulerLedger.

Import BarStatus DateProcessor.

Local Abbreviation day r := (date_of (date r)).

(** A write keeps the rows of every day that was COMPLETE or EARLY_CLOSE
    before it as they were. *)
Definition keeps_completed (lw : LedgerWrite) : Prop :=
  forall s d,
    (exists st, In st (statuses_on (lw_before lw) s d) /\ is_completed st = true) ->
    statuses_on (lw_after lw) s d = statuses_on (lw_before lw) s d.

Lemma loaded_midnight ledger s r :
  r ∈ load_bar_status ledger s -> date r = midnight (day r).
Proof.
  unfold load_bar_status. destruct (ledger !! s) as [rows|]; [|by intros ?%elem_of_nil].
  intros (row & _ & Hrow)%list_elem_of_omap. unfold from_dict in Hrow.
  destruct (of_value (csv_status row)); [|done].
  injection Hrow as <-. simpl. by rewrite date_of_midnight.
Qed.

Lemma upserted_filter_other record l d :
  d <> day record ->
  filter (fun r => day r = d) (upserted record l) = filter (fun r => day r = d) l.
Proof.
  intros Hd. unfold upserted. induction l as [|r l IH]; simpl.
  - by rewrite filter_cons_False.
  - destruct (Z.eqb_spec (day r) (day record)) as [E|E]; simpl.
    + rewrite !filter_cons. rewrite E.
      destruct (decide (day record = d)); [congruence|done].
    + destruct (replace_first record l) as [l' u]. simpl in *.
      destruct u; simpl in *; rewrite !filter_cons; by rewrite IH.
Qed.

Lemma upserted_elem record l x : x ∈ upserted record l -> x = record \/ x ∈ l.
Proof.
  unfold upserted. induction l as [|r l IH]; simpl.
  - intros ?%list_elem_of_singleton. by left.
  - destruct (Z.eqb_spec (day r) (day record)) as [E|E]; simpl.
    + intros [->|?]%elem_of_cons; [by left|right; by right].
    + destruct (replace_first record l) as [l' u]. simpl in *.
      destruct u; simpl in *; intros [->|H]%elem_of_cons;
        try (right; by left); destruct (IH H); auto; right; by right.
Qed.

Lemma filter_day_reloaded (l : list BarStatusRecord) d :
  filter (fun r => day r = d) (map reloaded l)
  = map reloaded (filter (fun r => day r = d) l).
Proof.
  induction l as [|r l IH]; simpl; [done|].
  rewrite !filter_cons, day_reloaded, IH. by destruct (decide (day r = d)).
Qed.

Lemma map_status_reloaded (l : list BarStatusRecord) :
  map status (map reloaded l) = map status l.
Proof. rewrite map_map. by apply map_ext. Qed.

(** A write changes the rows of its own symbol and day only. *)
Lemma statuses_on_update_other ledger s record s' d' :
  (s', d') <> (s, day record) ->
  statuses_on (update_bar_status ledger s record) s' d' = statuses_on ledger s' d'.
Proof.
  intros Hne. unfold statuses_on.
  destruct (decide (s = s')) as [<-|Hs]; [|by rewrite load_update_other].
  assert (d' <> day record) as Hd by congruence.
  rewrite load_update, filter_day_reloaded, map_status_reloaded.
  rewrite sort_by_filter, upserted_filter_other; [done..|].
  intros x y [->|Hx]%upserted_elem [->|Hy]%upserted_elem Dx Dy; try done.
  unfold date_le. apply loaded_midnight in Hx, Hy. rewrite Hx, Hy, Dx, Dy. lia.
Qed.

Lemma completed_dates_statuses ledger s d :
  d ∈ get_completed_dates ledger s
  <-> exists st, In st (statuses_on ledger s d) /\ is_completed st = true.
Proof.
  rewrite completed_dates_elem. unfold statuses_on. split.
  - intros (r & Hr & Hd & Hs). exists (status r). split.
    + apply in_map, list_elem_of_In, list_elem_of_filter. done.
    + by destruct Hs as [-> | ->].
  - intros (st & Hin & Hc). apply in_map_iff in Hin as (r & <- & Hr).
    apply list_elem_of_In, list_elem_of_filter in Hr as [Hd Hr].
    exists r. repeat split; [done..|]. destruct (status r); auto; done.
Qed.

Lemma completed_dates_update_other ledger s record d :
  d <> day record ->
  d ∈ get_completed_dates (update_bar_status ledger s record) s
  <-> d ∈ get_completed_dates ledger s.
Proof.
  intros Hd. rewrite !completed_dates_statuses.
  rewrite statuses_on_update_other; [done|congruence].
Qed.

Lemma write_keeps_completed ledger s record :
  day record ∉ get_completed_dates ledger s ->
  keeps_completed (mkWrite s record ledger (update_bar_status ledger s record)).
Proof.
  intros Hn s' d' Hc. simpl in *. apply statuses_on_update_other.
  intros [= -> ->]. by apply Hn, completed_dates_statuses.
Qed.

(** [process_date] leaves the ledger alone or makes one write, for its
    symbol and date. *)
Lemma process_date_effect dp sym dt sd w :
  let w' := snd (process_date dp sym dt sd w) in
  (files w' = files w /\ writes w' = writes w)
  \/ (exists record,
        date record = dt
        /\ files w' = update_bar_status (files w) sym record
        /\ writes w' = mkWrite sym record (files w) (files w') :: writes w).
Proof.
  unfold process_date. destruct sd; [by left|].
  destruct (Fetcher.fetch_and_validate_day _ _ _ _) as [[[success df] status] fs].
  right. destruct success, df as [df|];
    try destruct (save_error dp sym (date_of dt)); cbn [snd];
    eexists; (split; [|split; reflexivity]); reflexivity.
Qed.

End SchedulerLedger.

Section SchedulerWrites.

Import BarStatus DateProcessor FetcherJob.

Local Arguments process_date : simpl never.
Local Arguments get_dates_to_process : simpl never.
Local Arguments SmartRetry.record_failure : simpl never.
Local Arguments SmartRetry.record_success : simpl never.

(** The dates still to be walked are of different days, none of them
    COMPLETE or EARLY_CLOSE in the ledger. *)
Definition plan_ok (sym : string) (dates : list Z) (ledger : Files) : Prop :=
  NoDup (map date_of dates)
  /\ forall dt, In dt dates -> date_of dt ∉ get_completed_dates ledger sym.

(** The log of writes leads from a first ledger to a last one: each write
    starts from the ledger the write before it left. *)
Fixpoint log_chain (first : Files) (log : list LedgerWrite) (last : Files) : Prop :=
  match log with
  | [] => first = last
  | lw :: log' => lw_after lw = last /\ log_chain first log' (lw_before lw)
  end.

(** The ledger the job started from. *)
Variable ledger0 : Files.

(** The writes made so far account for the ledger, and each of them keeps
    the days that were COMPLETE or EARLY_CLOSE. *)
Definition writes_ok (w : World) : Prop :=
  Forall keeps_completed (writes w) /\ log_chain ledger0 (writes w) (files w).

Lemma plan_ok_tail sym dt rest ledger :
  plan_ok sym (dt :: rest) ledger -> plan_ok sym rest ledger.
Proof.
  intros [Hnd Hc]. simpl in Hnd. apply NoDup_cons in Hnd as [_ Hnd].
  split; [done|]. intros. apply Hc. by right.
Qed.

Lemma process_date_step dp sym dt sd w rest :
  plan_ok sym (dt :: rest) (files w) -> writes_ok w ->
  plan_ok sym rest (files (snd (process_date dp sym dt sd w)))
  /\ writes_ok (snd (process_date dp sym dt sd w)).
Proof.
  intros Hplan [Hw Hchain].
  destruct (process_date_effect dp sym dt sd w) as [[Hf Hl] | (r & Hr & Hf & Hl)];
    cbv zeta in *.
  - unfold writes_ok. rewrite Hf, Hl. split; [by eapply plan_ok_tail | done].
  - unfold writes_ok. rewrite Hl. split; [|split].
    + rewrite Hf.
      destruct Hplan as [Hnd Hc]. simpl in Hnd. apply NoDup_cons in Hnd as [Hn Hnd].
      split; [done|]. intros dt' Hdt'.
      rewrite completed_dates_update_other.
      * apply Hc. by right.
      * rewrite Hr. intros E. apply Hn. rewrite <- E.
        apply list_elem_of_In, in_map, Hdt'.
    + constructor; [|done]. rewrite Hf. apply write_keeps_completed.
      rewrite Hr. apply Hplan. by left.
    + by split.
Qed.

Lemma await_step job sym dt ev st rest :
  plan_ok sym (dt :: rest) (files (world st)) -> writes_ok (world st) ->
  plan_ok sym rest (files (world (snd (await_process_date job sym dt ev st))))
  /\ writes_ok (world (snd (await_process_date job sym dt ev st))).
Proof.
  intros Hplan Hw. unfold await_process_date.
  destruct (attempt ev); cbn [snd]; try (split; [by eapply plan_ok_tail | done]).
  pose proof (process_date_step (date_processor job) sym dt (shutdown_requested st)
                (world st) rest Hplan Hw) as H.
  by destruct (process_date _ _ _ _ _).
Qed.

Lemma process_dates_writes job sym dates :
  forall p st,
    plan_ok sym dates (files (world st)) -> writes_ok (world st) ->
    writes_ok (world (snd (process_dates job sym dates p st))).
Proof.
  induction dates as [|dt rest IH]; intros p st Hplan Hw; [done|].
  cbn [process_dates].
  set (ev := events job (turn st)).
  set (st1 := signal (signal_before ev) (next_turn st)).
  assert (plan_ok sym (dt :: rest) (files (world st1))) as Hplan1 by done.
  assert (writes_ok (world st1)) as Hw1 by done.
  clearbody st1 ev. clear Hplan Hw.
  destruct (shutdown_requested st1); [done|].
  destruct (SmartRetry.should_skip_symbol (retry_manager st1) sym); [done|].
  destruct (SmartRetry.can_retry_date (retry_manager st1) sym (date_of dt));
    cbn [negb]; [|apply IH; [by eapply plan_ok_tail | done]].
  pose proof (await_step job sym dt ev (signal (signal_at_call ev) st1) rest
                Hplan1 Hw1) as [Hp2 Hw2].
  destruct (await_process_date job sym dt ev (signal (signal_at_call ev) st1))
    as [[[success msg]|] st2]; cbn [snd] in Hp2, Hw2; [|done].
  destruct success;
    match goal with |- context [shutdown_requested ?s] =>
      destruct (shutdown_requested s)
    end; cbn [snd]; try done; by apply IH.
Qed.

Lemma StronglySorted_lt_NoDup (l : list Z) : StronglySorted Z.lt l -> NoDup l.
Proof.
  induction 1 as [|x l Hs IH Hx]; constructor; [|done].
  intros Hin. rewrite Forall_forall in Hx. specialize (Hx x Hin). lia.
Qed.

(** What the planner hands to the date loop. *)
Lemma get_dates_to_process_plan dp sym w :
  files (snd (get_dates_to_process dp sym w)) = files w
  /\ writes (snd (get_dates_to_process dp sym w)) = writes w
  /\ plan_ok sym (fst (get_dates_to_process dp sym w)) (files w).
Proof.
  unfold get_dates_to_process.
  destruct (Fetcher.get_earliest_data_date _ _ _) as [[earliest|] fs]; simpl.
  - repeat split.
    + rewrite remaining_dates_rev, map_rev, map_map.
      rewrite (map_ext _ id) by (intros; apply date_of_midnight).
      rewrite map_id. apply NoDup_ListNoDup, NoDup_rev, NoDup_ListNoDup.
      apply StronglySorted_lt_NoDup, StronglySorted_filter_Z, trading_dates_sorted.
    + intros dt Hdt.
      apply list_elem_of_In, remaining_dates_elem in Hdt as (d & -> & _ & Hd).
      by rewrite date_of_midnight.
  - repeat split; [constructor | by intros ? []].
Qed.

Lemma _process_symbol_writes job sym st :
  writes_ok (world st) -> writes_ok (world (snd (_process_symbol job sym st))).
Proof.
  intros Hw. unfold _process_symbol.
  destruct (SmartRetry.should_skip_symbol (retry_manager st) sym); [done|].
  destruct (get_dates_to_process_plan (date_processor job) sym (world st))
    as (Hf & Hl & Hplan).
  destruct (get_dates_to_process _ _ _) as [dates w]. cbn [fst snd] in *.
  assert (writes_ok w) as Hw' by (unfold writes_ok; by rewrite Hl, Hf).
  destruct dates as [|dt rest]; [done|].
  pose proof (process_dates_writes job sym (dt :: rest)
                (mkProgress sym (Z.of_nat (length (dt :: rest))) 0 0 None RUNNING)
                (set_world w st)) as H.
  cbn [world set_world] in H. rewrite Hf in H. specialize (H Hplan Hw').
  by destruct (process_dates _ _ _ _ _).
Qed.

Lemma process_symbols_writes job symbols :
  forall st, writes_ok (world st) ->
             writes_ok (world (process_symbols job symbols st)).
Proof.
  induction symbols as [|sym rest IH]; intros st Hw; [done|].
  cbn [process_symbols].
  set (ev := events job (turn st)).
  set (st1 := signal (signal_before ev) (next_turn st)).
  assert (writes_ok (world st1)) as H1 by done.
  clearbody st1 ev.
  destruct (shutdown_requested st1); [done|].
  destruct (SmartRetry.should_skip_symbol (retry_manager st1) sym); [by apply IH|].
  pose proof (_process_symbol_writes job sym st1 H1) as H2.
  destruct (_process_symbol job sym st1) as [[? ?] st2]. cbn [snd] in H2.
  match goal with |- context [if ?c then _ else _] => destruct c end; [done|].
  by apply IH.
Qed.

Lemma start_jobs_writes job symbols st :
  writes_ok (world st) -> writes_ok (world (start_jobs job symbols st)).
Proof. intros Hw. unfold start_jobs. by apply process_symbols_writes. Qed.

End SchedulerWrites.

(** ** The validator on a frame without bars *)

Section EmptyInput.

Import Validation.

Lemma empty_no_rows (df : DataFrame) : rows df = [] -> empty df = true.
Proof. unfold empty. intros ->. by destruct (columns df). Qed.

Lemma validate_no_rows (v : DataValidator) (df : DataFrame) (day : Z) :
  rows df = [] ->
  has_column df "date" = true ->
  is_valid (validate_bar_data v df day)
  = is_valid (_validate_market_calendar v df day).
Proof.
  intros Hrows Hdate. unfold validate_bar_data.
  unfold validate_data_structure, validate_individual_bars, validate_data_quality.
  rewrite (empty_no_rows df Hrows). cbn [is_valid negb].
  unfold _validate_time_sequence. rewrite Hdate, Hrows. cbn.
  by destruct (is_valid (_validate_market_calendar v df day)).
Qed.

Lemma calendar_check_no_rows (v : DataValidator) (df : DataFrame) (day : Z) :
  rows df = [] ->
  is_valid (_validate_market_calendar v df day)
  = (0 =? MarketCalendar.get_expected_bar_count (dv_market_calendar v) day)
    || existsb (Z.eqb 0) (MarketCalendar.early_close (dv_expected_bars v)).
Proof.
  intros Hrows. unfold _validate_market_calendar, len. rewrite Hrows.
  change (Z.of_nat (length [])) with 0.
  unfold MarketCalendar.get_expected_bar_count.
  destruct (0 =? _); [done|]. cbn [orb]. by destruct (existsb _ _).
Qed.

End EmptyInput.

(** ** The date processor on an early close *)

Section EarlyClose.

Import DateProcessor.

Lemma expected_bars_short_session cal sched day open close :
  MarketCalendar.market_calendar cal = Some sched ->
  sched day = Some (open, close) ->
  Z.quot (close - open) ms_per_minute = 210 ->
  MarketCalendar.get_expected_bar_count cal day = 210
  /\ MarketCalendar.get_day_type cal day = MarketCalendar.EARLY_CLOSE_SHORT.
Proof.
  intros Hcal Hs Hm.
  unfold MarketCalendar.get_expected_bar_count, MarketCalendar.get_day_type,
    MarketCalendar.get_market_schedule.
  by rewrite Hcal, Hs, Hm.
Qed.

End EarlyClose.

(* ===================================================================== *)
(** * Part III: the claims of the specification *)
(* ===================================================================== *)

Section Claims.

Import SmartRetry.

(** C1 (as amended).  For every symbol: a RecordSuccess in a reachable state
    leaves the streak at 0; once [should_skip] is true it stays true
    whatever is recorded later; and [should_skip] implies
    [consecutive_no_data_days >= max_consecutive_no_data_days] in every state
    reached under the scheduler's discipline of recording nothing for a
    latched symbol, in particular in every state [start_jobs] reaches. *)
Theorem streak_semantics (max_no_data_days max_retries : Z) (ops : list Op)
    (s : string) :
  let rm := run_ops (init max_no_data_days max_retries) ops in
  let gated := run_gated (init max_no_data_days max_retries) ops in
  (forall d, no_data_streak (record_success rm s d) s = 0)
  /\ (should_skip_symbol rm s = true ->
      forall later, should_skip_symbol (run_ops rm later) s = true)
  /\ (should_skip_symbol gated s = true ->
      no_data_streak gated s >= max_no_data_days)
  /\ (forall job symbols ledger now,
        let final :=
          FetcherJob.retry_manager
            (FetcherJob.start_jobs job symbols
               (FetcherJob.fresh ledger now max_no_data_days max_retries)) in
        should_skip_symbol final s = true ->
        no_data_streak final s >= max_no_data_days).
Proof.
  intros rm gated. split; [|split; [|split]].
  - intros d. apply record_success_zeroes, streak_nonneg_run.
  - intros Hskip later. unfold run_ops.
    apply (fold_left_invariant apply_op
             (fun m => should_skip_symbol m s = true)); [|exact Hskip].
    intros m o. apply should_skip_latched.
  - intros Hskip.
    pose proof (latch_justified_run max_no_data_days max_retries ops s Hskip) as H.
    by rewrite run_gated_limit in H.
  - intros job symbols ledger now final Hskip.
    pose proof (scheduler_latch_justified job symbols
                  (FetcherJob.fresh ledger now max_no_data_days max_retries)
                  (latch_justified_init _ _) s Hskip) as H.
    destruct (scheduler_limits job symbols
                (FetcherJob.fresh ledger now max_no_data_days max_retries))
      as [E _].
    by rewrite E in H.
Qed.

(** C1, the claim as stated, fails: after ten days without data have latched
    the symbol, a RecordSuccess leaves [should_skip] true with a streak of 0,
    below the limit of 10. *)
Lemma streak_latch_counterexample :
  let rm := run_ops (init 10 3) Scenario.latch_then_success in
  should_skip_symbol rm "Y" = true
  /\ no_data_streak rm "Y" = 0
  /\ ~ (no_data_streak rm "Y" >= max_consecutive_no_data_days rm).
Proof.
  cbv zeta. split; [by vm_compute|]. split; [by vm_compute|].
  assert (no_data_streak (run_ops (init 10 3) Scenario.latch_then_success) "Y" = 0)
    as -> by by vm_compute.
  assert (max_consecutive_no_data_days
            (run_ops (init 10 3) Scenario.latch_then_success) = 10)
    as -> by by vm_compute.
  lia.
Qed.

(** C5.  For every error message, classifying a failure with
    [data_received = False] yields NO_DATA, and so does recording it. *)
Theorem classify_without_data (msg : string) :
  classify_failure msg false = NO_DATA
  /\ forall rm symbol target_date,
       snd (record_failure rm symbol target_date msg false) = NO_DATA.
Proof.
  split; [apply classify_not_received|].
  intros rm symbol target_date. unfold record_failure. cbn [snd].
  apply classify_not_received.
Qed.

Lemma streak_or_new rm s :
  no_data_streak rm s = consecutive_no_data_days (state_or_new rm s).
Proof. unfold no_data_streak, state_or_new. by destruct (symbol_states rm !! s). Qed.

Lemma count_or_new rm s d :
  match date_retries (state_or_new rm s) !! d with
  | Some info => retry_count info
  | None => 0
  end
  = match get_retry_info rm s d with
    | Some info => retry_count info
    | None => 0
    end.
Proof.
  unfold get_retry_info, state_or_new.
  destruct (symbol_states rm !! s); [done|]. simpl. by rewrite lookup_empty.
Qed.

(** When a no-data failure exhausts the retries of its date, the streak of
    the symbol grows by one. *)
Lemma abandoned_no_data_extends_streak rm s d msg info :
  get_retry_info (fst (record_failure rm s d msg false)) s d = Some info ->
  retry_count info >= max_retries_per_date rm ->
  no_data_streak (fst (record_failure rm s d msg false)) s = no_data_streak rm s + 1.
Proof.
  rewrite get_retry_info_failure, decide_True by done.
  intros [= <-]. cbn [retry_count]. intros Hge.
  destruct (record_failure_same rm s d msg false) as (st' & Hst & Hc & _).
  unfold no_data_streak at 1. rewrite Hst, Hc, streak_or_new, count_or_new.
  rewrite classify_not_received. cbn [is_no_data andb].
  destruct (Z.geb_spec
              (match get_retry_info rm s d with
               | Some i => retry_count i | None => 0 end + 1)
              (max_retries_per_date rm)); [done|lia].
Qed.

(** C6.  Every failure the scheduler records is passed with
    [data_received = False]: whatever the message (a 60-second timeout, which
    by its text alone is a network error, or any other), the classifier
    returns NO_DATA; every failure stored in a state the scheduler reaches is
    NO_DATA; and a failure that exhausts the retries of its date, so that the
    date is abandoned, adds one to the symbol's no-data streak. *)
Theorem scheduler_failures_no_data :
  (forall rm symbol date msg,
     snd (FetcherJob.record_date_failure rm symbol date msg) = NO_DATA)
  /\ (classify_failure "Timeout after 60 seconds" true = NETWORK_ERROR
      /\ classify_failure "Connection lost: network is down" true = NETWORK_ERROR)
  /\ (forall job symbols ledger now max_no_data_days max_retries,
        failures_all_no_data
          (FetcherJob.retry_manager
             (FetcherJob.start_jobs job symbols
                (FetcherJob.fresh ledger now max_no_data_days max_retries))))
  /\ (forall rm symbol date msg info,
        let rm' := fst (FetcherJob.record_date_failure rm symbol date msg) in
        get_retry_info rm' symbol (date_of date) = Some info ->
        retry_count info >= max_retries_per_date rm ->
        no_data_streak rm' symbol = no_data_streak rm symbol + 1).
Proof.
  split; [|split; [|split]].
  - intros. unfold FetcherJob.record_date_failure, record_failure. cbn [snd].
    apply classify_not_received.
  - split; reflexivity.
  - intros. apply scheduler_all_no_data.
    intros s d info. cbn [FetcherJob.retry_manager FetcherJob.fresh].
    by rewrite init_no_info.
  - intros rm symbol date msg info rm'. subst rm'.
    unfold FetcherJob.record_date_failure. apply abandoned_no_data_extends_streak.
Qed.

(** C7 (as amended).  In every state the scheduler reaches, the stored
    [retry_count] of every (symbol, date) is at most
    [max 1 max_retries_per_date]; it is at most [max_retries_per_date]
    whenever that limit is at least 1. *)
Theorem retry_count_bounded (job : FetcherJob.DataFetcherJob)
    (symbols : list string) (ledger : BarStatus.Files)
    (now max_no_data_days max_retries : Z) :
  let final :=
    FetcherJob.retry_manager
      (FetcherJob.start_jobs job symbols
         (FetcherJob.fresh ledger now max_no_data_days max_retries)) in
  retry_counts_within (Z.max 1 max_retries) final
  /\ (1 <= max_retries -> retry_counts_within max_retries final).
Proof.
  intros final.
  assert (retry_counts_within (Z.max 1 max_retries) final) as H.
  { pose proof (scheduler_retry_bounded job symbols
                  (FetcherJob.fresh ledger now max_no_data_days max_retries)) as H.
    unfold retry_bounded in H.
    destruct (scheduler_limits job symbols
                (FetcherJob.fresh ledger now max_no_data_days max_retries))
      as [_ E].
    rewrite E in H. apply H. intros s d info.
    cbn [FetcherJob.retry_manager FetcherJob.fresh]. by rewrite init_no_info. }
  split; [done|]. intros Hmax. by rewrite Z.max_r in H.
Qed.

(** C7, the claim as stated, fails when the limit is 0: the first attempt of a
    date is always allowed, and its failure stores a [retry_count] of 1. *)
Lemma retry_count_exceeds_zero_limit :
  let final :=
    FetcherJob.retry_manager
      (FetcherJob.start_jobs (Scenario.job_over Scenario.no_data_replies Scenario.second)
         ["X"]
         (FetcherJob.fresh ∅ (Scenario.noon_after Scenario.d2024_01_02) 10 0)) in
  max_retries_per_date final = 0
  /\ option_map retry_count (get_retry_info final "X" Scenario.d2024_01_02) = Some 1
  /\ ~ retry_counts_within (max_retries_per_date final) final.
Proof.
  cbv zeta.
  set (final := FetcherJob.retry_manager _).
  assert (max_retries_per_date final = 0) as E0 by by vm_compute.
  assert (get_retry_info final "X" Scenario.d2024_01_02
          = Some (mkDateRetryInfo Scenario.d2024_01_02 "X" 1 (Some NO_DATA)
                    "Processing failed")) as E1 by by vm_compute.
  split; [done|]. split; [by rewrite E1|].
  intros H. specialize (H _ _ _ E1). rewrite E0 in H. simpl in H. lia.
Qed.

(** C3 (as amended).  In every execution of the scheduler, from any ledger:
    the writes it makes account for the ledger it leaves, and no write
    touches the rows of a (symbol, date) that was COMPLETE or EARLY_CLOSE
    before it; such a row never turns into ERROR.  (A HOLIDAY row is planned
    again and can be overwritten.) *)
Theorem ledger_completed_rows_kept (job : FetcherJob.DataFetcherJob)
    (symbols : list string) (ledger : BarStatus.Files)
    (now max_no_data_days max_retries : Z) :
  let final :=
    FetcherJob.world
      (FetcherJob.start_jobs job symbols
         (FetcherJob.fresh ledger now max_no_data_days max_retries)) in
  log_chain ledger (DateProcessor.writes final) (DateProcessor.files final)
  /\ Forall keeps_completed (DateProcessor.writes final).
Proof.
  intros final.
  destruct (start_jobs_writes ledger job symbols
              (FetcherJob.fresh ledger now max_no_data_days max_retries))
    as [Hk Hc]; [|done].
  split; [constructor | reflexivity].
Qed.

(** C3, the claim as stated, fails for HOLIDAY: a ledger row that says
    HOLIDAY for a trading day is not skipped by the planner, and when the
    gateway then delivers nothing the row is overwritten with ERROR. *)
Lemma holiday_row_overwritten_by_error :
  let final :=
    FetcherJob.world
      (FetcherJob.start_jobs
         (Scenario.job_over Scenario.no_data_replies Scenario.second) ["X"]
         (FetcherJob.fresh Scenario.holiday_ledger
            (Scenario.noon_after Scenario.d2024_01_02) 10 3)) in
  map (fun lw =>
         (BarStatus.statuses_on (DateProcessor.lw_before lw) "X" Scenario.d2024_01_02,
          BarStatus.statuses_on (DateProcessor.lw_after lw) "X" Scenario.d2024_01_02))
    (DateProcessor.writes final)
  = [([BarStatus.HOLIDAY], [BarStatus.ERROR])].
Proof. by vm_compute. Qed.

(** C4.  When the earliest-data date of the symbol is known, the planner's
    work list holds exactly the calendar's trading dates from that date
    through yesterday (UTC) that have no COMPLETE or EARLY_CLOSE row in the
    ledger (HOLIDAY and ERROR rows are not removed), each at UTC midnight, in
    strictly descending order; so when every such trading date has a COMPLETE
    or EARLY_CLOSE row the work list is empty. *)
Theorem planner_work_list (dp : DateProcessor.DateProcessor) (symbol : string)
    (w : DateProcessor.World) (earliest : Z) (fs : Fetcher.State) :
  Fetcher.get_earliest_data_date (DateProcessor.fetcher dp) symbol
    (DateProcessor.fetcher_state w) = (Some earliest, fs) ->
  let work := fst (DateProcessor.get_dates_to_process dp symbol w) in
  let candidates :=
    MarketCalendar.get_trading_dates (DateProcessor.market_calendar dp)
      (date_of earliest) (date_of (Fetcher.clock fs) - 1) in
  let done_already d :=
    exists r, r ∈ BarStatus.load_bar_status (DateProcessor.files w) symbol
              /\ date_of (BarStatus.date r) = d
              /\ (BarStatus.status r = BarStatus.COMPLETE
                  \/ BarStatus.status r = BarStatus.EARLY_CLOSE) in
  (forall dt, dt ∈ work
              <-> exists d, dt = midnight d /\ d ∈ candidates /\ ~ done_already d)
  /\ StronglySorted (fun a b => b < a) work
  /\ ((forall d, d ∈ candidates -> done_already d) -> work = []).
Proof.
  intros Hearliest work candidates done_already. subst work.
  unfold DateProcessor.get_dates_to_process. rewrite Hearliest. cbn [fst].
  split; [|split].
  - intros dt. rewrite remaining_dates_elem.
    split; intros (d & ? & ? & Hd); exists d; repeat split; try done;
      intros Hc; apply Hd; by apply completed_dates_elem.
  - apply remaining_dates_sorted.
  - intros Hall. apply remaining_dates_none.
    intros d Hd. by apply completed_dates_elem, Hall.
Qed.

(** C4 at a concrete run: data from 2024-01-02, today 2024-01-06, a ledger
    with 2024-01-03 COMPLETE and 2024-01-04 ERROR. *)
Lemma planner_work_list_witness :
  StronglySorted (fun a b => b < a)
    (fst (DateProcessor.get_dates_to_process
            (Scenario.processor_over Scenario.no_data_replies Scenario.second)
            "X" Scenario.partial_world))
  /\ fst (DateProcessor.get_dates_to_process
            (Scenario.processor_over Scenario.no_data_replies Scenario.second)
            "X" Scenario.partial_world)
     = [midnight Scenario.d2024_01_05; midnight (Scenario.d2024_01_02 + 2);
        midnight Scenario.d2024_01_02].
Proof.
  split.
  - destruct (planner_work_list
                (Scenario.processor_over Scenario.no_data_replies Scenario.second)
                "X" Scenario.partial_world (midnight Scenario.d2024_01_02)
                (Fetcher.mkState 1704542401000 1704542400000 1 true
                   [(1704542400000, 1704542401000)]))
      as (_ & Hsorted & _).
    + vm_compute. reflexivity.
    + exact Hsorted.
  - vm_compute. reflexivity.
Defined.

Lemma find_on_day_some (l : list BarStatus.BarStatusRecord) (d : Z) :
  In d (map (fun r => date_of (BarStatus.date r)) l)
  <-> List.find (BarStatus.on_day d) l <> None.
Proof.
  split.
  - intros (r & Hd & Hr)%in_map_iff Hnone.
    eapply find_none in Hnone; [|exact Hr].
    unfold BarStatus.on_day in Hnone. rewrite Hd, Z.eqb_refl in Hnone. done.
  - destruct (List.find (BarStatus.on_day d) l) as [r|] eqn:E; [|done].
    intros _. apply find_some in E as [Hr Hd].
    apply in_map_iff. exists r. split; [|done].
    unfold BarStatus.on_day in Hd. by apply Z.eqb_eq.
Qed.

(** C8 (as amended).  After any sequence of upserts from an empty ledger,
    Load returns records in strictly ascending order of date, one for each
    calendar date that was upserted and none else, and the record of a date
    is the most recently upserted record of that date as it reads back from
    the file: stamped at UTC midnight, an empty error message absent.  That
    is the upserted record itself when it is stamped at midnight and its
    error message is not the empty string. *)
Theorem ledger_after_upserts (symbol : string)
    (records : list BarStatus.BarStatusRecord) :
  let loaded :=
    BarStatus.load_bar_status (BarStatus.upsert_all symbol records) symbol in
  let day r := date_of (BarStatus.date r) in
  StronglySorted (fun a b => BarStatus.date a < BarStatus.date b) loaded
  /\ NoDup (map day loaded)
  /\ (forall d, In d (map day loaded) <-> In d (map day records))
  /\ (forall d, List.find (BarStatus.on_day d) loaded
                = option_map BarStatus.reloaded (BarStatus.last_upserted records d))
  /\ (forall r, BarStatus.date r = midnight (day r) ->
                BarStatus.error_message r <> Some "" ->
                BarStatus.reloaded r = r).
Proof.
  intros loaded day.
  destruct (upsert_all_invariant symbol records) as (Hs & Hn & Hf).
  split; [done|]. split; [done|]. split; [|split; [done|]].
  - intros d. subst loaded day. rewrite find_on_day_some, Hf.
    unfold BarStatus.last_upserted.
    rewrite (in_rev (map _ records)), <- map_rev, find_on_day_some.
    by destruct (List.find (BarStatus.on_day d) (rev records)).
  - intros r. apply reloaded_canonical.
Qed.

(** C8, the claim as stated, fails: a record stamped at 9:30 comes back
    stamped at midnight, and a record with an empty error message comes back
    without one, so what Load returns is not the upserted record. *)
Lemma loaded_record_differs :
  BarStatus.load_bar_status
    (BarStatus.upsert_all "X" [Scenario.stamped_record]) "X"
    = [BarStatus.mkRecord (midnight Scenario.d2024_01_02) BarStatus.COMPLETE
         390 390 None None 0]
  /\ BarStatus.date Scenario.stamped_record <> midnight Scenario.d2024_01_02
  /\ BarStatus.load_bar_status
       (BarStatus.upsert_all "X" [Scenario.blank_error_record]) "X"
     = [BarStatus.mkRecord (midnight Scenario.d2024_01_02) BarStatus.ERROR
          390 0 None None 0]
  /\ BarStatus.error_message Scenario.blank_error_record = Some "".
Proof.
  split; [by vm_compute|]. split; [by vm_compute|]. split; by vm_compute.
Qed.

(** C2: what the code does on an early close.  On a date whose session lasts
    210 minutes, a fetch that succeeds with 210 validated bars makes
    [process_date] write a record with expected_bars 210 and actual_bars 210
    whose status is COMPLETE, not EARLY_CLOSE. *)
Theorem early_close_recorded_complete (dp : DateProcessor.DateProcessor)
    (symbol : string) (date : Z) (w : DateProcessor.World)
    (sched : Z -> option (Z * Z)) (open close : Z)
    (df : Validation.DataFrame) (status : string) (fs : Fetcher.State) :
  MarketCalendar.market_calendar (DateProcessor.market_calendar dp) = Some sched ->
  sched (date_of date) = Some (open, close) ->
  Z.quot (close - open) ms_per_minute = 210 ->
  Fetcher.fetch_and_validate_day (DateProcessor.fetcher dp) symbol date
    (DateProcessor.fetcher_state w) = (true, Some df, status, fs) ->
  Validation.len df = 210 ->
  DateProcessor.save_error dp symbol (date_of date) = None ->
  exists record,
    DateProcessor.lw_record
      <$> head (DateProcessor.writes
                  (snd (DateProcessor.process_date dp symbol date false w)))
      = Some record
    /\ BarStatus.date record = date
    /\ BarStatus.status record = BarStatus.COMPLETE
    /\ BarStatus.expected_bars record = 210
    /\ BarStatus.actual_bars record = 210.
Proof.
  intros Hcal Hsched Hminutes Hfetch Hlen Hsave.
  destruct (expected_bars_short_session _ _ _ _ _ Hcal Hsched Hminutes) as [He _].
  unfold DateProcessor.process_date. rewrite Hfetch, Hsave. cbn [snd].
  rewrite He, Hlen. eexists. split; [reflexivity|]. by repeat split.
Qed.

(** C2 at 2024-11-29: the gateway delivers the 210 bars of the short
    session; the fetcher's own status for them is EARLY_CLOSE, the ledger
    record says COMPLETE. *)
Lemma early_close_recorded_complete_witness :
  fst (Fetcher.fetch_and_validate_day
         (Scenario.fetcher_over Scenario.early_close_replies Scenario.second)
         "X" (midnight Scenario.d2024_11_29)
         (Fetcher.initial (Scenario.noon_after Scenario.d2024_11_29)))
  = (true, Some (Validation.df_of_bars (Scenario.bars_of Scenario.d2024_11_29 210)),
     "EARLY_CLOSE")
  /\ exists record,
       DateProcessor.lw_record
         <$> head (DateProcessor.writes
                     (snd (DateProcessor.process_date
                             (Scenario.processor_over Scenario.early_close_replies
                                Scenario.second)
                             "X" (midnight Scenario.d2024_11_29) false
                             Scenario.early_close_world)))
         = Some record
       /\ BarStatus.date record = midnight Scenario.d2024_11_29
       /\ BarStatus.status record = BarStatus.COMPLETE
       /\ BarStatus.expected_bars record = 210
       /\ BarStatus.actual_bars record = 210.
Proof.
  split; [vm_compute; reflexivity|].
  apply (early_close_recorded_complete
           (Scenario.processor_over Scenario.early_close_replies Scenario.second)
           "X" (midnight Scenario.d2024_11_29) Scenario.early_close_world
           Scenario.nyse
           (fst (Scenario.short_session Scenario.d2024_11_29))
           (snd (Scenario.short_session Scenario.d2024_11_29))
           (Validation.df_of_bars (Scenario.bars_of Scenario.d2024_11_29 210))
           "EARLY_CLOSE"
           (Fetcher.mkState 1732968001000 1732968000000 1 true
              [(1732968000000, 1732968001000)]));
    vm_compute; reflexivity.
Defined.

(** C9 (as amended).  The full validation of an input without bars that has
    its date column is valid exactly when the calendar expects no bars for
    the date (a holiday) or 0 is one of the configured early-close counts;
    on a trading day it fails at the calendar check. *)
Theorem validate_empty_input (v : Validation.DataValidator)
    (df : Validation.DataFrame) (day : Z) :
  Validation.rows df = [] ->
  Validation.has_column df "date" = true ->
  Validation.is_valid (Validation.validate_bar_data v df day)
  = (0 =? MarketCalendar.get_expected_bar_count (Validation.dv_market_calendar v) day)
    || existsb (Z.eqb 0)
         (MarketCalendar.early_close (Validation.dv_expected_bars v)).
Proof.
  intros Hrows Hdate.
  rewrite validate_no_rows by done. by apply calendar_check_no_rows.
Qed.

(** C9 on Christmas Day 2024: no bars, and the validation passes. *)
Lemma validate_empty_input_witness :
  Validation.is_valid
    (Validation.validate_bar_data Scenario.validator
       (Validation.mkDataFrame Validation.bar_columns []) Scenario.d2024_12_25)
  = true.
Proof.
  refine (eq_trans
            (validate_empty_input Scenario.validator
               (Validation.mkDataFrame Validation.bar_columns [])
               Scenario.d2024_12_25 eq_refl eq_refl) _).
  vm_compute. reflexivity.
Defined.

(** C9, the claim as stated, fails: on the regular trading day 2024-01-02 an
    input without bars is rejected by the calendar check (390 bars expected,
    0 received). *)
Lemma empty_input_on_trading_day_invalid :
  Validation.validate_bar_data Scenario.validator
    (Validation.mkDataFrame Validation.bar_columns []) Scenario.d2024_01_02
  = Validation.mkResult false
      "Market calendar validation failed: Bar count mismatch: expected 390, got 0"
      (Some 0) (Some 390).
Proof. by vm_compute. Qed.

(** What the rate limiter does ensure: a request it lets through starts at
    least [rate_limit_wait] after the start of the request before it, as long
    as the sleep does not end early. *)
Lemma _enforce_rate_limit_spacing (f : Fetcher.Fetcher) (s : Fetcher.State) :
  0 <= Fetcher.delay (Fetcher.gateway f) (Fetcher.tick s) ->
  let s' := snd (Fetcher._enforce_rate_limit f s) in
  Fetcher.last_request_time s' = Fetcher.clock s'
  /\ Fetcher.last_request_time s + Fetcher.rate_limit_wait <= Fetcher.clock s'
  /\ Fetcher.requests s' = Fetcher.requests s.
Proof.
  intros Hdelay. unfold Fetcher._enforce_rate_limit, Fetcher.bind.
  destruct (Z.ltb_spec (Fetcher.clock s - Fetcher.last_request_time s)
              Fetcher.rate_limit_wait); simpl; repeat split; lia.
Qed.

(** C10: what the code does.  The rate limiter stamps the time at which a
    request starts, not the time at which it completes.  With requests that
    take 4 seconds, the second of two fetches starts 10 seconds after the
    first started, which is 6 seconds after the first completed.  And when a
    request raises, the retry follows after [retry.wait_seconds] (5 seconds)
    with no rate-limit wait at all. *)
Theorem rate_limit_counts_from_request_start :
  let t := Scenario.noon_after Scenario.d2024_01_02 in
  let date := midnight Scenario.d2024_01_02 in
  Fetcher.requests
    (snd (Fetcher.fetch_historical_data Scenario.slow_fetcher date
            (snd (Fetcher.fetch_historical_data Scenario.slow_fetcher date
                    (Fetcher.initial t)))))
  = [(t + 10000, t + 14000); (t, t + 4000)]
  /\ (t + 10000) - (t + 4000) < Fetcher.rate_limit_wait
  /\ Fetcher.requests
       (snd (Fetcher.fetch_historical_data Scenario.flaky_fetcher date
               (Fetcher.initial t)))
     = [(t + 5000, t + 5000); (t, t)].
Proof. cbv zeta. split; [by vm_compute|]. split; by vm_compute. Qed.

End Claims.

(* ===================================================================== *)
(** * Part IV: further properties of the code *)
(* ===================================================================== *)

(** ** More on the retry policy *)

Section RetryMore.

Import SmartRetry.








(** X2.  A success forgets the failures of its date: the date has no retry
    entry afterwards and can be retried, whatever was recorded before, and
    the entries of the other dates stay. *)
Theorem success_clears_date (rm : SmartRetryManager) (s : string) (d : Z) :
  get_retry_info (record_success rm s d) s d = None
  /\ can_retry_date (record_success rm s d) s d = true
  /\ (forall d', d' <> d ->
        get_retry_info (record_success rm s d) s d' = get_retry_info rm s d').
Proof.
  assert (get_retry_info (record_success rm s d) s d = None) as Hnone.
  { unfold get_retry_info.
    destruct (record_success_same rm s d) as (st' & -> & _ & _ & ->).
    apply lookup_delete_eq. }
  split; [done|]. split.
  - by rewrite can_retry_date_info, Hnone.
  - intros d' Hd. unfold get_retry_info at 1.
    destruct (record_success_same rm s d) as (st' & -> & _ & _ & ->).
    rewrite lookup_delete_ne by done. unfold get_retry_info, state_or_new.
    destruct (symbol_states rm !! s); [done|]. simpl. apply lookup_empty.
Qed.

(** X3.  A failure that is not classified NO_DATA counts for its date only:
    it leaves the no-data streak and the skip latch of every symbol as they
    were. *)
Theorem other_failures_keep_streak (rm : SmartRetryManager) (s : string) (d : Z)
    (msg : string) (data_received : bool) :
  classify_failure msg data_received <> NO_DATA ->
  forall s',
    no_data_streak (fst (record_failure rm s d msg data_received)) s'
      = no_data_streak rm s'
    /\ should_skip_symbol (fst (record_failure rm s d msg data_received)) s'
      = should_skip_symbol rm s'.
Proof.
  intros Hft s'. unfold no_data_streak, should_skip_symbol.
  destruct (decide (s = s')) as [<-|Hne].
  - destruct (record_failure_same rm s d msg data_received)
      as (st' & -> & Hc & Hk & _).
    rewrite Hc, Hk.
    assert (is_no_data (classify_failure msg data_received) = false) as ->
      by by destruct (classify_failure msg data_received).
    cbn [andb]. unfold state_or_new. by destruct (symbol_states rm !! s).
  - by rewrite record_failure_other.
Qed.

(** X3 for a reset connection reported with data received. *)
Lemma other_failures_keep_streak_witness :
  no_data_streak
    (fst (record_failure (run_ops (init 10 3) (Scenario.no_data_walk "Y" 19727 4 3))
            "Y" 19000 "connection reset" true)) "Y"
  = no_data_streak (run_ops (init 10 3) (Scenario.no_data_walk "Y" 19727 4 3)) "Y"
  /\ should_skip_symbol
       (fst (record_failure
               (run_ops (init 10 3) (Scenario.no_data_walk "Y" 19727 4 3))
               "Y" 19000 "connection reset" true)) "Y"
     = should_skip_symbol
         (run_ops (init 10 3) (Scenario.no_data_walk "Y" 19727 4 3)) "Y".
Proof.
  apply (other_failures_keep_streak
           (run_ops (init 10 3) (Scenario.no_data_walk "Y" 19727 4 3))
           "Y" 19000 "connection reset" true).
  vm_compute. discriminate.
Defined.

(** X4.  The calls for one symbol leave every other symbol alone: its retry
    entries, its streak, its latch and what it may retry. *)
Theorem retry_calls_per_symbol (rm : SmartRetryManager) (o : Op) (s' : string) :
  op_symbol o <> s' ->
  (forall d, get_retry_info (apply_op rm o) s' d = get_retry_info rm s' d)
  /\ no_data_streak (apply_op rm o) s' = no_data_streak rm s'
  /\ should_skip_symbol (apply_op rm o) s' = should_skip_symbol rm s'
  /\ (forall d, can_retry_date (apply_op rm o) s' d = can_retry_date rm s' d).
Proof.
  intros Hne.
  assert (symbol_states (apply_op rm o) !! s' = symbol_states rm !! s') as E.
  { destruct o as [s d msg dr | s d]; cbn [apply_op op_symbol] in *.
    - by apply record_failure_other.
    - by apply record_success_other. }
  assert (max_retries_per_date (apply_op rm o) = max_retries_per_date rm) as Em
    by apply apply_op_limits.
  unfold get_retry_info, no_data_streak, should_skip_symbol, can_retry_date.
  rewrite E, Em. done.
Qed.

(** X4 for a failure of "Y" seen from "Z". *)
Lemma retry_calls_per_symbol_witness :
  no_data_streak
    (apply_op (run_ops (init 10 3) (Scenario.no_data_walk "Z" 19727 2 3))
       (RecordFailure "Y" 19727 "no historical data" false)) "Z"
  = no_data_streak (run_ops (init 10 3) (Scenario.no_data_walk "Z" 19727 2 3)) "Z".
Proof.
  apply (retry_calls_per_symbol
           (run_ops (init 10 3) (Scenario.no_data_walk "Z" 19727 2 3))
           (RecordFailure "Y" 19727 "no historical data" false) "Z").
  vm_compute. discriminate.
Defined.

End RetryMore.

Section NoDataWalk.

Import SmartRetry.








End NoDataWalk.

(** ** More on the ledger *)

Section LedgerMore.

Import BarStatus.

Local Abbreviation day r := (date_of (date r)).

Lemma value_of_value (v : string) (st : BarStatus) :
  of_value v = Some st -> value st = v.
Proof.
  unfold of_value.
  repeat match goal with
         | |- context [String.eqb v ?c] => destruct (String.eqb_spec v c); [subst|]
         end; intros [= <-] || intros [=]; reflexivity.
Qed.

(** X6.  A row of the file that parses is written back unchanged, and the
    record it parses to reads back as itself. *)
Theorem csv_row_round_trip (row : CsvRow) (r : BarStatusRecord) :
  from_dict row = Some r ->
  to_dict r = row /\ from_dict (to_dict r) = Some r.
Proof.
  intros Hrow. unfold from_dict in Hrow.
  destruct (of_value (csv_status row)) as [st|] eqn:Hst; [|done].
  injection Hrow as <-.
  assert (to_dict
            (mkRecord (midnight (csv_date row)) st (csv_expected_bars row)
               (csv_actual_bars row) (csv_last_timestamp row)
               (if String.eqb (csv_error_message row) "" then None
                else Some (csv_error_message row)) (csv_retry_count row)) = row) as E.
  { destruct row as [d v e a l m c]. unfold to_dict. simpl in *.
    rewrite date_of_midnight, (value_of_value v st Hst). f_equal.
    by destruct (String.eqb_spec m ""). }
  split; [exact E|]. rewrite E. unfold from_dict. by rewrite Hst.
Qed.

(** X6 for an ERROR row. *)
Lemma csv_row_round_trip_witness :
  to_dict (mkRecord (midnight 19724) ERROR 390 0 None (Some "Fetch failed") 0)
  = mkCsvRow 19724 "ERROR" 390 0 None "Fetch failed" 0
  /\ from_dict
       (to_dict (mkRecord (midnight 19724) ERROR 390 0 None (Some "Fetch failed") 0))
     = Some (mkRecord (midnight 19724) ERROR 390 0 None (Some "Fetch failed") 0).
Proof.
  apply (csv_row_round_trip (mkCsvRow 19724 "ERROR" 390 0 None "Fetch failed" 0)).
  reflexivity.
Defined.

Lemma upserted_length record l :
  length (upserted record l)
  = (length l + (if existsb (on_day (day record)) l then 0 else 1))%nat.
Proof.
  unfold upserted. induction l as [|r l IH]; simpl; [done|].
  unfold on_day at 1.
  destruct (Z.eqb_spec (day r) (day record)) as [E|E]; simpl; [lia|].
  destruct (replace_first record l) as [l' u]. simpl in *.
  destruct u; simpl in *; rewrite ?length_app in *; simpl in *; lia.
Qed.

(** X7.  An update rewrites the file of its symbol from the records that
    loaded: the rows that did not parse are gone, every row written parses,
    and there is one row per loaded record, plus one when the day of the
    new record was not there. *)
Theorem update_rewrites_file (files : Files) (symbol : string)
    (record : BarStatusRecord) :
  exists rows,
    update_bar_status files symbol record !! symbol = Some rows
    /\ Forall (fun row => is_Some (from_dict row)) rows
    /\ length rows
       = (length (load_bar_status files symbol)
          + (if existsb (on_day (day record)) (load_bar_status files symbol)
             then 0 else 1))%nat.
Proof.
  unfold update_bar_status.
  pose proof (upserted_length record (load_bar_status files symbol)) as Hlen.
  unfold upserted in Hlen.
  destruct (replace_first record (load_bar_status files symbol)) as [l u].
  cbn [fst snd] in Hlen. eexists. rewrite lookup_insert_eq.
  split; [reflexivity|]. split.
  - apply Forall_forall. intros row Hrow.
    apply list_elem_of_In, in_map_iff in Hrow as (r & <- & _).
    rewrite from_dict_to_dict. by eexists.
  - rewrite length_map, (Permutation_length (sort_by_perm date_le _)). exact Hlen.
Qed.

(** X8.  A write touches the rows of its own symbol and day only: the file
    of every other symbol is the same, and so are the statuses of every
    other day of the symbol. *)
Theorem update_is_local (files : Files) (s : string) (record : BarStatusRecord)
    (s' : string) (d' : Z) :
  (s', d') <> (s, day record) ->
  statuses_on (update_bar_status files s record) s' d' = statuses_on files s' d'
  /\ (s' <> s -> update_bar_status files s record !! s' = files !! s').
Proof.
  intros Hne. split; [by apply statuses_on_update_other|].
  intros Hs. unfold update_bar_status.
  destruct (replace_first record (load_bar_status files s)) as [l u].
  by rewrite lookup_insert_ne.
Qed.

(** X8 on a ledger with two days: rewriting 2024-01-04 leaves the row of
    2024-01-03 COMPLETE. *)
Lemma update_is_local_witness :
  statuses_on
    (update_bar_status Scenario.partial_ledger "X"
       (mkRecord (midnight 19726) COMPLETE 390 390 None None 0)) "X" 19725
  = statuses_on Scenario.partial_ledger "X" 19725.
Proof.
  apply (update_is_local Scenario.partial_ledger "X"
           (mkRecord (midnight 19726) COMPLETE 390 390 None None 0) "X" 19725).
  vm_compute. discriminate.
Defined.

Lemma day_bounds (t : Z) : midnight (date_of t) <= t < midnight (date_of t + 1).
Proof.
  unfold midnight, date_of, ms_per_day.
  pose proof (Z.div_mod t 86400000 ltac:(lia)).
  pose proof (Z.mod_pos_bound t 86400000 ltac:(lia)). lia.
Qed.

Lemma to_dict_reloaded (r : BarStatusRecord) : to_dict (reloaded r) = to_dict r.
Proof.
  unfold to_dict, reloaded. simpl. rewrite date_of_midnight. f_equal.
  destruct (error_message r) as [m|]; [|done].
  by destruct (String.eqb_spec m "").
Qed.

Lemma upserted_In record l : In record (upserted record l).
Proof.
  unfold upserted. induction l as [|r l IH]; simpl; [by left|].
  destruct (Z.eqb_spec (day r) (day record)); simpl; [by left|].
  destruct (replace_first record l) as [l' u]. simpl in *.
  destruct u; by right.
Qed.

(** On records of different days, one of them of the day of the new record,
    the upsert replaces that one in place. *)
Lemma upserted_present record l :
  NoDup (map (fun r => day r) l) ->
  In (day record) (map (fun r => day r) l) ->
  upserted record l = map (fun x => if day x =? day record then record else x) l.
Proof.
  unfold upserted. induction l as [|r l IH]; simpl; intros Hnd Hin; [done|].
  apply NoDup_cons in Hnd as [Hr Hnd].
  destruct (Z.eqb_spec (day r) (day record)) as [E|E]; simpl.
  - f_equal. symmetry. rewrite <- (map_id l) at 2. apply map_ext_in.
    intros x Hx. destruct (Z.eqb_spec (day x) (day record)) as [E'|]; [|done].
    destruct Hr. rewrite E, <- E'.
    apply list_elem_of_In, (in_map (fun r => day r)), Hx.
  - destruct Hin as [Hin|Hin]; [congruence|].
    specialize (IH Hnd Hin).
    destruct (replace_first record l) as [l' u] eqn:Hrf. simpl in *.
    destruct u; simpl in *; [by rewrite IH|].
    exfalso.
    apply (f_equal (@length _)) in IH.
    rewrite length_app, length_map in IH. simpl in IH.
    assert (length l' = length l); [|lia].
    clear -Hrf. revert l' Hrf.
    induction l as [|r l IHl]; simpl; intros l'; [by intros [= <-]|].
    destruct (day r =? day record); [done|].
    destruct (replace_first record l) as [l'' u]. intros [= <- ->]. simpl.
    f_equal. by apply IHl.
Qed.

Lemma sort_sorted_id {A : Type} (le : A -> A -> bool) (l : list A) :
  Sorted (fun a b => le a b = true) l -> sort_by le l = l.
Proof.
  induction 1 as [|x l Hs IH Hhd]; simpl; [done|].
  rewrite IH. destruct Hhd as [|y l' Hxy]; simpl; [done|]. by rewrite Hxy.
Qed.

Lemma StronglySorted_map_rel {A B : Type} (R : A -> A -> Prop)
    (R' : B -> B -> Prop) (h : A -> B) (l : list A) :
  (forall a b, R a b -> R' (h a) (h b)) ->
  StronglySorted R l -> StronglySorted R' (map h l).
Proof.
  intros HR. induction 1 as [|x l Hs IH Hx]; simpl; constructor; [done|].
  apply Forall_forall. intros y Hy.
  apply list_elem_of_In, in_map_iff in Hy as (z & <- & Hz).
  apply HR. rewrite Forall_forall in Hx. apply Hx, list_elem_of_In, Hz.
Qed.

Lemma update_bar_status_upserted files symbol record :
  update_bar_status files symbol record
  = <[symbol := map to_dict
                  (sort_by date_le (upserted record (load_bar_status files symbol)))]>
      files.
Proof.
  unfold update_bar_status, upserted.
  by destruct (replace_first record (load_bar_status files symbol)) as [l u].
Qed.

(** X9.  On a ledger with one row per day, writing the same record a second
    time leaves the files as the first write left them. *)
Theorem update_idempotent (files : Files) (symbol : string)
    (record : BarStatusRecord) :
  NoDup (map (fun r => day r) (load_bar_status files symbol)) ->
  update_bar_status (update_bar_status files symbol record) symbol record
  = update_bar_status files symbol record.
Proof.
  intros Hnd.
  rewrite (update_bar_status_upserted (update_bar_status files symbol record)).
  rewrite load_update, (update_bar_status_upserted files).
  set (U := upserted record (load_bar_status files symbol)).
  set (S := sort_by date_le U).
  assert (NoDup (map (fun r => day r) U)) as HU by by apply upserted_nodup.
  pose proof (sort_by_perm date_le U) as Hp. fold S in Hp.
  assert (NoDup (map (fun r => day r) S)) as HS.
  { by rewrite (Permutation_map (fun r => day r) Hp). }
  assert (StronglySorted (fun a b => day a < day b) S) as Hss.
  { apply sorted_days; [|done]. apply sort_by_sorted, date_le_total. }
  assert (In record S) as Hrec.
  { eapply Permutation_in; [symmetry; exact Hp|]. apply upserted_In. }
  rewrite upserted_present.
  - set (h := fun x => if day (reloaded x) =? day record then record else reloaded x).
    rewrite (map_map reloaded). fold h.
    assert (forall x, day (h x) = day x) as Hday.
    { intros x. unfold h.
      destruct (Z.eqb_spec (day (reloaded x)) (day record)) as [E|E];
        [by rewrite <- E, day_reloaded | apply day_reloaded]. }
    rewrite sort_sorted_id.
    + rewrite insert_insert_eq. f_equal. rewrite map_map. apply map_ext_in.
      intros x Hx. unfold h.
      destruct (Z.eqb_spec (day (reloaded x)) (day record)) as [E|E];
        [|apply to_dict_reloaded].
      rewrite day_reloaded in E.
      pose proof (find_unique S x HS Hx) as Fx.
      pose proof (find_unique S record HS Hrec) as Fr.
      rewrite E in Fx. congruence.
    + apply StronglySorted_Sorted.
      apply (StronglySorted_map_rel (fun a b => day a < day b)); [|done].
      intros a b Hab. unfold date_le. rewrite <- (Hday a), <- (Hday b) in Hab.
      pose proof (day_bounds (date (h a))). pose proof (day_bounds (date (h b))).
      assert (midnight (day (h a) + 1) <= midnight (day (h b)));
        [unfold midnight, ms_per_day; lia | lia].
  - by rewrite map_day_reloaded.
  - rewrite map_day_reloaded. by apply (in_map (fun r => day r)).
Qed.

(** X9 on a ledger with two days. *)
Lemma update_idempotent_witness :
  update_bar_status
    (update_bar_status Scenario.partial_ledger "X"
       (mkRecord (midnight 19726 + 52200000) ERROR 390 0 None (Some "") 1))
    "X" (mkRecord (midnight 19726 + 52200000) ERROR 390 0 None (Some "") 1)
  = update_bar_status Scenario.partial_ledger "X"
      (mkRecord (midnight 19726 + 52200000) ERROR 390 0 None (Some "") 1).
Proof.
  apply (update_idempotent Scenario.partial_ledger "X"
           (mkRecord (midnight 19726 + 52200000) ERROR 390 0 None (Some "") 1)).
  apply (bool_decide_unpack _). vm_compute. reflexivity.
Defined.

End LedgerMore.

(** ** More on the fetcher *)

Section FetcherMore.

Import Validation.

Local Open Scope fetch_scope.

Lemma _request_with_retry_from_S (f : Fetcher.Fetcher) (left : nat) (attempt : Z)
    (s : Fetcher.State) :
  Fetcher._request_with_retry_from f (S left) attempt s
  = let s1 := snd (Fetcher.request f s) in
    match Fetcher.reply (Fetcher.gateway f) (Fetcher.tick s) with
    | Fetcher.ReplyRaise _ =>
        Fetcher._request_with_retry_from f left (attempt + 1)
          (snd ((if attempt <? Fetcher.retry_max_attempts f
                 then Fetcher.sleep f (Fetcher.retry_wait_seconds f * 1000)
                 else Fetcher.ret tt) s1))
    | Fetcher.ReplyBars result => (Some result, s1)
    | _ => (None, s1)
    end.
Proof.
  cbn [Fetcher._request_with_retry_from]. unfold Fetcher.bind, Fetcher.request.
  cbv zeta. cbn [snd].
  destruct (Fetcher.reply (Fetcher.gateway f) (Fetcher.tick s)); try reflexivity.
  by destruct (attempt <? Fetcher.retry_max_attempts f).
Qed.

(** The retry loop only adds requests to the log, at most one per attempt
    left, the first of them at once; it leaves the rate-limit stamp and the
    connection alone. *)
Lemma _request_with_retry_from_log (f : Fetcher.Fetcher) (left : nat) :
  forall (attempt : Z) (s : Fetcher.State),
    let s' := snd (Fetcher._request_with_retry_from f left attempt s) in
    (exists new,
        Fetcher.requests s' = new ++ Fetcher.requests s
        /\ (length new <= left)%nat
        /\ (left <> O -> exists earlier finish,
              new = earlier ++ [(Fetcher.clock s, finish)]))
    /\ Fetcher.last_request_time s' = Fetcher.last_request_time s
    /\ Fetcher.is_connected s' = Fetcher.is_connected s.
Proof.
  induction left as [|left IH]; intros attempt s.
  - simpl. split; [|done]. exists []. split; [done|]. split; [done|]. by intros [].
  - rewrite _request_with_retry_from_S. cbv zeta.
    set (finish := Fetcher.clock s
                   + Fetcher.delay (Fetcher.gateway f) (Fetcher.tick s)).
    assert (forall r : option (list BarData),
               (exists new,
                   Fetcher.requests (snd (r, snd (Fetcher.request f s)))
                   = new ++ Fetcher.requests s
                   /\ (length new <= S left)%nat
                   /\ (S left <> O -> exists earlier finish,
                         new = earlier ++ [(Fetcher.clock s, finish)]))
               /\ Fetcher.last_request_time (snd (r, snd (Fetcher.request f s)))
                  = Fetcher.last_request_time s
               /\ Fetcher.is_connected (snd (r, snd (Fetcher.request f s)))
                  = Fetcher.is_connected s) as Hstop.
    { intros r. split; [|done]. exists [(Fetcher.clock s, finish)].
      split; [done|]. split; [simpl; lia|]. intros _. by exists [], finish. }
    destruct (Fetcher.reply (Fetcher.gateway f) (Fetcher.tick s));
      try (by apply Hstop).
    set (s2 := snd ((if attempt <? Fetcher.retry_max_attempts f
                     then Fetcher.sleep f (Fetcher.retry_wait_seconds f * 1000)
                     else Fetcher.ret tt) (snd (Fetcher.request f s)))).
    assert (Fetcher.requests s2 = (Fetcher.clock s, finish) :: Fetcher.requests s
            /\ Fetcher.last_request_time s2 = Fetcher.last_request_time s
            /\ Fetcher.is_connected s2 = Fetcher.is_connected s) as (Hr & Hl & Hc).
    { unfold s2. by destruct (attempt <? Fetcher.retry_max_attempts f). }
    clearbody s2.
    destruct (IH (attempt + 1) s2) as ((new & Hn & Hlen & _) & Hl' & Hc').
    split; [|by rewrite Hl', Hl, Hc', Hc].
    exists (new ++ [(Fetcher.clock s, finish)]).
    rewrite Hn, Hr, <- app_assoc. split; [done|].
    split; [rewrite length_app; simpl; lia|]. intros _. by eexists _, _.
Qed.

Lemma fetch_historical_data_connected (f : Fetcher.Fetcher) (end_date : Z)
    (s : Fetcher.State) :
  Fetcher.is_connected s = true ->
  let s1 := snd (Fetcher._enforce_rate_limit f s) in
  let res := Fetcher._request_with_retry f s1 in
  Fetcher.fetch_historical_data f end_date s
  = (match fst res with Some (b :: bs) => Some (b :: bs) | _ => None end, snd res).
Proof.
  intros Hc. cbv zeta. unfold Fetcher.fetch_historical_data, Fetcher.bind.
  rewrite Hc. cbn [negb].
  destruct (Fetcher._enforce_rate_limit f s) as [[] s1]. cbn [snd].
  destruct (Fetcher._request_with_retry f s1) as [[[|b bs]|] s2]; reflexivity.
Qed.

Lemma fetch_historical_data_not_empty (f : Fetcher.Fetcher) (end_date : Z)
    (s : Fetcher.State) :
  fst (Fetcher.fetch_historical_data f end_date s) <> Some [].
Proof.
  destruct (Fetcher.is_connected s) eqn:Hc.
  - rewrite (fetch_historical_data_connected f end_date s Hc). cbv zeta. cbn [fst].
    by destruct (fst (Fetcher._request_with_retry f _)) as [[|b bs]|].
  - unfold Fetcher.fetch_historical_data. by rewrite Hc.
Qed.

(** X10.  One call of [fetch_historical_data] makes at most
    [retry.max_attempts] requests, and none on a fetcher that is not
    connected, which it leaves as it was; it never returns an empty list of
    bars. *)
Theorem fetch_historical_data_requests (f : Fetcher.Fetcher) (end_date : Z)
    (s : Fetcher.State) :
  let r := fst (Fetcher.fetch_historical_data f end_date s) in
  let s' := snd (Fetcher.fetch_historical_data f end_date s) in
  r <> Some []
  /\ (exists new,
         Fetcher.requests s' = new ++ Fetcher.requests s
         /\ (length new <= Z.to_nat (Fetcher.retry_max_attempts f))%nat)
  /\ (Fetcher.is_connected s = false -> r = None /\ s' = s).
Proof.
  cbv zeta. destruct (Fetcher.is_connected s) eqn:Hc.
  - rewrite (fetch_historical_data_connected f end_date s Hc). cbv zeta. cbn [fst snd].
    split; [|split; [|done]].
    + pose proof (fetch_historical_data_not_empty f end_date s) as Hne.
      by rewrite (fetch_historical_data_connected f end_date s Hc) in Hne.
    + unfold Fetcher._request_with_retry.
      destruct (_request_with_retry_from_log f
                  (Z.to_nat (Fetcher.retry_max_attempts f)) 1
                  (snd (Fetcher._enforce_rate_limit f s)))
        as ((new & Hn & Hlen & _) & _).
      exists new. split; [|done]. rewrite Hn. f_equal.
      unfold Fetcher._enforce_rate_limit, Fetcher.bind.
      by destruct (_ <? _).
  - unfold Fetcher.fetch_historical_data. rewrite Hc. cbn [negb fst snd].
    split; [done|]. split; [|done]. exists []. split; [done|simpl; lia].
Qed.

(** X11.  On a connected fetcher with at least one attempt configured, the
    first request of a call starts at the time the rate limiter stamps, and
    that is at least [rate_limit_wait] after the stamp of the call before,
    as long as the limiter's sleep does not end early: the first requests of
    two calls in a row are ten seconds apart, start to start. *)
Theorem fetch_historical_data_spacing (f : Fetcher.Fetcher) (end_date : Z)
    (s : Fetcher.State) :
  Fetcher.is_connected s = true ->
  0 <= Fetcher.delay (Fetcher.gateway f) (Fetcher.tick s) ->
  1 <= Fetcher.retry_max_attempts f ->
  let s' := snd (Fetcher.fetch_historical_data f end_date s) in
  Fetcher.last_request_time s + Fetcher.rate_limit_wait
  <= Fetcher.last_request_time s'
  /\ exists later finish,
       Fetcher.requests s'
       = later ++ (Fetcher.last_request_time s', finish) :: Fetcher.requests s.
Proof.
  intros Hc Hdelay Hmax. cbv zeta.
  rewrite (fetch_historical_data_connected f end_date s Hc). cbv zeta. cbn [snd].
  destruct (_enforce_rate_limit_spacing f s Hdelay) as (Hstamp & Hwait & Hreq).
  unfold Fetcher._request_with_retry.
  destruct (_request_with_retry_from_log f
              (Z.to_nat (Fetcher.retry_max_attempts f)) 1
              (snd (Fetcher._enforce_rate_limit f s)))
    as ((new & Hn & _ & Hfirst) & Hl & _).
  destruct Hfirst as (earlier & finish & ->); [lia|].
  rewrite Hl, Hstamp. split; [done|].
  exists earlier, finish. by rewrite Hn, Hreq, <- app_assoc.
Qed.

(** X11 on the gateway that takes four seconds for a request. *)
Lemma fetch_historical_data_spacing_witness :
  Fetcher.last_request_time
    (snd (Fetcher.fetch_historical_data Scenario.slow_fetcher
            (midnight Scenario.d2024_01_02)
            (Fetcher.initial (Scenario.noon_after Scenario.d2024_01_02))))
  + Fetcher.rate_limit_wait
  <= Fetcher.last_request_time
       (snd (Fetcher.fetch_historical_data Scenario.slow_fetcher
               (midnight Scenario.d2024_01_02)
               (snd (Fetcher.fetch_historical_data Scenario.slow_fetcher
                       (midnight Scenario.d2024_01_02)
                       (Fetcher.initial
                          (Scenario.noon_after Scenario.d2024_01_02)))))).
Proof.
  apply (fetch_historical_data_spacing Scenario.slow_fetcher
           (midnight Scenario.d2024_01_02)
           (snd (Fetcher.fetch_historical_data Scenario.slow_fetcher
                   (midnight Scenario.d2024_01_02)
                   (Fetcher.initial (Scenario.noon_after Scenario.d2024_01_02))))).
  - reflexivity.
  - vm_compute. discriminate.
  - vm_compute. discriminate.
Defined.

Lemma _determine_status_bars (f : Fetcher.Fetcher) (bar_count date : Z) :
  0 < bar_count -> Fetcher._determine_status f bar_count date <> "HOLIDAY".
Proof.
  intros Hpos. unfold Fetcher._determine_status.
  destruct (Z.eqb_spec bar_count 0); [lia|].
  destruct (bar_count =? _); [done|].
  destruct (existsb _ _); [|done].
  by destruct (MarketCalendar.get_day_type _ _).
Qed.

(** X12.  [fetch_and_validate_day] hands back a frame exactly when it
    reports success.  A success on a day the calendar has no session for is
    the empty frame with status HOLIDAY, without any request; a success on
    a trading day is a frame of at least one bar, the first of that day,
    that passed [validate_bar_data], and its status is not HOLIDAY. *)
Theorem fetch_and_validate_day_result (f : Fetcher.Fetcher) (symbol : string)
    (date : Z) (s : Fetcher.State) :
  let '(success, data, status) :=
    fst (Fetcher.fetch_and_validate_day f symbol date s) in
  let s' := snd (Fetcher.fetch_and_validate_day f symbol date s) in
  if success then
    if MarketCalendar.is_trading_day (Fetcher.market_calendar f) (date_of date)
    then
      exists b bs,
        data = Some (df_of_bars (b :: bs))
        /\ date_of (bar_date b) = date_of date
        /\ is_valid (validate_bar_data (Fetcher.data_validator f)
                       (df_of_bars (b :: bs)) (date_of date)) = true
        /\ status = Fetcher._determine_status f (len (df_of_bars (b :: bs))) date
        /\ status <> "HOLIDAY"
    else data = Some empty_frame /\ status = "HOLIDAY" /\ s' = s
  else data = None.
Proof.
  unfold Fetcher.fetch_and_validate_day.
  destruct (Fetcher.has_contract f symbol); cbn [negb]; [|done].
  destruct (MarketCalendar.is_trading_day (Fetcher.market_calendar f) (date_of date));
    cbn [negb]; [|done].
  unfold Fetcher.bind.
  pose proof (fetch_historical_data_not_empty f date s) as Hne.
  destruct (Fetcher.fetch_historical_data f date s) as [[[|b bs]|] s1];
    cbn [fst] in Hne; [done| |done].
  destruct (Z.eqb_spec (date_of (bar_date b)) (date_of date)) as [E|E];
    cbn [negb]; [|done].
  destruct (is_valid (validate_bar_data _ _ _)) eqn:Hv; [|done].
  cbn [Fetcher.ret fst]. exists b, bs. repeat split; try done.
  apply _determine_status_bars. unfold len. simpl. lia.
Qed.

End FetcherMore.

(** ** What an accepted frame of bars is like *)

Section ValidatorMore.

Import Validation.

Lemma count_nonneg (p : BarData -> bool) (df : DataFrame) : 0 <= count p df.
Proof. unfold count. lia. Qed.

Lemma count_none (p : BarData -> bool) (df : DataFrame) :
  count p df <= 0 -> Forall (fun b => p b = false) (rows df).
Proof.
  unfold count. induction (rows df) as [|b l IH]; simpl; [constructor|].
  destruct (p b) eqn:E; simpl; intros H; [lia|]. constructor; [done|]. by apply IH.
Qed.

Lemma report_none (what : string) (n : Z) : report what n = [] -> n <= 0.
Proof. unfold report. destruct (Z.gtb_spec n 0); [done|lia]. Qed.

Lemma cell_lt_false (a b : Q) : cell_lt (Some a) (Some b) = false -> (b <= a)%Q.
Proof.
  unfold cell_lt. intros H. apply Qle_bool_iff. by destruct (Qle_bool b a).
Qed.

(** A bar with all its cells, the prices in their order and nothing
    negative. *)
Definition well_formed (b : BarData) : Prop :=
  exists o h l c v a,
    bar_open b = Some o /\ bar_high b = Some h /\ bar_low b = Some l
    /\ bar_close b = Some c /\ bar_volume b = Some v /\ bar_average b = Some a
    /\ (l <= o)%Q /\ (o <= h)%Q /\ (l <= c)%Q /\ (c <= h)%Q
    /\ (0 <= l)%Q /\ (0 <= v)%Q /\ 0 <= bar_barCount b.

Lemma validate_individual_bars_valid (bars : list BarData) (r : ValidationResult) :
  validate_individual_bars (df_of_bars bars) = Returned r -> is_valid r = true ->
  Forall (fun b =>
            cell_lt (bar_high b) (bar_open b) = false
            /\ cell_lt (bar_high b) (bar_close b) = false
            /\ cell_lt (bar_open b) (bar_low b) = false
            /\ cell_lt (bar_close b) (bar_low b) = false
            /\ cell_neg (bar_low b) = false
            /\ cell_neg (bar_volume b) = false
            /\ (bar_barCount b <? 0) = false) bars.
Proof.
  unfold validate_individual_bars.
  destruct bars as [|b0 bars0]; [constructor|].
  set (bars := b0 :: bars0). set (df := df_of_bars bars).
  change (empty df) with false. cbv iota.
  change (negb (has_columns df ["high"; "low"; "open"; "close"; "volume"; "barCount"]))
    with false. cbv iota zeta.
  match goal with
  | |- context [match ?e with [] => _ | _ :: _ => _ end] =>
      destruct e as [|x l] eqn:E; [|by intros [= <-]]
  end.
  intros _ _.
  repeat match type of E with
         | _ ++ _ = [] => apply app_eq_nil in E as [?%report_none%count_none E]
         end.
  apply report_none, count_none in E.
  change (rows df) with bars in *.
  apply Forall_forall. intros b Hb.
  repeat match goal with
         | H : Forall _ bars |- _ =>
             rewrite Forall_forall in H; specialize (H b Hb); cbv beta in H
         end.
  repeat match goal with
         | H : (_ || _) = false |- _ => apply orb_false_elim in H as [H ?]
         end.
  done.
Qed.

Lemma validate_data_quality_valid (bars : list BarData) (r : ValidationResult) :
  validate_data_quality (df_of_bars bars) = Returned r -> is_valid r = true ->
  Forall (fun b =>
            is_nan (bar_open b) = false /\ is_nan (bar_high b) = false
            /\ is_nan (bar_low b) = false /\ is_nan (bar_close b) = false
            /\ is_nan (bar_volume b) = false /\ is_nan (bar_average b) = false)
    bars.
Proof.
  unfold validate_data_quality.
  destruct bars as [|b0 bars0]; [constructor|].
  set (bars := b0 :: bars0). set (df := df_of_bars bars).
  change (empty df) with false. cbv iota.
  change (negb (has_columns df ["close"; "open"; "high"; "low"])) with false.
  rewrite andb_false_r. cbv iota zeta.
  change (missing_values df)
    with [("open", count (fun b => is_nan (bar_open b)) df);
          ("high", count (fun b => is_nan (bar_high b)) df);
          ("low", count (fun b => is_nan (bar_low b)) df);
          ("close", count (fun b => is_nan (bar_close b)) df);
          ("volume", count (fun b => is_nan (bar_volume b)) df);
          ("average", count (fun b => is_nan (bar_average b)) df)].
  cbn [List.filter].
  repeat match goal with
         | |- context [count ?p df >? 0] =>
             let H := fresh "H" in
             destruct (Z.gtb_spec (count p df) 0) as [H|H%count_none];
             [by intros [= <-]|]
         end.
  intros _ _. change (rows df) with bars in *.
  apply Forall_forall. intros b Hb.
  repeat match goal with
         | H : Forall _ bars |- _ =>
             rewrite Forall_forall in H; specialize (H b Hb); cbv beta in H
         end.
  done.
Qed.

Lemma remove_dups_length (l : list Z) : (length (remove_dups l) <= length l)%nat.
Proof.
  induction l as [|x l IH]; simpl; [done|]. case_decide; simpl; lia.
Qed.

Lemma duplicated_sum_none (l : list Z) : duplicated_sum l <= 0 -> NoDup l.
Proof.
  unfold duplicated_sum. induction l as [|x l IH]; [constructor|].
  pose proof (remove_dups_length l). cbn [remove_dups]. case_decide as Hx.
  - cbn [length]. lia.
  - cbn [length]. intros H'. constructor; [done|]. apply IH. lia.
Qed.

Lemma is_monotonic_increasing_strict (l : list Z) :
  is_monotonic_increasing l = true -> NoDup l -> StronglySorted Z.lt l.
Proof.
  intros Hm Hnd.
  assert (StronglySorted Z.le l) as Hs.
  { apply Sorted_StronglySorted; [intros a b c; lia|].
    induction l as [|x [|y l] IH]; [constructor|repeat constructor|].
    cbn [is_monotonic_increasing] in Hm. apply andb_prop in Hm as [Hxy Hm].
    constructor; [apply IH; [done|by apply NoDup_cons in Hnd as [_ ?]]|].
    constructor. lia. }
  clear Hm. induction Hs as [|x l Hs IH Hx]; constructor.
  - apply IH. by apply NoDup_cons in Hnd as [_ ?].
  - apply NoDup_cons in Hnd as [Hnx _].
    rewrite Forall_forall in *. intros y Hy. specialize (Hx y Hy).
    assert (x <> y) by (by intros ->). lia.
Qed.

(** X13.  A list of bars that [validate_bar_data] accepts has all its cells
    filled, low <= open, close <= high in every bar, no negative price,
    volume or bar count, timestamps that strictly increase, and as many bars
    as the calendar expects for the day or as one of the configured
    early-close counts. *)
Theorem validate_bar_data_sound (v : DataValidator) (bars : list BarData)
    (day : Z) :
  is_valid (validate_bar_data v (df_of_bars bars) day) = true ->
  Forall well_formed bars
  /\ StronglySorted Z.lt (map bar_date bars)
  /\ (len (df_of_bars bars)
      = MarketCalendar.get_expected_bar_count (dv_market_calendar v) day
      \/ In (len (df_of_bars bars))
           (MarketCalendar.early_close (dv_expected_bars v))).
Proof.
  unfold validate_bar_data. set (df := df_of_bars bars).
  destruct (is_valid (validate_data_structure df)) eqn:Hs; cbn [negb];
    [|by rewrite Hs].
  destruct (validate_individual_bars df) as [br|msg] eqn:Hb; [|done].
  destruct (is_valid br) eqn:Hbv; cbn [negb]; [|done].
  destruct (is_valid (_validate_time_sequence df)) eqn:Ht; cbn [negb]; [|done].
  destruct (is_valid (_validate_market_calendar v df day)) eqn:Hc; cbn [negb];
    [|done].
  destruct (validate_data_quality df) as [qr|msg] eqn:Hq; [|done].
  destruct (is_valid qr) eqn:Hqv; cbn [negb]; [|done].
  intros _. split; [|split].
  - pose proof (validate_individual_bars_valid bars br Hb Hbv) as H1.
    pose proof (validate_data_quality_valid bars qr Hq Hqv) as H2.
    apply Forall_forall. intros b Hin.
    rewrite Forall_forall in H1, H2.
    destruct (H1 b Hin) as (Hho & Hhc & Hol & Hcl & Hl & Hv & Hn).
    destruct (H2 b Hin) as (No & Nh & Nl & Nc & Nv & Na). unfold well_formed.
    destruct (bar_open b) as [o|]; [|done]. destruct (bar_high b) as [h|]; [|done].
    destruct (bar_low b) as [l|]; [|done]. destruct (bar_close b) as [c|]; [|done].
    destruct (bar_volume b) as [vol|]; [|done].
    destruct (bar_average b) as [a|]; [|done].
    exists o, h, l, c, vol, a.
    repeat (split; [reflexivity|]).
    split; [by apply cell_lt_false|]. split; [by apply cell_lt_false|].
    split; [by apply cell_lt_false|]. split; [by apply cell_lt_false|].
    split; [apply cell_lt_false, Hl|]. split; [apply cell_lt_false, Hv|].
    lia.
  - unfold _validate_time_sequence in Ht.
    change (negb (has_column df "date")) with false in Ht. cbv iota zeta in Ht.
    change (rows df) with bars in Ht.
    destruct (Z.gtb_spec (duplicated_sum (map bar_date bars)) 0); [done|].
    destruct (is_monotonic_increasing (map bar_date bars)) eqn:Hm; [|done].
    apply is_monotonic_increasing_strict; [done|]. by apply duplicated_sum_none.
  - unfold _validate_market_calendar in Hc. cbv zeta in Hc.
    unfold MarketCalendar.get_expected_bar_count.
    destruct (Z.eqb_spec (len df)
                (MarketCalendar.expected_bars
                   (MarketCalendar.get_market_schedule (dv_market_calendar v) day)));
      [by left|].
    destruct (existsb (Z.eqb (len df))
                (MarketCalendar.early_close (dv_expected_bars v))) eqn:He; [|done].
    right. apply existsb_exists in He as (m & Hm & ->%Z.eqb_eq). done.
Qed.

(** X13 on the 390 bars of a regular day. *)
Lemma validate_bar_data_sound_witness :
  Forall well_formed (Scenario.bars_of Scenario.d2024_01_02 390)
  /\ StronglySorted Z.lt (map bar_date (Scenario.bars_of Scenario.d2024_01_02 390))
  /\ (len (df_of_bars (Scenario.bars_of Scenario.d2024_01_02 390))
      = MarketCalendar.get_expected_bar_count
          (dv_market_calendar Scenario.validator) Scenario.d2024_01_02
      \/ In (len (df_of_bars (Scenario.bars_of Scenario.d2024_01_02 390)))
           (MarketCalendar.early_close (dv_expected_bars Scenario.validator))).
Proof.
  apply (validate_bar_data_sound Scenario.validator
           (Scenario.bars_of Scenario.d2024_01_02 390) Scenario.d2024_01_02).
  vm_compute. reflexivity.
Defined.

End ValidatorMore.

(** ** More on the market calendar *)

Section CalendarMore.

Import MarketCalendar.

Lemma is_trading_day_session (cal : MarketCalendar) (day : Z) :
  is_trading_day cal day
  = match market_calendar cal with
    | None => true
    | Some schedule => has_session schedule day
    end.
Proof.
  unfold is_trading_day, get_market_schedule, has_session.
  destruct (market_calendar cal) as [schedule|]; [|done].
  destruct (schedule day) as [[open close]|]; [|done].
  by repeat case_match.
Qed.

(** X14.  The planner's dates are trading days of the range asked for, and
    with a calendar that loaded they are all of them.  Without one, every
    day counts as a trading day, but the dates are the Mondays to Fridays
    only. *)
Theorem trading_dates_trading_days (cal : MarketCalendar) (a b d : Z) :
  (d ∈ get_trading_dates cal a b -> a <= d <= b /\ is_trading_day cal d = true)
  /\ (market_calendar cal <> None -> a <= d <= b -> is_trading_day cal d = true ->
      d ∈ get_trading_dates cal a b)
  /\ (market_calendar cal = None ->
      is_trading_day cal d = true
      /\ (d ∈ get_trading_dates cal a b <-> a <= d <= b /\ (d + 3) mod 7 < 5)).
Proof.
  rewrite trading_dates_elem, is_trading_day_session.
  destruct (market_calendar cal) as [schedule|].
  - split; [tauto|]. split; [tauto|done].
  - split; [tauto|]. split; [done|]. intros _. split; [done|].
    unfold is_business_day. rewrite Z.ltb_lt. tauto.
Qed.

(** X15.  The calendar check of the validator and
    [MarketCalendar.validate_bar_count] decide alike when they read the same
    [expected_bars] configuration; both accept a configured early-close
    count on any day, whatever the calendar expects for it. *)
Theorem calendar_checks_agree (v : Validation.DataValidator)
    (df : Validation.DataFrame) (day : Z) :
  Validation.dv_expected_bars v
  = expected_bars_config (Validation.dv_market_calendar v) ->
  Validation.is_valid (Validation._validate_market_calendar v df day)
  = validate_bar_count (Validation.dv_market_calendar v) day (Validation.len df)
  /\ (In (Validation.len df) (early_close (Validation.dv_expected_bars v)) ->
      Validation.is_valid (Validation._validate_market_calendar v df day) = true).
Proof.
  intros Hcfg.
  unfold Validation._validate_market_calendar, validate_bar_count,
    get_expected_bar_count.
  cbv zeta. rewrite <- Hcfg.
  destruct (Validation.len df =? _); [done|].
  destruct (existsb _ _) eqn:He; [done|]. split; [done|].
  intros Hin. assert (existsb (Z.eqb (Validation.len df))
                        (early_close (Validation.dv_expected_bars v)) = true);
    [|congruence].
  apply existsb_exists. exists (Validation.len df). by rewrite Z.eqb_refl.
Qed.

(** X15 for 210 bars on a regular day. *)
Lemma calendar_checks_agree_witness :
  Validation.is_valid
    (Validation._validate_market_calendar Scenario.validator
       (Validation.df_of_bars (Scenario.bars_of Scenario.d2024_01_02 210))
       Scenario.d2024_01_02)
  = validate_bar_count (Validation.dv_market_calendar Scenario.validator)
      Scenario.d2024_01_02
      (Validation.len
         (Validation.df_of_bars (Scenario.bars_of Scenario.d2024_01_02 210))).
Proof.
  refine (proj1 (calendar_checks_agree Scenario.validator
                   (Validation.df_of_bars (Scenario.bars_of Scenario.d2024_01_02 210))
                   Scenario.d2024_01_02 _)).
  reflexivity.
Defined.

End CalendarMore.

(** ** More on the date processor *)

Section ProcessorMore.

Import Validation BarStatus DateProcessor.

Lemma final_status_not_error (bar_count expected : Z) :
  final_status bar_count expected <> ERROR.
Proof. unfold final_status. by repeat case_match. Qed.

(** X16.  A call of [process_date] without a stop request writes exactly
    one row, for its symbol and its date.  It returns [True] exactly when
    that row is not an ERROR row, and then it has saved the day's bars, as
    many as the row says; otherwise it saves nothing and the row says 0
    bars.  With a stop request it does nothing at all. *)
Theorem process_date_outcome (dp : DateProcessor) (symbol : string) (date : Z)
    (w : World) :
  process_date dp symbol date true w = (false, w)
  /\ let ok := fst (process_date dp symbol date false w) in
     let w' := snd (process_date dp symbol date false w) in
     exists record,
       writes w' = mkWrite symbol record (files w) (files w') :: writes w
       /\ files w' = update_bar_status (files w) symbol record
       /\ BarStatus.date record = date
       /\ (ok = true <-> status record <> ERROR)
       /\ (if ok then
             exists df,
               raw_files w' = <[(symbol, date_of date) := df]> (raw_files w)
               /\ actual_bars record = len df
           else raw_files w' = raw_files w /\ actual_bars record = 0).
Proof.
  split; [done|]. cbv zeta. unfold process_date.
  destruct (Fetcher.fetch_and_validate_day _ _ _ _) as [[[success df] st] fs].
  destruct success, df as [df|];
    try destruct (save_error dp symbol (date_of date)); cbn [fst snd];
    eexists; (split; [reflexivity|]); (split; [reflexivity|]);
    (split; [reflexivity|]); cbn [status actual_bars error_record];
    try (split; [by split|done]).
  split; [split; [intros _; apply final_status_not_error | done]|].
  by eexists.
Qed.

Lemma fetch_and_validate_day_frame (f : Fetcher.Fetcher) (symbol : string)
    (date : Z) (s : Fetcher.State) (df : DataFrame) (st : string)
    (s' : Fetcher.State) :
  Fetcher.fetch_and_validate_day f symbol date s = (true, Some df, st, s') ->
  (MarketCalendar.is_trading_day (Fetcher.market_calendar f) (date_of date) = false
   /\ Fetcher.has_contract f symbol = true /\ df = empty_frame)
  \/ (MarketCalendar.is_trading_day (Fetcher.market_calendar f) (date_of date) = true
      /\ 0 < len df).
Proof.
  unfold Fetcher.fetch_and_validate_day.
  destruct (Fetcher.has_contract f symbol); cbn [negb]; [|done].
  destruct (MarketCalendar.is_trading_day (Fetcher.market_calendar f) (date_of date));
    cbn [negb]; [|intros [= <- _ _]; by left].
  unfold Fetcher.bind.
  pose proof (fetch_historical_data_not_empty f date s) as Hne.
  destruct (Fetcher.fetch_historical_data f date s) as [[[|b bs]|] s1];
    cbn [fst] in Hne; [done| |done].
  destruct (negb _); [done|]. destruct (is_valid _); [|done].
  intros [= <- _ _]. right. split; [done|]. unfold len. simpl. lia.
Qed.

Lemma holiday_expected_bar_count (cal : MarketCalendar.MarketCalendar) (day : Z) :
  MarketCalendar.is_trading_day cal day = false ->
  MarketCalendar.get_expected_bar_count cal day
  = MarketCalendar.holiday (MarketCalendar.expected_bars_config cal).
Proof.
  unfold MarketCalendar.is_trading_day, MarketCalendar.get_expected_bar_count,
    MarketCalendar.get_market_schedule.
  destruct (MarketCalendar.market_calendar cal) as [schedule|]; [|done].
  destruct (schedule day) as [[open close]|]; [|done].
  by repeat case_match.
Qed.

(** X17.  When the processor and its fetcher share one calendar and the
    configured holiday count is 0, [process_date] never writes a HOLIDAY (or
    PENDING) row: a day without a session, its empty file saved, is recorded
    COMPLETE with 0 bars expected and 0 received. *)
Theorem process_date_never_holiday (dp : DateProcessor) (symbol : string)
    (date : Z) (w : World) :
  market_calendar dp = Fetcher.market_calendar (fetcher dp) ->
  MarketCalendar.holiday (MarketCalendar.expected_bars_config (market_calendar dp))
  = 0 ->
  let w' := snd (process_date dp symbol date false w) in
  exists record,
    writes w' = mkWrite symbol record (files w) (files w') :: writes w
    /\ status record <> HOLIDAY /\ status record <> PENDING
    /\ (MarketCalendar.is_trading_day (market_calendar dp) (date_of date) = false ->
        status record = ERROR
        \/ record = mkRecord date COMPLETE 0 0 None None 0).
Proof.
  intros Hcal Hcfg. cbv zeta. unfold process_date.
  destruct (Fetcher.fetch_and_validate_day _ _ _ _) as [[[success df] st] fs] eqn:E.
  destruct success, df as [df|];
    try destruct (save_error dp symbol (date_of date)); cbn [snd];
    eexists; (split; [reflexivity|]); cbn [status error_record];
    try (split; [done|split; [done|by left]]).
  apply fetch_and_validate_day_frame in E as [(Hday & _ & ->)|[Htrading Hlen]].
  - rewrite <- Hcal in Hday.
    rewrite (holiday_expected_bar_count _ _ Hday), Hcfg.
    change (len empty_frame) with 0. change (final_status 0 0) with COMPLETE.
    split; [done|]. split; [done|]. intros _. by right.
  - unfold final_status.
    destruct (len df =? _) eqn:Heq.
    + split; [done|]. split; [done|]. intros Hday. congruence.
    + destruct (Z.gtb_spec (len df) 0); [|lia].
      split; [done|]. split; [done|]. intros Hday. congruence.
Qed.

(** X17 on New Year's Day 2024. *)
Lemma process_date_never_holiday_witness :
  exists record,
    writes (snd (process_date (Scenario.processor_over Scenario.no_data_replies
                                 Scenario.second)
                   "X" (midnight Scenario.d2024_01_01) false
                   Scenario.partial_world))
    = mkWrite "X" record (files Scenario.partial_world)
        (files (snd (process_date (Scenario.processor_over Scenario.no_data_replies
                                     Scenario.second)
                       "X" (midnight Scenario.d2024_01_01) false
                       Scenario.partial_world)))
      :: writes Scenario.partial_world
    /\ status record <> HOLIDAY /\ status record <> PENDING
    /\ (MarketCalendar.is_trading_day
          (market_calendar (Scenario.processor_over Scenario.no_data_replies
                              Scenario.second))
          (date_of (midnight Scenario.d2024_01_01)) = false ->
        status record = ERROR
        \/ record = mkRecord (midnight Scenario.d2024_01_01) COMPLETE 0 0 None None 0).
Proof.
  apply (process_date_never_holiday
           (Scenario.processor_over Scenario.no_data_replies Scenario.second)
           "X" (midnight Scenario.d2024_01_01) Scenario.partial_world);
    reflexivity.
Defined.

End ProcessorMore.

(** ** The counters of a job and the rows it writes *)

Section SchedulerMore.

Import BarStatus DateProcessor FetcherJob.

Local Arguments process_date : simpl never.
Local Arguments get_dates_to_process : simpl never.
Local Arguments SmartRetry.record_failure : simpl never.
Local Arguments SmartRetry.record_success : simpl never.

(** The rows of a log that are not ERROR rows. *)
Definition ok_rows (log : list LedgerWrite) : Z :=
  Z.of_nat
    (length
       (List.filter
          (fun lw => negb (status_eqb (BarStatus.status (lw_record lw)) BarStatus.ERROR))
          log)).

(** The dates of the rows of a log, oldest write first. *)
Definition row_dates (log : list LedgerWrite) : list Z :=
  rev (map (fun lw => BarStatus.date (lw_record lw)) log).

Lemma process_date_row (dp : DateProcessor) (sym : string) (dt : Z) (sd : bool)
    (w : World) :
  let ok := fst (process_date dp sym dt sd w) in
  let w' := snd (process_date dp sym dt sd w) in
  (ok = false /\ writes w' = writes w)
  \/ exists before after record,
       writes w' = mkWrite sym record before after :: writes w
       /\ BarStatus.date record = dt
       /\ ok = negb (status_eqb (BarStatus.status record) BarStatus.ERROR).
Proof.
  cbv zeta. unfold process_date. destruct sd; [by left|]. right.
  destruct (Fetcher.fetch_and_validate_day _ _ _ _) as [[[success df] st] fs].
  destruct success, df as [df|];
    try destruct (save_error dp sym (date_of dt)); cbn [fst snd];
    eexists _, _, _; (split; [reflexivity|]); (split; [reflexivity|]);
    cbn [BarStatus.status error_record]; try done.
  unfold final_status. by repeat case_match.
Qed.

Lemma await_rows (job : DataFetcherJob) (sym : string) (dt : Z) (ev : Event)
    (st : State) :
  let res := fst (await_process_date job sym dt ev st) in
  let st' := snd (await_process_date job sym dt ev st) in
  exists new,
    writes (world st') = new ++ writes (world st)
    /\ (new = [] \/ exists lw, new = [lw] /\ lw_symbol lw = sym
                               /\ BarStatus.date (lw_record lw) = dt)
    /\ ok_rows new = match res with Some (true, _) => 1 | _ => 0 end.
Proof.
  cbv zeta. unfold await_process_date.
  destruct (attempt ev); cbn [fst snd];
    try (exists []; split; [done|]; split; [by left|done]).
  pose proof (process_date_row (date_processor job) sym dt (shutdown_requested st)
                (world st)) as H. cbv zeta in H.
  destruct (process_date _ _ _ _ _) as [success w]. cbn [fst snd world set_world] in *.
  destruct H as [[-> Hw] | (before & after & record & Hw & Hd & ->)].
  - exists []. split; [done|]. split; [by left|done].
  - exists [mkWrite sym record before after]. split; [done|].
    split; [right; by eexists|].
    unfold ok_rows. cbn [List.filter lw_record].
    by destruct (status_eqb (BarStatus.status record) BarStatus.ERROR).
Qed.

Lemma ok_rows_app (l1 l2 : list LedgerWrite) :
  ok_rows (l1 ++ l2) = ok_rows l1 + ok_rows l2.
Proof. unfold ok_rows. rewrite List.filter_app, length_app. lia. Qed.

Lemma ok_rows_nonneg (l : list LedgerWrite) : 0 <= ok_rows l.
Proof. unfold ok_rows. lia. Qed.

(** What the date loop has done when it ends: the rows it wrote, the
    counters it moved. *)
Definition loop_effect (sym : string) (dates : list Z) (p p' : JobProgress)
    (st st' : State) : Prop :=
  exists new,
    writes (world st') = new ++ writes (world st)
    /\ completed_dates p' = completed_dates p + ok_rows new
    /\ error_dates p <= error_dates p'
    /\ completed_dates p' + error_dates p'
       <= completed_dates p + error_dates p + Z.of_nat (length dates)
    /\ total_dates p' = total_dates p
    /\ Forall (fun lw => lw_symbol lw = sym) new
    /\ row_dates new `sublist_of` dates.

Lemma loop_effect_stop (sym : string) (dates : list Z) (p p' : JobProgress)
    (st st' : State) :
  writes (world st') = writes (world st) ->
  completed_dates p' = completed_dates p ->
  total_dates p' = total_dates p ->
  error_dates p <= error_dates p' <= error_dates p + Z.of_nat (length dates) ->
  loop_effect sym dates p p' st st'.
Proof.
  intros Hw Hc Ht He. exists []. change (ok_rows []) with 0.
  split; [done|]. split; [lia|]. split; [lia|]. split; [lia|]. split; [done|].
  split; [constructor|apply sublist_nil_l].
Qed.

Lemma loop_effect_step (sym : string) (dt : Z) (rest : list Z)
    (p p1 p' : JobProgress) (st st1 st' : State) (new : list LedgerWrite) :
  writes (world st1) = new ++ writes (world st) ->
  (new = [] \/ exists lw, new = [lw] /\ lw_symbol lw = sym
                          /\ BarStatus.date (lw_record lw) = dt) ->
  completed_dates p1 = completed_dates p + ok_rows new ->
  error_dates p <= error_dates p1 ->
  completed_dates p1 + error_dates p1 <= completed_dates p + error_dates p + 1 ->
  total_dates p1 = total_dates p ->
  loop_effect sym rest p1 p' st1 st' ->
  loop_effect sym (dt :: rest) p p' st st'.
Proof.
  intros Hw Hnew Hc He Hsum Ht (new' & Hw' & Hc' & He' & Hsum' & Ht' & Hsym & Hsub).
  exists (new' ++ new). rewrite Hw', Hw, app_assoc, ok_rows_app.
  repeat split; try lia.
  - cbn [length]. lia.
  - apply Forall_app. split; [done|].
    destruct Hnew as [->|(lw & -> & Hs & _)]; repeat constructor; done.
  - unfold row_dates in *. rewrite map_app, rev_app_distr.
    destruct Hnew as [->|(lw & -> & _ & Hd)]; simpl.
    + by apply sublist_cons.
    + rewrite Hd. by apply sublist_skip.
Qed.

Lemma process_dates_progress (job : DataFetcherJob) (sym : string)
    (dates : list Z) :
  forall p st,
    loop_effect sym dates p (fst (process_dates job sym dates p st)) st
      (snd (process_dates job sym dates p st)).
Proof.
  induction dates as [|dt rest IH]; intros p st.
  - apply loop_effect_stop; simpl; done || lia.
  - cbn [process_dates].
    set (ev := events job (turn st)).
    set (st1 := signal (signal_before ev) (next_turn st)).
    assert (writes (world st1) = writes (world st)) as Hw1 by done.
    clearbody st1 ev.
    destruct (shutdown_requested st1);
      [apply loop_effect_stop; cbn [fst snd]; done || lia|].
    destruct (SmartRetry.should_skip_symbol (retry_manager st1) sym);
      [apply loop_effect_stop; cbn [fst snd]; done || lia|].
    destruct (SmartRetry.can_retry_date (retry_manager st1) sym (date_of dt));
      cbn [negb].
    2: { eapply (loop_effect_step sym dt rest p
                   (add_error (set_current_date (Some dt) p)) _ st st1 _ []);
           [done|by left|..|apply IH]; change (ok_rows []) with 0;
           cbn [completed_dates error_dates total_dates add_error set_current_date];
           try lia. }
    pose proof (await_rows job sym dt ev (signal (signal_at_call ev) st1))
      as (new & Hw & Hnew & Hok). cbv zeta in *.
    destruct (await_process_date job sym dt ev (signal (signal_at_call ev) st1))
      as [[[success msg]|] st2]; cbn [fst snd] in Hw, Hok.
    all: cbn [world signal] in Hw; rewrite Hw1 in Hw.
    2: { eapply (loop_effect_step sym dt rest p p _ st st2 _ new);
           [done|done|lia|lia|lia|done|].
         apply loop_effect_stop;
           cbn [fst snd completed_dates error_dates total_dates set_current_date];
           done || lia. }
    destruct success; cbv iota zeta beta;
      match goal with |- context [shutdown_requested ?s] =>
        destruct (shutdown_requested s)
      end;
      match goal with
      | |- loop_effect _ _ _ (fst (process_dates _ _ _ ?p1 ?s3)) _ _ =>
          eapply (loop_effect_step sym dt rest p p1 _ st s3 _ new);
          [exact Hw|done|..|apply IH]
      | |- loop_effect _ _ _ (fst (?p1, ?s3)) _ _ =>
          eapply (loop_effect_step sym dt rest p p1 _ st s3 _ new);
          [exact Hw|done|..|apply loop_effect_stop; cbn [fst snd]; done || lia]
      end;
      cbn [completed_dates error_dates total_dates add_error add_completed
             set_current_date]; try lia.
Qed.

Lemma _process_symbol_effect (job : DataFetcherJob) (sym : string) (st : State) :
  let plan := fst (get_dates_to_process (date_processor job) sym (world st)) in
  let '(worked, progress, st') := _process_symbol job sym st in
  match progress with
  | Some p =>
      worked = true /\ plan <> []
      /\ loop_effect sym plan
           (mkProgress sym (Z.of_nat (length plan)) 0 0 None RUNNING) p st st'
  | None => worked = false /\ writes (world st') = writes (world st)
  end.
Proof.
  cbv zeta. unfold _process_symbol.
  destruct (SmartRetry.should_skip_symbol (retry_manager st) sym); [done|].
  destruct (get_dates_to_process_plan (date_processor job) sym (world st))
    as (_ & Hl & _).
  destruct (get_dates_to_process _ _ _) as [dates w]. cbn [fst snd] in *.
  destruct dates as [|dt rest]; [done|].
  pose proof (process_dates_progress job sym (dt :: rest)
                (mkProgress sym (Z.of_nat (length (dt :: rest))) 0 0 None RUNNING)
                (set_world w st)) as (new & Hw & Hrest).
  destruct (process_dates _ _ _ _ _) as [p st']. cbn [fst snd] in *.
  split; [done|]. split; [done|]. exists new.
  cbn [world set_world] in Hw. rewrite Hl in Hw. split; [done|]. exact Hrest.
Qed.

(** X18.  The progress of a job counts each planned date at most once:
    [total_dates] is the length of the plan, [completed_dates] plus
    [error_dates] stays within it, and [completed_dates] is the number of
    rows other than ERROR rows that the job wrote to the ledger.  Without a
    job nothing is written. *)
Theorem _process_symbol_counters (job : DataFetcherJob) (sym : string)
    (st : State) :
  let plan := fst (get_dates_to_process (date_processor job) sym (world st)) in
  let '(worked, progress, st') := _process_symbol job sym st in
  match progress with
  | Some p =>
      worked = true
      /\ total_dates p = Z.of_nat (length plan) /\ 0 < total_dates p
      /\ 0 <= completed_dates p /\ 0 <= error_dates p
      /\ completed_dates p + error_dates p <= total_dates p
      /\ exists new,
           writes (world st') = new ++ writes (world st)
           /\ completed_dates p = ok_rows new
  | None => worked = false /\ writes (world st') = writes (world st)
  end.
Proof.
  pose proof (_process_symbol_effect job sym st) as H. cbv zeta in *.
  destruct (_process_symbol job sym st) as [[worked [p|]] st']; [|done].
  destruct H as (Hwk & Hplan & new & Hw & Hc & He & Hsum & Ht & _).
  cbn [completed_dates error_dates total_dates] in *.
  pose proof (ok_rows_nonneg new).
  split; [done|]. split; [done|]. split.
  { rewrite Ht. destruct (fst _); [done|]. cbn [length]. lia. }
  split; [lia|]. split; [lia|]. split; [lia|].
  exists new. split; [done|lia].
Qed.

(** X19.  The rows a job writes are rows of its symbol for dates of its
    plan, in the order of the plan and at most one for a date. *)
Theorem _process_symbol_rows (job : DataFetcherJob) (sym : string) (st : State) :
  let plan := fst (get_dates_to_process (date_processor job) sym (world st)) in
  exists new,
    writes (world (snd (_process_symbol job sym st))) = new ++ writes (world st)
    /\ Forall (fun lw => lw_symbol lw = sym) new
    /\ row_dates new `sublist_of` plan
    /\ NoDup (row_dates new).
Proof.
  pose proof (_process_symbol_effect job sym st) as H. cbv zeta in *.
  destruct (get_dates_to_process_plan (date_processor job) sym (world st))
    as (_ & _ & Hnd & _).
  assert (NoDup (fst (get_dates_to_process (date_processor job) sym (world st))))
    as Hplan.
  { eapply NoDup_fmap_1. exact Hnd. }
  destruct (_process_symbol job sym st) as [[worked [p|]] st']; cbn [snd].
  - destruct H as (_ & _ & new & Hw & _ & _ & _ & _ & Hsym & Hsub).
    exists new. split; [done|]. split; [done|]. split; [done|].
    by eapply sublist_NoDup.
  - destruct H as [_ Hw]. exists []. split; [done|]. split; [constructor|].
    split; [apply sublist_nil_l|constructor].
Qed.













End SchedulerMore.

(** ** The summaries of the ledger *)

Section LedgerSummary.

Import BarStatus.

Local Abbreviation day r := (date_of (date r)).

Lemma filter_length_perm {A : Type} (f : A -> bool) (l l' : list A) :
  Permutation l l' -> length (List.filter f l) = length (List.filter f l').
Proof.
  induction 1 as [|x l l' _ IH|x y l|l l' l'' _ IH1 _ IH2]; simpl;
    [done| |by destruct (f x), (f y)|congruence].
  destruct (f x); simpl; by rewrite IH.
Qed.

Lemma filter_length_disjoint {A : Type} (f g : A -> bool) (l : list A) :
  (forall x, f x = true -> g x = false) ->
  (length (List.filter f l) + length (List.filter g l) <= length l)%nat.
Proof.
  intros Hfg. induction l as [|x l IH]; simpl; [done|].
  destruct (f x) eqn:E; [rewrite (Hfg x E)|destruct (g x)]; simpl; lia.
Qed.

Lemma leading_errors_bounds (l : list BarStatusRecord) :
  0 <= leading_errors l
  <= Z.of_nat (length (List.filter (fun r => status_eqb (status r) ERROR) l)).
Proof.
  induction l as [|r l IH]; simpl; [lia|].
  destruct (status_eqb (status r) ERROR); simpl; lia.
Qed.

Lemma leading_errors_all (l : list BarStatusRecord) :
  leading_errors l = Z.of_nat (length l)
  <-> length (List.filter (fun r => status_eqb (status r) ERROR) l) = length l.
Proof.
  induction l as [|r l IH]; simpl; [done|].
  pose proof (leading_errors_bounds l).
  pose proof (filter_length_le (fun r => status_eqb (status r) ERROR) l).
  destruct (status_eqb (status r) ERROR); simpl; lia.
Qed.

(** X20.  The counts of the ledger summary: [total_dates] is the number of
    rows that parse, [completed] and [errors] count different rows, and the
    consecutive failures are some of the ERROR rows, all of them exactly
    when every row is an ERROR row. *)
Theorem summary_counts (files : Files) (symbol : string) :
  let summary := get_symbol_summary files symbol in
  let failures := get_consecutive_failures files symbol in
  total_dates summary = Z.of_nat (length (load_bar_status files symbol))
  /\ 0 <= completed summary /\ 0 <= errors summary
  /\ completed summary + errors summary <= total_dates summary
  /\ 0 <= failures <= errors summary
  /\ (failures = total_dates summary <-> errors summary = total_dates summary).
Proof.
  cbv zeta. unfold get_symbol_summary, get_consecutive_failures.
  set (l := load_bar_status files symbol).
  pose proof (leading_errors_bounds (sort_by date_ge l)) as Hb.
  pose proof (leading_errors_all (sort_by date_ge l)) as Ha.
  rewrite (filter_length_perm _ _ _ (sort_by_perm date_ge l)) in Hb, Ha.
  rewrite (Permutation_length (sort_by_perm date_ge l)) in Ha.
  pose proof (filter_length_disjoint (fun r => is_completed (status r))
                (fun r => status_eqb (status r) ERROR) l) as Hd.
  destruct l as [|r l'] eqn:E; [simpl in *; lia|]. rewrite <- E in *.
  cbn [total_dates completed errors].
  assert (forall x : BarStatusRecord,
             is_completed (status x) = true -> status_eqb (status x) ERROR = false)
    as Hfg by (intros x; by destruct (status x)).
  specialize (Hd Hfg). lia.
Qed.

(** The head of a sorted list is one of its elements and comes before all
    of them. *)
Lemma sort_by_head {A : Type} (le : A -> A -> bool) (l : list A) (h : A)
    (t : list A) :
  (forall a b c, le a b = true -> le b c = true -> le a c = true) ->
  (forall a b, le a b = true \/ le b a = true) ->
  sort_by le l = h :: t ->
  In h l /\ forall x, In x l -> le h x = true.
Proof.
  intros Htrans Htotal E.
  pose proof (sort_by_perm le l) as Hp.
  pose proof (sort_by_sorted le Htotal l) as Hs.
  rewrite E in Hp, Hs.
  apply Sorted_StronglySorted in Hs; [|exact Htrans].
  apply StronglySorted_inv in Hs as [_ Hall].
  split; [eapply Permutation_in; [exact Hp|by left]|].
  intros x Hx. eapply Permutation_in in Hx; [|symmetry; exact Hp].
  destruct Hx as [<-|Hx]; [by destruct (Htotal h h)|].
  rewrite Forall_forall in Hall. apply Hall, list_elem_of_In, Hx.
Qed.

Lemma sort_by_nonempty {A : Type} (le : A -> A -> bool) (l : list A) :
  l <> [] -> exists h t, sort_by le l = h :: t.
Proof.
  intros Hl. pose proof (sort_by_perm le l) as Hp.
  destruct (sort_by le l) as [|h t]; [|by eexists _, _].
  apply Permutation_nil in Hp. congruence.
Qed.

(** X21.  [last_update] of the ledger summary is the oldest day with a
    COMPLETE or EARLY_CLOSE row when there is one, otherwise the newest day
    of the ledger; it is missing only when no row parses. *)
Theorem summary_last_update (files : Files) (symbol : string) :
  match last_update (get_symbol_summary files symbol) with
  | None => load_bar_status files symbol = []
  | Some d =>
      if decide (get_completed_dates files symbol = ∅) then
        (exists r, r ∈ load_bar_status files symbol /\ day r = d)
        /\ forall r, r ∈ load_bar_status files symbol -> day r <= d
      else
        d ∈ get_completed_dates files symbol
        /\ forall d', d' ∈ get_completed_dates files symbol -> d <= d'
  end.
Proof.
  unfold get_symbol_summary.
  set (l := load_bar_status files symbol).
  destruct l as [|r0 l0] eqn:El; [done|]. rewrite <- El. cbn [last_update].
  set (good := List.filter (fun r => is_completed (status r)) l).
  assert (forall d, d ∈ get_completed_dates files symbol
                    <-> exists r, In r good /\ day r = d) as Hgood.
  { intros d. unfold get_completed_dates. fold l.
    rewrite elem_of_list_to_set, list_elem_of_fmap. unfold good.
    split.
    - intros (r & -> & Hr). apply list_elem_of_filter in Hr as [Hc Hr].
      exists r. split; [|done]. apply filter_In. split; [by apply list_elem_of_In|done].
    - intros (r & Hr & <-). apply filter_In in Hr as [Hr Hc].
      exists r. split; [done|]. apply list_elem_of_filter. split; [done|].
      by apply list_elem_of_In. }
  destruct good as [|g good'] eqn:Eg.
  - destruct (sort_by_nonempty date_ge l) as (h & t & E); [by rewrite El|].
    rewrite E. cbn [head option_map].
    apply sort_by_head in E as [Hh Hmax];
      [|unfold date_ge; intros; lia|unfold date_ge; intros; lia].
    case_decide as Hc.
    + split; [exists h; split; [by apply list_elem_of_In|done]|].
      intros r Hr. apply list_elem_of_In, Hmax in Hr.
      unfold date_ge in Hr. apply date_of_mono. lia.
    + exfalso. apply Hc. apply set_eq. intros d. rewrite Hgood.
      split; [by intros (r & [] & _)|by intros ?%elem_of_empty].
  - rewrite <- Eg in *.
    destruct (sort_by_nonempty date_le good) as (h & t & E); [by rewrite Eg|].
    rewrite E. cbn [head option_map].
    apply sort_by_head in E as [Hh Hmin];
      [|unfold date_le; intros; lia|unfold date_le; intros; lia].
    case_decide as Hc.
    + exfalso. assert (day h ∈ get_completed_dates files symbol) as Hin
        by (apply Hgood; by exists h).
      rewrite Hc in Hin. by apply elem_of_empty in Hin.
    + split; [apply Hgood; by exists h|].
      intros d' (r & Hr & <-)%Hgood. apply Hmin in Hr.
      unfold date_le in Hr. apply date_of_mono. lia.
Qed.

(** Two sorted arrangements of the same elements are the same list when the
    order tells the elements apart. *)
Lemma sorted_perm_eq {A : Type} (R : A -> A -> Prop) (l1 : list A) :
  forall l2,
    StronglySorted R l1 -> StronglySorted R l2 -> Permutation l1 l2 ->
    (forall a b, In a l1 -> In b l1 -> R a b -> R b a -> a = b) ->
    l1 = l2.
Proof.
  induction l1 as [|x l1 IH]; intros l2 H1 H2 Hp Hanti.
  - by apply Permutation_nil in Hp.
  - destruct l2 as [|y l2]; [by apply Permutation_sym, Permutation_nil in Hp|].
    apply StronglySorted_inv in H1 as [H1 Hx].
    apply StronglySorted_inv in H2 as [H2 Hy].
    rewrite Forall_forall in Hx, Hy.
    assert (x = y) as ->.
    { assert (In x (y :: l2)) as [->|Hxin]
        by (eapply Permutation_in; [exact Hp|by left]); [done|].
      assert (In y (x :: l1)) as [->|Hyin]
        by (eapply Permutation_in; [symmetry; exact Hp|by left]); [done|].
      apply Hanti; [by left|by right| |].
      - apply Hx, list_elem_of_In, Hyin.
      - apply Hy, list_elem_of_In, Hxin. }
    f_equal. apply IH; [done|done|by eapply Permutation_cons_inv|].
    intros a b Ha Hb. apply Hanti; by right.
Qed.

Lemma sort_by_perm_eq {A : Type} (le : A -> A -> bool) (l1 l2 : list A) :
  (forall a b c, le a b = true -> le b c = true -> le a c = true) ->
  (forall a b, le a b = true \/ le b a = true) ->
  Permutation l1 l2 ->
  (forall a b, In a l1 -> In b l1 -> le a b = true -> le b a = true -> a = b) ->
  sort_by le l1 = sort_by le l2.
Proof.
  intros Htrans Htotal Hp Hanti.
  apply (sorted_perm_eq (fun a b => le a b = true)).
  - apply Sorted_StronglySorted; [exact Htrans|by apply sort_by_sorted].
  - apply Sorted_StronglySorted; [exact Htrans|by apply sort_by_sorted].
  - by rewrite !sort_by_perm.
  - intros a b Ha Hb. apply Hanti; eapply Permutation_in; try apply sort_by_perm; done.
Qed.

Lemma insert_by_last {A : Type} (le : A -> A -> bool) (x z : A) (l : list A) :
  le x z = true -> insert_by le x (l ++ [z]) = insert_by le x l ++ [z].
Proof.
  intros Hxz. induction l as [|y l IH]; simpl; [by rewrite Hxz|].
  destruct (le x y); [done|]. by rewrite IH.
Qed.

Lemma sort_by_last {A : Type} (le : A -> A -> bool) (z : A) (l : list A) :
  Forall (fun x => le x z = true) l -> sort_by le (l ++ [z]) = sort_by le l ++ [z].
Proof.
  induction 1 as [|x l Hx _ IH]; simpl; [done|]. by rewrite IH, insert_by_last.
Qed.

Lemma sort_by_first {A : Type} (le : A -> A -> bool) (z : A) (l : list A) :
  Forall (fun x => le x z = false) l -> sort_by le (l ++ [z]) = z :: sort_by le l.
Proof.
  induction 1 as [|x l Hx _ IH]; simpl; [done|]. by rewrite IH; simpl; rewrite Hx.
Qed.

Lemma loaded_reloaded (files : Files) (symbol : string) (r : BarStatusRecord) :
  r ∈ load_bar_status files symbol -> reloaded r = r.
Proof.
  intros Hr. apply reloaded_canonical; [by eapply loaded_midnight|].
  revert Hr. unfold load_bar_status.
  destruct (files !! symbol) as [rows|]; [|by intros ?%elem_of_nil].
  intros (row & _ & Hrow)%list_elem_of_omap. unfold from_dict in Hrow.
  destruct (of_value (csv_status row)); [|done].
  injection Hrow as <-. simpl.
  destruct (String.eqb_spec (csv_error_message row) ""); [done|congruence].
Qed.

Lemma day_injective (l : list BarStatusRecord) (a b : BarStatusRecord) :
  NoDup (map (fun r => day r) l) -> In a l -> In b l -> day a = day b -> a = b.
Proof.
  intros Hnd Ha Hb E.
  pose proof (find_unique l a Hnd Ha) as Fa.
  pose proof (find_unique l b Hnd Hb) as Fb.
  rewrite E in Fa. congruence.
Qed.

(** X22.  On a ledger with one row per day, a row written for a day newer
    than all of them decides the consecutive failures: an ERROR row adds one
    to the count, any other status brings it to 0. *)
Theorem newest_row_failures (files : Files) (symbol : string)
    (record : BarStatusRecord) :
  NoDup (map (fun r => day r) (load_bar_status files symbol)) ->
  Forall (fun r => day r < day record) (load_bar_status files symbol) ->
  get_consecutive_failures (update_bar_status files symbol record) symbol
  = if status_eqb (status record) ERROR
    then 1 + get_consecutive_failures files symbol
    else 0.
Proof.
  intros Hnd Hnew. unfold get_consecutive_failures.
  rewrite load_update. set (l := load_bar_status files symbol) in *.
  assert (upserted record l = l ++ [record]) as ->.
  { unfold upserted. rewrite replace_first_absent; [done|].
    eapply Forall_impl; [exact Hnew|]. intros r Hr. cbv beta in Hr. lia. }
  rewrite sort_by_last.
  2: { eapply Forall_impl; [exact Hnew|]. intros r Hr. cbv beta in Hr.
       unfold date_le. pose proof (day_bounds (date r)).
       pose proof (day_bounds (date record)).
       assert (midnight (day r + 1) <= midnight (day record))
         by (unfold midnight, ms_per_day; lia). lia. }
  rewrite map_app. cbn [map]. rewrite sort_by_first.
  2: { apply Forall_forall. intros x Hx.
       apply list_elem_of_In, in_map_iff in Hx as (r & <- & Hr).
       eapply Permutation_in in Hr; [|apply sort_by_perm].
       rewrite Forall_forall in Hnew. apply list_elem_of_In, Hnew in Hr.
       unfold date_ge, reloaded. cbn [date].
       pose proof (proj1 (midnight_lt (day r) (day record)) Hr). lia. }
  cbn [leading_errors]. change (status (reloaded record)) with (status record).
  destruct (status_eqb (status record) ERROR); [|done]. f_equal. f_equal.
  rewrite (map_ext_in reloaded id), map_id.
  2: { intros r Hr. eapply Permutation_in in Hr; [|apply sort_by_perm].
       by apply (loaded_reloaded files symbol), list_elem_of_In. }
  apply sort_by_perm_eq.
  - unfold date_ge. intros. lia.
  - unfold date_ge. intros. lia.
  - apply sort_by_perm.
  - intros a b Ha Hb Hab Hba.
    eapply Permutation_in in Ha; [|apply sort_by_perm].
    eapply Permutation_in in Hb; [|apply sort_by_perm].
    apply (day_injective l); try done. unfold date_ge in *. f_equal. lia.
Qed.

(** X22 on the ledger with 2024-01-03 COMPLETE and 2024-01-04 ERROR: an
    ERROR row for 2024-01-05 makes two failures in a row. *)
Lemma newest_row_failures_witness :
  get_consecutive_failures
    (update_bar_status Scenario.partial_ledger "X"
       (mkRecord (midnight 19727) ERROR 390 0 None (Some "Fetch failed") 0)) "X"
  = 1 + get_consecutive_failures Scenario.partial_ledger "X".
Proof.
  apply (newest_row_failures Scenario.partial_ledger "X"
           (mkRecord (midnight 19727) ERROR 390 0 None (Some "Fetch failed") 0)).
  - apply (bool_decide_unpack _). vm_compute. reflexivity.
  - apply (bool_decide_unpack _). vm_compute. reflexivity.
Defined.

Lemma filter_bool {A : Type} (f : A -> bool) (l : list A) :
  filter (fun x => f x = true) l = List.filter f l.
Proof.
  induction l as [|x l IH]; [done|]. rewrite filter_cons. simpl.
  destruct (f x) eqn:E; case_decide; congruence.
Qed.

Lemma NoDup_map_filter {A B : Type} (g : A -> B) (f : A -> bool) (l : list A) :
  NoDup (map g l) -> NoDup (map g (List.filter f l)).
Proof.
  induction l as [|x l IH]; simpl; [done|]. intros [Hx Hnd]%NoDup_cons.
  destruct (f x); simpl; [|by apply IH].
  apply NoDup_cons. split; [|by apply IH].
  intros Hin. apply Hx. apply list_elem_of_In, in_map_iff in Hin as (y & <- & Hy).
  apply filter_In in Hy as [Hy _]. apply list_elem_of_In, in_map, Hy.
Qed.

(** X25.  On a ledger with one row per day no day is both completed and in
    error, and the summary's [completed] and [errors] are the sizes of
    [get_completed_dates] and [get_error_dates]. *)
Theorem ledger_dates_partition (files : Files) (symbol : string) :
  NoDup (map (fun r => day r) (load_bar_status files symbol)) ->
  get_completed_dates files symbol ## get_error_dates files symbol
  /\ completed (get_symbol_summary files symbol)
     = Z.of_nat (size (get_completed_dates files symbol))
  /\ errors (get_symbol_summary files symbol)
     = Z.of_nat (size (get_error_dates files symbol)).
Proof.
  intros Hnd. unfold get_completed_dates, get_error_dates, get_symbol_summary.
  set (l := load_bar_status files symbol) in *.
  rewrite !filter_bool. split; [|split].
  - apply elem_of_disjoint. intros d.
    rewrite !elem_of_list_to_set.
    intros (r1 & -> & [H1 C1]%list_elem_of_In%filter_In)%list_elem_of_fmap.
    intros (r2 & E & [H2 C2]%list_elem_of_In%filter_In)%list_elem_of_fmap.
    assert (r1 = r2) as -> by by apply (day_injective l).
    by destruct (status r2).
  - rewrite size_list_to_set by by apply NoDup_map_filter.
    rewrite length_map. by destruct l.
  - rewrite size_list_to_set by by apply NoDup_map_filter.
    rewrite length_map. by destruct l.
Qed.

(** X25 on the ledger with 2024-01-03 COMPLETE and 2024-01-04 ERROR. *)
Lemma ledger_dates_partition_witness :
  get_completed_dates Scenario.partial_ledger "X"
  ## get_error_dates Scenario.partial_ledger "X"
  /\ completed (get_symbol_summary Scenario.partial_ledger "X")
     = Z.of_nat (size (get_completed_dates Scenario.partial_ledger "X"))
  /\ errors (get_symbol_summary Scenario.partial_ledger "X")
     = Z.of_nat (size (get_error_dates Scenario.partial_ledger "X")).
Proof.
  apply (ledger_dates_partition Scenario.partial_ledger "X").
  apply (bool_decide_unpack _). vm_compute. reflexivity.
Defined.

End LedgerSummary.

(** ** The summary of the retry policy *)

Section RetrySummary.

Import SmartRetry.

Lemma summary_total (rm : SmartRetryManager) (symbol : string) :
  total_failed_dates (get_symbol_summary rm symbol)
  = Z.of_nat (size (date_retries (state_or_new rm symbol))).
Proof.
  unfold get_symbol_summary, state_or_new.
  destruct (symbol_states rm !! symbol) as [st|]; cbn [total_failed_dates].
  - by rewrite length_map, length_map_to_list.
  - done.
Qed.

Lemma state_or_new_set (rm : SmartRetryManager) (symbol : string)
    (st : SymbolRetryState) :
  state_or_new (set_state rm symbol st) symbol = st.
Proof. unfold state_or_new, set_state. cbn. by rewrite lookup_insert_eq. Qed.

(** X23.  [total_failed_dates] of the retry summary counts the dates that
    have a failure on record, not the failures: a failure adds one for a
    date that had none and nothing for a date that had, and a success takes
    the date off the count.  The retryable and the exhausted dates make up
    the total. *)
Theorem retry_summary_counts (rm : SmartRetryManager) (symbol : string)
    (target_date : Z) (msg : string) (data_received : bool) :
  let known :=
    match get_retry_info rm symbol target_date with Some _ => 1 | None => 0 end in
  let summary := get_symbol_summary rm symbol in
  total_failed_dates
    (get_symbol_summary
       (fst (record_failure rm symbol target_date msg data_received)) symbol)
  = total_failed_dates summary + 1 - known
  /\ total_failed_dates
       (get_symbol_summary (record_success rm symbol target_date) symbol)
     = total_failed_dates summary - known
  /\ retryable_dates summary + exhausted_dates summary = total_failed_dates summary
  /\ 0 <= retryable_dates summary /\ 0 <= exhausted_dates summary.
Proof.
  cbv zeta.
  assert (get_retry_info rm symbol target_date
          = date_retries (state_or_new rm symbol) !! target_date) as ->.
  { unfold get_retry_info, state_or_new.
    by destruct (symbol_states rm !! symbol). }
  split; [|split]; [rewrite !summary_total..|].
  - unfold record_failure. cbv zeta. cbn [fst]. rewrite state_or_new_set.
    match goal with
    | |- context [date_retries (if ?a then if ?b then _ else _ else _)] =>
        destruct a; [destruct b|]
    end; cbn [date_retries].
    all: rewrite map_size_insert;
      destruct (date_retries (state_or_new rm symbol) !! target_date); simpl; lia.
  - unfold record_success. cbv zeta. rewrite state_or_new_set. cbn [date_retries].
    rewrite map_size_delete.
    destruct (date_retries (state_or_new rm symbol) !! target_date) eqn:E; simpl;
      [|lia].
    assert (size (date_retries (state_or_new rm symbol)) <> 0%nat); [|lia].
    by eapply map_size_ne_0_lookup_2.
  - unfold get_symbol_summary.
    destruct (symbol_states rm !! symbol) as [st|];
      cbn [retryable_dates exhausted_dates total_failed_dates]; [|lia].
    pose proof (filter_length_le
                  (fun info => can_retry info (max_retries_per_date rm))
                  (map snd (map_to_list (date_retries st)))).
    lia.
Qed.

End RetrySummary.
